(** * Schema-driven grid engine: shallow embedding and verified properties

    The development embeds the parts of the survey grid engine that its
    specification makes claims about:

    - the client runtime of [frontend/script.js] (format codec, row
      validation, serialization, save gate, dynamic rows), and
    - the server-side cell populator and row construction of the Go
      handlers ([PopulateCellsFromArray], [PopulateCellsFromObject],
      [formatValue], [AnkietSubtableGet], [AnkietRowGet]).

    JavaScript strings are sequences of UTF-16 code units, JavaScript
    numbers are IEEE-754 binary64 values (the [spec_float] type of the
    standard library, with all arithmetic done exactly on integers), Go
    strings are byte strings, Go maps are finite maps. *)

From Stdlib Require Import ZArith NArith List Bool Ascii String Lia.
From Stdlib Require Import Floats.SpecFloat.
From stdpp Require Import gmap strings list fin_maps sorting.

Set Warnings "-clear-no-such-hyp".

Local Open Scope N_scope.

(** ** JavaScript strings *)

Module JSString.

(** A string is the list of its UTF-16 code units. *)
Abbreviation jschar := N (only parsing).
Abbreviation jsstring := (list N) (only parsing).

(** ASCII literal of the source, as code units. *)
Definition lit (s : string) : jsstring :=
  map N_of_ascii (list_ascii_of_string s).

Definition c_space : jschar := 32.
Definition c_plus : jschar := 43.
Definition c_comma : jschar := 44.
Definition c_minus : jschar := 45.
Definition c_dot : jschar := 46.
Definition c_hash : jschar := 35.
Definition c_dollar : jschar := 36.

(** [\d] : the ten ASCII digits. *)
Definition is_digit (c : jschar) : bool := (48 <=? c) && (c <=? 57).

(** [\w] : ASCII letters, digits and underscore. *)
Definition is_word (c : jschar) : bool :=
  is_digit c || ((65 <=? c) && (c <=? 90)) || ((97 <=? c) && (c <=? 122))
  || (c =? 95).

(** [\s], which is also what [trim] strips: WhiteSpace and LineTerminator. *)
Definition is_space (c : jschar) : bool :=
  ((9 <=? c) && (c <=? 13)) || (c =? 32) || (c =? 160) || (c =? 5760)
  || ((8192 <=? c) && (c <=? 8202)) || (c =? 8232) || (c =? 8233)
  || (c =? 8239) || (c =? 8287) || (c =? 12288) || (c =? 65279).

Fixpoint jsstring_eqb (a b : jsstring) : bool :=
  match a, b with
  | [], [] => true
  | x :: a', y :: b' => (x =? y) && jsstring_eqb a' b'
  | _, _ => false
  end.

Fixpoint drop_space (s : jsstring) : jsstring :=
  match s with
  | [] => []
  | c :: rest => if is_space c then drop_space rest else s
  end.

(** [s.trim()] *)
Definition trim (s : jsstring) : jsstring :=
  rev (drop_space (rev (drop_space s))).

(** [s.startsWith(p)] *)
Fixpoint startsWith (s p : jsstring) : bool :=
  match p, s with
  | [], _ => true
  | _ :: _, [] => false
  | y :: p', x :: s' => (x =? y) && startsWith s' p'
  end.

(** [s.endsWith(p)] *)
Definition endsWith (s p : jsstring) : bool := startsWith (rev s) (rev p).

(** [s.includes(p)] *)
Fixpoint includes (s p : jsstring) : bool :=
  startsWith s p ||
  match s with
  | [] => false
  | _ :: s' => includes s' p
  end.

(** [s.replace(c, d)] for one-character strings: the first occurrence only. *)
Fixpoint replace_first (c d : jschar) (s : jsstring) : jsstring :=
  match s with
  | [] => []
  | x :: rest => if x =? c then d :: rest else x :: replace_first c d rest
  end.

(** [s.replace(/[...]/g, '')] for a character class. *)
Definition remove_all (cls : jschar -> bool) (s : jsstring) : jsstring :=
  List.filter (fun c => negb (cls c)) s.

(** [s.split(c)] for a one-character separator. *)
Fixpoint split (c : jschar) (s : jsstring) : list jsstring :=
  match s with
  | [] => [[]]
  | x :: rest =>
      match split c rest with
      | [] => [[]]
      | hd :: tl => if x =? c then [] :: hd :: tl else (x :: hd) :: tl
      end
  end.

(** Truthiness of a string: non-empty. *)
Definition truthy (s : jsstring) : bool :=
  match s with [] => false | _ => true end.

End JSString.
Export JSString.

(** ** Format codec: dash-grouped digit masks *)

(** [string_format_pattern], loop body: [i] is the loop index, [digits] the
    characters [digits[i], digits[i+1], ...] still to be read. *)
Fixpoint string_format_pattern_loop (i : nat) (digits formatted : jsstring)
  : jsstring :=
  match digits with
  | [] => formatted
  | d :: rest =>
      if (i <? 8)%nat then
        let formatted :=
          if (0 <? i)%nat && (i mod 2 =? 0)%nat
          then formatted ++ [c_minus] else formatted in
        string_format_pattern_loop (S i) rest (formatted ++ [d])
      else formatted
  end.

Definition string_format_pattern (value : jsstring) : jsstring :=
  let digits := remove_all (fun c => negb (is_digit c)) value in
  string_format_pattern_loop 0 digits [].

(** [validate_string_pattern]: the five accepted shapes. *)
Fixpoint matches_pairs (groups : nat) (s : jsstring) : bool :=
  match groups with
  | O => false
  | S g =>
      match s with
      | [a; b] => (g =? 0)%nat && is_digit a && is_digit b
      | a :: b :: c :: rest =>
          is_digit a && is_digit b && (c =? c_minus) && matches_pairs g rest
      | _ => false
      end
  end.

Definition validate_string_pattern (value format : jsstring) : bool :=
  if jsstring_eqb format [c_dollar] then true
  else
    jsstring_eqb value []
    || match value with [a] => is_digit a | _ => false end
    || matches_pairs 1 value || matches_pairs 2 value
    || matches_pairs 3 value || matches_pairs 4 value.

(** Digits in pairs separated by single dashes; the last group may hold one
    digit.  This is the shape the specification describes. *)
Fixpoint dash_pairs (ds : jsstring) : jsstring :=
  match ds with
  | a :: b :: ((_ :: _) as rest) => a :: b :: c_minus :: dash_pairs rest
  | _ => ds
  end.

(** ** JavaScript numbers *)

Module JSNumber.
Local Open Scope Z_scope.

(** A Number is a binary64 value. *)
Definition number : Type := spec_float.
Definition prec : Z := 53.
Definition emax : Z := 1024.

Definition NaN : number := S754_nan.
Definition isNaN (x : number) : bool :=
  match x with S754_nan => true | _ => false end.

(** [a < b], [a > b] on Numbers: false as soon as one side is NaN. *)
Definition lt (a b : number) : bool := SFltb a b.
Definition gt (a b : number) : bool := SFltb b a.

(** *** Decimal digits *)

Fixpoint uint_digits (u : Decimal.uint) : jsstring :=
  match u with
  | Decimal.Nil => []
  | Decimal.D0 u => 48%N :: uint_digits u
  | Decimal.D1 u => 49%N :: uint_digits u
  | Decimal.D2 u => 50%N :: uint_digits u
  | Decimal.D3 u => 51%N :: uint_digits u
  | Decimal.D4 u => 52%N :: uint_digits u
  | Decimal.D5 u => 53%N :: uint_digits u
  | Decimal.D6 u => 54%N :: uint_digits u
  | Decimal.D7 u => 55%N :: uint_digits u
  | Decimal.D8 u => 56%N :: uint_digits u
  | Decimal.D9 u => 57%N :: uint_digits u
  end.

(** Decimal digits of a non-negative integer, ["0"] for zero. *)
Definition digits_of_Z (n : Z) : jsstring :=
  match n with
  | Zpos p => uint_digits (Pos.to_uint p)
  | _ => [48%N]
  end.

(** Value of a string of decimal digits. *)
Definition Z_of_digits (ds : jsstring) : Z :=
  fold_left (fun acc c => acc * 10 + (Z.of_N c - 48)) ds 0.

(** An integer printed in decimal, as [String(n)] does below 10^21. *)
Definition int_to_string (n : Z) : jsstring :=
  match n with
  | Zneg p => c_minus :: digits_of_Z (Zpos p)
  | _ => digits_of_Z n
  end.

Definition zeros (n : Z) : jsstring := repeat 48%N (Z.to_nat n).

(** *** Conversions from exact values *)

(** The Number nearest to an integer (ties to even). *)
Definition of_Z (n : Z) : number := binary_normalize prec emax n 0 false.

(** The Number nearest to [m * 10^e10] for [m >= 0], negated when [neg] is
    set.  Magnitudes far outside the binary64 range are settled before any
    power of ten is computed. *)
Definition of_decimal (neg : bool) (m : Z) (e10 : Z) : number :=
  match m with
  | Zpos p =>
      let nd := Z.of_nat (length (digits_of_Z m)) in
      if 400 <? e10 then S754_infinity neg
      else if e10 + nd <? -400 then S754_zero neg
      else if 0 <=? e10 then
        binary_normalize prec emax
          (if neg then - (m * 10 ^ e10) else m * 10 ^ e10) 0 false
      else
        SFdiv prec emax (S754_finite neg p 0)
                        (S754_finite false (Z.to_pos (10 ^ (- e10))) 0)
  | _ => S754_zero neg
  end.

(** A positive finite Number [m * 2^e] as an exact fraction. *)
Definition numerator (m : positive) (e : Z) : Z :=
  if 0 <=? e then Zpos m * 2 ^ e else Zpos m.
Definition denominator (e : Z) : Z :=
  if 0 <=? e then 1 else 2 ^ (- e).

(** *** [Math.round]: [floor(x + 1/2)], keeping the sign of a zero result. *)
Definition Math_round (x : number) : number :=
  match x with
  | S754_finite s m e =>
      if 0 <=? e then x
      else
        let v := if s then Zneg m else Zpos m in
        let r := (2 * v + 2 ^ (- e)) / 2 ^ (1 - e) in
        if r =? 0 then S754_zero s else of_Z r
  | _ => x
  end.

(** *** [Number::toString] *)

(** [n] with [10^(n-1) <= m * 2^e < 10^n]. *)
Fixpoint order_up (fuel : nat) (num den : Z) (n : Z) : Z :=
  match fuel with
  | O => n
  | S fuel' => if num <? den then n else order_up fuel' num (den * 10) (n + 1)
  end.
Fixpoint order_down (fuel : nat) (num den : Z) (n : Z) : Z :=
  match fuel with
  | O => n
  | S fuel' => if den <=? num then n else order_down fuel' (num * 10) den (n - 1)
  end.
Definition decimal_order (m : positive) (e : Z) : Z :=
  let num := numerator m e in
  let den := denominator e in
  if den <=? num then order_up 400 num den 0
  else order_down 400 (num * 10) den 0.

(** The candidates with [k] digits below and above [x / 10^(n-k)], kept when
    they have [k] digits and read back as [x]; each comes with its distance
    to [x] in units of [10^(n-k) / den]. *)
Definition candidates (x : number) (m : positive) (e : Z) (n k : Z)
  : list (Z * Z) :=
  let p := n - k in
  let num := numerator m e * (if p <? 0 then 10 ^ (- p) else 1) in
  let den := denominator e * (if p <? 0 then 1 else 10 ^ p) in
  let lo := num / den in
  let ok s :=
    (10 ^ (k - 1) <=? s) && (s <? 10 ^ k)
    && SFeqb (of_decimal false s p) x in
  List.filter (fun c => ok (fst c))
    [(lo, num - lo * den); (lo + 1, (lo + 1) * den - num)].

Definition best_candidate (cs : list (Z * Z)) : option Z :=
  match cs with
  | [] => None
  | [(s, _)] => Some s
  | (s1, d1) :: (s2, d2) :: _ =>
      if d1 <? d2 then Some s1
      else if d2 <? d1 then Some s2
      else if Z.even s1 then Some s1 else Some s2
  end.

Fixpoint shortest (fuel : nat) (x : number) (m : positive) (e : Z) (n k : Z)
  : Z * Z :=
  match fuel with
  | O => (0, k)
  | S fuel' =>
      match best_candidate (candidates x m e n k) with
      | Some s => (s, k)
      | None => shortest fuel' x m e n (k + 1)
      end
  end.

Definition exponent_suffix (n : Z) : jsstring :=
  let e := n - 1 in
  [101%N] ++ (if e <? 0 then [c_minus] else [c_plus]) ++ digits_of_Z (Z.abs e).

(** The digits [s] (there are [k] of them) laid out for the order [n]. *)
Definition layout (s k n : Z) : jsstring :=
  let ds := digits_of_Z s in
  if (k <=? n) && (n <=? 21) then ds ++ zeros (n - k)
  else if (0 <? n) && (n <=? 21) then
    take (Z.to_nat n) ds ++ [c_dot] ++ drop (Z.to_nat n) ds
  else if (-6 <? n) && (n <=? 0) then
    [48%N; c_dot] ++ zeros (- n) ++ ds
  else if k =? 1 then ds ++ exponent_suffix n
  else take 1 ds ++ [c_dot] ++ drop 1 ds ++ exponent_suffix n.

Definition Number_toString (x : number) : jsstring :=
  match x with
  | S754_nan => lit "NaN"
  | S754_zero _ => lit "0"
  | S754_infinity s => (if s then [c_minus] else []) ++ lit "Infinity"
  | S754_finite s m e =>
      let ax := S754_finite false m e in
      let n := decimal_order m e in
      let '(d, k, n') :=
        if SFeqb (of_decimal false 1 n) ax then (1, 1, n + 1)
        else let '(d, k) := shortest 17 ax m e n 1 in (d, k, n) in
      (if s then [c_minus] else []) ++ layout d k n'
  end.

(** *** [Number.prototype.toFixed]

    [None] is the RangeError thrown for a digit count outside 0..100. *)
Definition toFixed (x : number) (f : Z) : option jsstring :=
  if (f <? 0) || (100 <? f) then None
  else
    match x with
    | S754_finite s m e =>
        let num := numerator m e in
        let den := denominator e in
        if 10 ^ 21 * den <=? num then Some (Number_toString x)
        else
          let n := (2 * num * 10 ^ f + den) / (2 * den) in
          let ds := digits_of_Z n in
          let k := Z.of_nat (length ds) in
          let ds := if k <=? f then zeros (f + 1 - k) ++ ds else ds in
          let k := Z.max k (f + 1) in
          let body :=
            if f =? 0 then ds
            else take (Z.to_nat (k - f)) ds ++ [c_dot]
                 ++ drop (Z.to_nat (k - f)) ds in
          Some ((if s then [c_minus] else []) ++ body)
    | S754_zero _ =>
        Some (if f =? 0 then lit "0" else lit "0." ++ zeros f)
    | _ => Some (Number_toString x)
    end.

(** *** [parseFloat] *)

Fixpoint span_digits (s : jsstring) : jsstring * jsstring :=
  match s with
  | c :: rest =>
      if is_digit c then let '(ds, r) := span_digits rest in (c :: ds, r)
      else ([], s)
  | [] => ([], [])
  end.

(** The value of an ExponentPart at the head of [s], or 0 when there is
    none (an [e] that no digit follows is not part of the literal). *)
Definition exponent_part (s : jsstring) : Z :=
  match s with
  | c :: rest =>
      if (c =? 101)%N || (c =? 69)%N then
        let '(neg, rest') :=
          match rest with
          | sg :: r =>
              if (sg =? c_minus)%N then (true, r)
              else if (sg =? c_plus)%N then (false, r)
              else (false, rest)
          | [] => (false, rest)
          end in
        let '(ds, _) := span_digits rest' in
        match ds with
        | [] => 0
        | _ => if neg then - Z_of_digits ds else Z_of_digits ds
        end
      else 0
  | [] => 0
  end.

Definition parseFloat (input : jsstring) : number :=
  let s := drop_space input in
  let '(neg, s) :=
    match s with
    | c :: rest =>
        if (c =? c_minus)%N then (true, rest)
        else if (c =? c_plus)%N then (false, rest)
        else (false, s)
    | [] => (false, s)
    end in
  if startsWith s (lit "Infinity") then S754_infinity neg
  else
    let '(ip, s1) := span_digits s in
    let '(fp, s2) :=
      match s1 with
      | c :: rest =>
          if (c =? c_dot)%N then span_digits rest else ([], s1)
      | [] => ([], s1)
      end in
    match ip, fp with
    | [], [] => NaN
    | _, _ =>
        of_decimal neg (Z_of_digits (ip ++ fp))
                   (exponent_part s2 - Z.of_nat (length fp))
    end.

End JSNumber.
Export JSNumber.

(** ** Format codec: numeric display masks *)

Record Number_Format := { has_spaces : bool; decimals : Z }.

(** [format.split(sep)[1] ?? ''] *)
Definition second_part (sep : jschar) (s : jsstring) : jsstring :=
  default [] (split sep s !! 1%nat).

Definition number_format_parse (format : jsstring) : Number_Format :=
  let decimal_part :=
    if includes format [c_dot] then second_part c_dot format
    else if includes format [c_comma] then second_part c_comma format
    else [] in
  {| has_spaces := includes format [c_space];
     decimals := Z.of_nat (length decimal_part) |}.

Fixpoint digit_run (s : jsstring) : nat :=
  match s with
  | c :: rest => if is_digit c then S (digit_run rest) else O
  | [] => O
  end.

(** [s.replace(/\B(?=(\d{3})+(?!\d))/g, ' ')]: a space goes in front of a
    character when the position is not a word boundary and the digits that
    start there form a run whose length is a positive multiple of three.
    [prev] is the character before [s], if any. *)
Fixpoint group_thousands (prev : option jschar) (s : jsstring) : jsstring :=
  match s with
  | [] => []
  | c :: rest =>
      let run := digit_run s in
      let inside := match prev with Some p => is_word p | None => false end in
      (if inside && (0 <? run)%nat && (run mod 3 =? 0)%nat
       then [c_space] else [])
      ++ c :: group_thousands (Some c) rest
  end.

(** [number_format_value]; [None] when [toFixed] throws. *)
Definition number_format_value (value : number) (fmt : Number_Format)
  : option jsstring :=
  result ← (if (decimals fmt =? 0)%Z
            then Some (Number_toString (Math_round value))
            else toFixed value (decimals fmt));
  let result := replace_first c_dot c_comma result in
  if has_spaces fmt then
    let parts := split c_comma result in
    let int_part := default [] (parts !! 0%nat) in
    let dec_part := parts !! 1%nat in
    let is_negative := startsWith int_part [c_minus] in
    let abs_int := if is_negative then drop 1 int_part else int_part in
    let spaced := group_thousands None abs_int in
    Some ((if is_negative then [c_minus] else []) ++ spaced
          ++ match dec_part with
             | Some d => if truthy d then c_comma :: d else []
             | None => []
             end)
  else Some result.

(** [number_value_parse]; [None] is JavaScript's [null]. *)
Definition number_value_parse (value : jsstring) : option number :=
  let raw := replace_first c_comma c_dot (remove_all is_space value) in
  if jsstring_eqb raw [] || jsstring_eqb raw [c_minus]
     || jsstring_eqb raw [c_dot]
  then None
  else
    let num := parseFloat raw in
    if isNaN num then None else Some num.

Definition string_is_blank (value : jsstring) : bool :=
  jsstring_eqb
    (remove_all (fun c => is_space c || (c =? c_comma) || (c =? c_dot)
                          || (c =? c_minus)) value) [].

(** ** The grid's DOM

    The runtime reads the rendered markup through a fixed set of selectors.
    The model keeps, per [data-cell] element, the elements those selectors
    reach: inputs of class [number-input] and [string-input], enum
    containers with their visible and hidden input, multi-exclusive
    containers with their hidden input and check boxes, and the error
    popups.  [data-row-index] is rendered by the server from an integer and
    is kept as one. *)

Record Input := {
  input_name : jsstring;                  (* input.name *)
  input_value : jsstring;                 (* input.value *)
  readonly : bool;                        (* hasAttribute('readonly') *)
  data_required : option jsstring;        (* dataset.required *)
  data_format : option jsstring;          (* dataset.format *)
  data_min : option jsstring;             (* dataset.min *)
  data_max : option jsstring;             (* dataset.max *)
  data_errorMessage : option jsstring;    (* dataset.errorMessage *)
  data_errorType : option jsstring;       (* dataset.errorType *)
  classList : gset string
}.

Inductive Field :=
| NumberInput (i : Input)
| StringInput (i : Input)
| EnumContainer (visible hidden : option Input)
| MultiExclusiveContainer (hidden : option Input) (options : list Input).

Record Cell := {
  row_index : option Z;                   (* data-row-index *)
  row_code : option jsstring;             (* data-row-code *)
  fields : list Field;
  popups : nat;                           (* .input-error-popup elements *)
  cell_classList : gset string
}.

Definition set_error (i : Input) (msg type : option jsstring)
  (cls : gset string) : Input :=
  {| input_name := input_name i; input_value := input_value i;
     readonly := readonly i; data_required := data_required i;
     data_format := data_format i; data_min := data_min i;
     data_max := data_max i; data_errorMessage := msg;
     data_errorType := type; classList := cls |}.

Definition set_classList (i : Input) (cls : gset string) : Input :=
  set_error i (data_errorMessage i) (data_errorType i) cls.

Definition set_value (i : Input) (v : jsstring) : Input :=
  {| input_name := input_name i; input_value := v;
     readonly := readonly i; data_required := data_required i;
     data_format := data_format i; data_min := data_min i;
     data_max := data_max i; data_errorMessage := data_errorMessage i;
     data_errorType := data_errorType i; classList := classList i |}.

Definition error_classes : gset string :=
  list_to_set ["border-red-300"; "bg-red-50"; "ring-2"; "ring-red-200";
               "border-orange-300"; "bg-orange-50"; "ring-orange-200"]%string.
Definition neutral_classes : gset string :=
  list_to_set ["border-gray-200"; "focus:border-indigo-500"]%string.
Definition red_classes : gset string :=
  list_to_set ["border-red-300"; "bg-red-50"; "ring-2"; "ring-red-200"]%string.
Definition orange_classes : gset string :=
  list_to_set ["border-orange-300"; "bg-orange-50"; "ring-2";
               "ring-orange-200"]%string.
Definition success_classes : gset string :=
  list_to_set ["border-green-300"; "bg-green-50"; "ring-2";
               "ring-green-200"]%string.

(** [input_clear_error], the part that touches the input itself; the popup
    it removes from the enclosing cell is counted in [cell_clear_popup]. *)
Definition input_clear_error (input : Input) : Input :=
  set_error input None None ((classList input ∖ error_classes) ∪ neutral_classes).

(** [wrapper?.querySelector('.input-error-popup')?.remove()] *)
Definition cell_clear_popup (n : nat) : nat := Nat.pred n.

(** [input_show_error] *)
Definition input_show_error (input : Input) (message type : jsstring) : Input :=
  let input := input_clear_error input in
  set_error input (Some message) (Some type)
    ((classList input ∖ neutral_classes)
     ∪ (if jsstring_eqb type (lit "error") then red_classes else orange_classes)).

(** [input_show_success], before its timer fires. *)
Definition input_show_success (input : Input) : Input :=
  set_classList input ((classList input ∖ neutral_classes) ∪ success_classes).

(** Every [input] element of a field, for [querySelectorAll('input')]. *)
Definition field_inputs (f : Field) : list Input :=
  match f with
  | NumberInput i | StringInput i => [i]
  | EnumContainer v h => option_list v ++ option_list h
  | MultiExclusiveContainer h opts => option_list h ++ opts
  end.

Definition cell_inputs (c : Cell) : list Input :=
  concat (map field_inputs (fields c)).

Definition field_map_inputs (g : Input -> Input) (f : Field) : Field :=
  match f with
  | NumberInput i => NumberInput (g i)
  | StringInput i => StringInput (g i)
  | EnumContainer v h => EnumContainer (g <$> v) (g <$> h)
  | MultiExclusiveContainer h opts =>
      MultiExclusiveContainer (g <$> h) (g <$> opts)
  end.

Definition set_fields (c : Cell) (fs : list Field) (p : nat) : Cell :=
  {| row_index := row_index c; row_code := row_code c; fields := fs;
     popups := p; cell_classList := cell_classList c |}.

Definition set_cell_classList (c : Cell) (cls : gset string) : Cell :=
  {| row_index := row_index c; row_code := row_code c; fields := fields c;
     popups := popups c; cell_classList := cls |}.

(** ** Row-based operations *)

Definition has_text (i : Input) : bool :=
  negb (jsstring_eqb (trim (input_value i)) []).

Definition is_readonly (i : option Input) : bool :=
  match i with Some i => readonly i | None => false end.

(** The four scans of [row_cells_has_data] over one cell. *)
Definition number_has_data (f : Field) : bool :=
  match f with
  | NumberInput i => negb (readonly i) && has_text i
  | _ => false
  end.
Definition string_has_data (f : Field) : bool :=
  match f with
  | StringInput i => negb (readonly i) && has_text i
  | _ => false
  end.
Definition enum_has_data (f : Field) : bool :=
  match f with
  | EnumContainer visible (Some hidden) =>
      if is_readonly visible then false else has_text hidden
  | _ => false
  end.
Definition multi_has_data (f : Field) : bool :=
  match f with
  | MultiExclusiveContainer (Some hidden) _ => has_text hidden
  | _ => false
  end.

Definition cell_has_data (cell : Cell) : bool :=
  existsb number_has_data (fields cell)
  || existsb string_has_data (fields cell)
  || existsb enum_has_data (fields cell)
  || existsb multi_has_data (fields cell).

Definition row_cells_has_data (cells : list Cell) : bool :=
  existsb cell_has_data cells.

Definition cell_clear_errors (cell : Cell) : Cell :=
  set_fields cell (map (field_map_inputs input_clear_error) (fields cell))
    (Nat.iter (length (cell_inputs cell)) cell_clear_popup (popups cell)).

Definition row_cells_clear_errors (cells : list Cell) : list Cell :=
  map cell_clear_errors cells.

(** ** Field validation *)

Definition MSG_REQUIRED : jsstring := lit "To pole jest wymagane".
Definition MSG_NUMBER : jsstring :=
  lit "Nieprawid" ++ [322] ++ lit "owy format liczby".
Definition MSG_MIN : jsstring :=
  lit "Warto" ++ [347; 263] ++ lit " musi by" ++ [263] ++ lit " co najmniej ".
Definition MSG_MAX : jsstring :=
  lit "Warto" ++ [347; 263] ++ lit " musi by" ++ [263] ++ lit " co najwy"
  ++ [380] ++ lit "ej ".
Definition MSG_PATTERN : jsstring :=
  lit "Nieprawid" ++ [322] ++ lit "owy format (np. 12, 12-34, 12-34-56)".
Definition MSG_ENUM : jsstring :=
  lit "Wybierz warto" ++ [347; 263] ++ lit " z listy".
Definition MSG_MULTI : jsstring :=
  lit "Wybierz co najmniej jedn" ++ [261] ++ lit " opcj" ++ [281].

(** [dataset.x === 'true'] *)
Definition is_true (o : option jsstring) : bool :=
  match o with Some s => jsstring_eqb s (lit "true") | None => false end.

(** A dataset entry used as a condition: present and non-empty. *)
Definition present (o : option jsstring) : option jsstring :=
  match o with
  | Some s => if truthy s then Some s else None
  | None => None
  end.

(** [dataset.min ? parseFloat(dataset.min) : null] *)
Definition parse_bound (o : option jsstring) : option number :=
  parseFloat <$> present o.

(** The value of an optional input, [''] when it is missing or empty. *)
Definition value_of (i : option Input) : jsstring :=
  match i with Some i => input_value i | None => [] end.

(** Validators return [Some None] for no error, [Some (Some m)] for the
    message [m], and [None] when formatting a bound throws. *)
Definition validate_number_value (input : Input) : option (option jsstring) :=
  let raw := trim (input_value input) in
  if string_is_blank raw then Some None
  else
    let value := number_value_parse raw in
    let min := parse_bound (data_min input) in
    let max := parse_bound (data_max input) in
    let fmt := number_format_parse
                 (default (lit "###0") (present (data_format input))) in
    match value with
    | None => Some (Some MSG_NUMBER)
    | Some value =>
        match min with
        | Some min' =>
            if lt value min' then
              s ← number_format_value min' fmt; Some (Some (MSG_MIN ++ s))
            else
              match max with
              | Some max' =>
                  if gt value max' then
                    s ← number_format_value max' fmt;
                    Some (Some (MSG_MAX ++ s))
                  else Some None
              | None => Some None
              end
        | None =>
            match max with
            | Some max' =>
                if gt value max' then
                  s ← number_format_value max' fmt;
                  Some (Some (MSG_MAX ++ s))
                else Some None
            | None => Some None
            end
        end
    end.

Definition validate_number_required (input : Input)
  : option (option jsstring) :=
  let raw := trim (input_value input) in
  let required := is_true (data_required input) in
  let custom_msg := present (data_errorMessage input) in
  if required && string_is_blank raw
  then Some (Some (default MSG_REQUIRED custom_msg))
  else validate_number_value input.

Definition input_format_error_get (input : Input) : option jsstring :=
  match present (data_format input) with
  | None => None
  | Some format =>
      if jsstring_eqb format [c_dollar] then None
      else if includes format [c_hash]
              && truthy (input_value input)
              && negb (validate_string_pattern (input_value input) format)
      then Some MSG_PATTERN
      else None
  end.

Definition validate_string_required (input : Input) : option jsstring :=
  let required := is_true (data_required input) in
  let value := trim (input_value input) in
  if required && negb (truthy value) then Some MSG_REQUIRED
  else input_format_error_get input.

Definition validate_enum_required (visible hidden : option Input)
  : option jsstring :=
  let required := is_true (visible ≫= data_required) in
  if required && negb (truthy (value_of hidden)) then Some MSG_ENUM
  else None.

Definition validate_multi_exclusive_required (hidden : option Input)
  : option jsstring :=
  let required := is_true (hidden ≫= data_required) in
  if required && negb (truthy (value_of hidden)) then Some MSG_MULTI
  else None.

Definition no_error (error : option jsstring) : bool :=
  match error with None => true | Some _ => false end.

Definition severity (required : bool) : jsstring :=
  if required then lit "error" else lit "warning".

(** What [row_cells_validate] does to one input once its error is known. *)
Definition mark (input : Input) (error : option jsstring) : Input :=
  match error with
  | Some e => input_show_error input e (severity (is_true (data_required input)))
  | None => input_clear_error input
  end.

(** One field of a row that has data: the field after its markers are
    updated, whether it passed, and how many popup removals it caused. *)
Definition field_validate (f : Field) : option (Field * bool * nat) :=
  match f with
  | NumberInput input =>
      if readonly input then Some (f, true, O)
      else
        error ← validate_number_required input;
        Some (NumberInput (mark input error), no_error error, 1%nat)
  | StringInput input =>
      if readonly input then Some (f, true, O)
      else
        let error := validate_string_required input in
        Some (StringInput (mark input error), no_error error, 1%nat)
  | EnumContainer visible hidden =>
      if is_readonly visible then Some (f, true, O)
      else
        let error := validate_enum_required visible hidden in
        match visible with
        | Some input =>
            Some (EnumContainer (Some (mark input error)) hidden,
                  no_error error, 1%nat)
        | None => Some (f, true, O)
        end
  | MultiExclusiveContainer hidden options =>
      let error := validate_multi_exclusive_required hidden in
      match hidden with
      | Some input =>
          Some (MultiExclusiveContainer (Some (mark input error)) options,
                no_error error, 1%nat)
      | None => Some (f, true, O)
      end
  end.

Fixpoint fields_validate (fs : list Field)
  : option (list Field * bool * nat) :=
  match fs with
  | [] => Some ([], true, O)
  | f :: rest =>
      '(f', ok, n) ← field_validate f;
      '(rest', ok', n') ← fields_validate rest;
      Some (f' :: rest', ok && ok', (n + n')%nat)
  end.

Definition cell_validate (cell : Cell) : option (Cell * bool) :=
  '(fs, ok, n) ← fields_validate (fields cell);
  Some (set_fields cell fs (Nat.iter n cell_clear_popup (popups cell)), ok).

Fixpoint cells_validate (cells : list Cell) : option (list Cell * bool) :=
  match cells with
  | [] => Some ([], true)
  | c :: rest =>
      '(c', ok) ← cell_validate c;
      '(rest', ok') ← cells_validate rest;
      Some (c' :: rest', ok && ok')
  end.

(** [row_cells_validate]: the cells as it leaves them and its result;
    [None] when a validator throws. *)
Definition row_cells_validate (cells : list Cell)
  : option (list Cell * bool) :=
  if negb (row_cells_has_data cells)
  then Some (row_cells_clear_errors cells, true)
  else cells_validate cells.

(** ** Serialization *)

Inductive JSValue :=
| VNumber (n : number)
| VString (s : jsstring).

(** The four scans of [table_serialize] over one cell; a later assignment to
    the same key replaces the earlier one. *)
Definition serialize_number (data : gmap jsstring JSValue) (f : Field)
  : gmap jsstring JSValue :=
  match f with
  | NumberInput input =>
      match number_value_parse (input_value input) with
      | Some value => <[input_name input := VNumber value]> data
      | None => data
      end
  | _ => data
  end.

Definition serialize_string (data : gmap jsstring JSValue) (f : Field)
  : gmap jsstring JSValue :=
  match f with
  | StringInput input =>
      let value := trim (input_value input) in
      if truthy value then <[input_name input := VString value]> data
      else data
  | _ => data
  end.

Definition serialize_enum (data : gmap jsstring JSValue) (f : Field)
  : gmap jsstring JSValue :=
  match f with
  | EnumContainer _ (Some input) =>
      if truthy (input_value input)
      then <[input_name input := VString (input_value input)]> data
      else data
  | _ => data
  end.

Definition serialize_multi (data : gmap jsstring JSValue) (f : Field)
  : gmap jsstring JSValue :=
  match f with
  | MultiExclusiveContainer (Some input) _ =>
      if truthy (input_value input)
      then <[input_name input := VString (input_value input)]> data
      else data
  | _ => data
  end.

Definition cell_serialize (data : gmap jsstring JSValue) (c : Cell)
  : gmap jsstring JSValue :=
  let data := foldl serialize_number data (fields c) in
  let data := foldl serialize_string data (fields c) in
  let data := foldl serialize_enum data (fields c) in
  foldl serialize_multi data (fields c).

(** The object [table_serialize] builds for the cells of one row. *)
Definition row_serialize (cells : list Cell) : gmap jsstring JSValue :=
  foldl cell_serialize ∅ cells.

(** ** The grid element and its runtime state *)

Record EnumOption := {
  data_value : option jsstring;           (* dataset.value *)
  data_label : option jsstring;           (* dataset.label *)
  data_rowCode : option jsstring;         (* dataset.rowCode *)
  option_classList : gset string
}.

(** The [data-row-selector] catalogue: the text of its [data-enum-input]
    (if it has one), the class list of its [data-enum-dropdown] (if it has
    one) and its [data-enum-option] elements in document order. *)
Record RowSelector := {
  selector_input : option jsstring;
  selector_dropdown : option (gset string);
  selector_options : list EnumOption
}.

Record Element := {
  cells : list Cell;
  row_selector : option RowSelector
}.

(** The state record of [table_init].  [enum_selected_index] is kept for
    the row selector's container only; [None] is an absent map entry. *)
Record StateTable := {
  element : Element;
  table_type : jsstring;
  endpoint : jsstring;
  enum_selected_index : option Z;
  pending_save : bool;
  last_save_time : number;
  is_dynamic : bool;
  is_unique : bool;
  row_counter : Z
}.

Definition set_element (st : StateTable) (e : Element) : StateTable :=
  {| element := e; table_type := table_type st; endpoint := endpoint st;
     enum_selected_index := enum_selected_index st;
     pending_save := pending_save st; last_save_time := last_save_time st;
     is_dynamic := is_dynamic st; is_unique := is_unique st;
     row_counter := row_counter st |}.

Definition set_cells (e : Element) (cs : list Cell) : Element :=
  {| cells := cs; row_selector := row_selector e |}.

Definition set_save (st : StateTable) (pending : bool) (last : number)
  : StateTable :=
  {| element := element st; table_type := table_type st;
     endpoint := endpoint st; enum_selected_index := enum_selected_index st;
     pending_save := pending; last_save_time := last;
     is_dynamic := is_dynamic st; is_unique := is_unique st;
     row_counter := row_counter st |}.

Definition set_row_counter (st : StateTable) (n : Z) : StateTable :=
  {| element := element st; table_type := table_type st;
     endpoint := endpoint st; enum_selected_index := enum_selected_index st;
     pending_save := pending_save st; last_save_time := last_save_time st;
     is_dynamic := is_dynamic st; is_unique := is_unique st;
     row_counter := n |}.

Definition set_selected_index (st : StateTable) (i : option Z) : StateTable :=
  {| element := element st; table_type := table_type st;
     endpoint := endpoint st; enum_selected_index := i;
     pending_save := pending_save st; last_save_time := last_save_time st;
     is_dynamic := is_dynamic st; is_unique := is_unique st;
     row_counter := row_counter st |}.

Definition in_row (rowIndex : Z) (c : Cell) : bool :=
  match row_index c with
  | Some i => (i =? rowIndex)%Z
  | None => false
  end.

(** [row_cells_get] *)
Definition row_cells_get (table : Element) (rowIndex : Z) : list Cell :=
  List.filter (in_row rowIndex) (cells table).

(** [all_row_indices_get]: the distinct indices, ascending. *)
Definition all_row_indices_get (state : StateTable) : list Z :=
  merge_sort Z.le (remove_dups (omap row_index (cells (element state)))).

(** The cells of row [rowIndex] replaced, in document order, by [updated]. *)
Fixpoint row_cells_put (rowIndex : Z) (all updated : list Cell) : list Cell :=
  match all with
  | [] => []
  | c :: rest =>
      if in_row rowIndex c then
        match updated with
        | u :: us => u :: row_cells_put rowIndex rest us
        | [] => c :: row_cells_put rowIndex rest []
        end
      else c :: row_cells_put rowIndex rest updated
  end.

Fixpoint validate_rows (indices : list Z) (all : list Cell)
  : option (list Cell * bool) :=
  match indices with
  | [] => Some (all, true)
  | rowIndex :: rest =>
      '(updated, ok) ← row_cells_validate (List.filter (in_row rowIndex) all);
      '(all', ok') ← validate_rows rest (row_cells_put rowIndex all updated);
      Some (all', ok && ok')
  end.

(** [table_validate_all]; [None] when a validator throws. *)
Definition table_validate_all (state : StateTable)
  : option (StateTable * bool) :=
  '(all, valid) ← validate_rows (all_row_indices_get state)
                                (cells (element state));
  Some (set_element state (set_cells (element state) all), valid).

(** [table_serialize] *)
Definition table_serialize (state : StateTable)
  : list (gmap jsstring JSValue) :=
  omap (fun rowIndex =>
          let cells := row_cells_get (element state) rowIndex in
          if negb (row_cells_has_data cells) then None
          else Some (row_serialize cells))
       (all_row_indices_get state).

(** [table_serialize_vertical] *)
Definition table_serialize_vertical (state : StateTable)
  : gmap jsstring JSValue :=
  let fs := concat (map fields (cells (element state))) in
  let data := foldl serialize_number ∅ fs in
  let data := foldl serialize_string data fs in
  let data := foldl serialize_enum data fs in
  foldl serialize_multi data fs.

(** ** Effects *)

Inductive Payload :=
| PObject (data : gmap jsstring JSValue)
| PArray (rows : list (gmap jsstring JSValue)).

(** What a handler does to the world outside the state record. *)
Inductive Effect :=
| Toast (message : jsstring) (type : string)     (* toast_show *)
| FetchGet (url : jsstring)                      (* fetch(url) *)
| FetchPost (url : jsstring) (body : Payload).   (* fetch(url, {method: 'POST', ...}) *)

Definition is_network_call (e : Effect) : bool :=
  match e with
  | Toast _ _ => false
  | FetchGet _ | FetchPost _ _ => true
  end.

(** How a suspended [fetch] of a row fragment resumes: it rejects (the
    string is what [`${err}`] prints), it answers with a status that is not
    ok, or it answers with markup, given here as the cells it parses to. *)
Inductive RowResponse :=
| RowRejected (err : jsstring)
| RowStatus (status : Z)
| RowMarkup (html : list Cell).

(** How the suspended [fetch] of a save resumes. *)
Inductive SaveResponse :=
| SaveNetworkError (err : jsstring)
| SaveStatus (status : Z)
| SaveOk.

(** ** Save gate *)

Definition SAVE_COOLDOWN_MS : number := of_Z 3000.

(** [Math.ceil] *)
Definition Math_ceil (x : number) : number :=
  match x with
  | S754_finite s m e =>
      if (0 <=? e)%Z then x
      else
        let v := if s then Zneg m else Zpos m in
        let r := (- ((- v) / 2 ^ (- e)))%Z in
        if (r =? 0)%Z then S754_zero s else of_Z r
  | _ => x
  end.

Definition MSG_WAIT (remaining : number) : jsstring :=
  lit "Poczekaj " ++ Number_toString remaining
  ++ lit "s przed kolejnym zapisem".
Definition MSG_FORM_ERRORS : jsstring :=
  lit "Formularz zawiera b" ++ [322; 281] ++ lit "dy".
Definition MSG_NO_DATA : jsstring := lit "Brak danych do zapisania".
Definition MSG_SAVED : jsstring := lit "Zapisano pomy" ++ [347] ++ lit "lnie".
Definition MSG_SAVE_FAILED (err : jsstring) : jsstring :=
  lit "B" ++ [322; 261] ++ lit "d zapisu: " ++ err.
Definition MSG_SERVER_ERROR (status : Z) : jsstring :=
  lit "Error: B" ++ [322; 261] ++ lit "d serwera: " ++ int_to_string status.
Definition MSG_ADD_FAILED (err : jsstring) : jsstring :=
  lit "B" ++ [322; 261] ++ lit "d dodawania wiersza: " ++ err.

(** [row_cells_show_success] *)
Definition field_show_success (f : Field) : Field :=
  match f with
  | NumberInput input =>
      if negb (readonly input) && has_text input
      then NumberInput (input_show_success input) else f
  | StringInput input =>
      if negb (readonly input) && has_text input
      then StringInput (input_show_success input) else f
  | EnumContainer (Some input) hidden =>
      if negb (readonly input) && truthy (value_of hidden)
      then EnumContainer (Some (input_show_success input)) hidden else f
  | _ => f
  end.

Definition row_cells_show_success (cells : list Cell) : list Cell :=
  map (fun c => set_fields c (map field_show_success (fields c)) (popups c))
      cells.

Fixpoint show_success_rows (indices : list Z) (all : list Cell) : list Cell :=
  match indices with
  | [] => all
  | rowIndex :: rest =>
      let cells := List.filter (in_row rowIndex) all in
      show_success_rows rest
        (if row_cells_has_data cells
         then row_cells_put rowIndex all (row_cells_show_success cells)
         else all)
  end.

(** [table_save] runs in two stretches separated by the suspension at
    [await fetch].  The first stretch ends in one of three ways. *)
Inductive SaveStart :=
| SaveReturned (state : StateTable) (effects : list Effect) (result : bool)
| SaveThrew
| SaveSuspended (state : StateTable) (effects : list Effect).

(** [table_save] up to [await fetch]; [now] is what [Date.now()] returns. *)
Definition table_save_begin (now : number) (state : StateTable) : SaveStart :=
  if pending_save state then SaveReturned state [] false
  else
    let time_since_last := SFsub prec emax now (last_save_time state) in
    if lt time_since_last SAVE_COOLDOWN_MS then
      let remaining :=
        Math_ceil (SFdiv prec emax
                     (SFsub prec emax SAVE_COOLDOWN_MS time_since_last)
                     (of_Z 1000)) in
      SaveReturned state [Toast (MSG_WAIT remaining) "warning"] false
    else
      match table_validate_all state with
      | None => SaveThrew
      | Some (state, false) =>
          SaveReturned state [Toast MSG_FORM_ERRORS "error"] false
      | Some (state, true) =>
          let vertical :=
            jsstring_eqb (table_type state) (lit "VERTICAL_STATIC_UNIQUE") in
          let data :=
            if vertical then PObject (table_serialize_vertical state)
            else PArray (table_serialize state) in
          let empty :=
            match data with
            | PObject d => bool_decide (d = ∅)
            | PArray rows => bool_decide (rows = [])
            end in
          if empty then SaveReturned state [Toast MSG_NO_DATA "warning"] false
          else
            SaveSuspended (set_save state true (last_save_time state))
                          [FetchPost (endpoint state) data]
      end.

(** [table_save] from the moment [fetch] settles; [now] is the second
    reading of [Date.now()]. *)
Definition table_save_end (now : number) (response : SaveResponse)
  (state : StateTable) : StateTable * list Effect * bool :=
  match response with
  | SaveOk =>
      let state := set_save state (pending_save state) now in
      let all := show_success_rows (all_row_indices_get state)
                                   (cells (element state)) in
      let state := set_element state (set_cells (element state) all) in
      (set_save state false (last_save_time state),
       [Toast MSG_SAVED "success"], true)
  | SaveStatus status =>
      (set_save state false (last_save_time state),
       [Toast (MSG_SAVE_FAILED (MSG_SERVER_ERROR status)) "error"], false)
  | SaveNetworkError err =>
      (set_save state false (last_save_time state),
       [Toast (MSG_SAVE_FAILED err) "error"], false)
  end.

(** ** Dynamic rows *)

(** [classList.toggle(token, force)] *)
Definition toggle (cls : gset string) (token : string) (force : bool)
  : gset string :=
  if force then cls ∪ {[token]} else cls ∖ {[token]}.

Definition is_hidden (o : EnumOption) : bool :=
  bool_decide ("hidden"%string ∈ option_classList o).

Definition set_option_classList (o : EnumOption) (cls : gset string)
  : EnumOption :=
  {| data_value := data_value o; data_label := data_label o;
     data_rowCode := data_rowCode o; option_classList := cls |}.

Definition zebra_striping_apply (table : Element) : Element :=
  set_cells table
    (map (fun cell =>
            match row_index cell with
            | Some index =>
                set_cell_classList cell
                  (toggle (toggle (cell_classList cell) "bg-white"
                                  (Z.rem index 2 =? 0)%Z)
                          "bg-slate-100/70" (Z.rem index 2 =? 1)%Z)
            | None => cell
            end)
         (cells table)).

(** [n++] on a Number holding a non-negative integer: exact below 2^53,
    where the sum rounds back to 2^53. *)
Definition js_succ (n : Z) : Z := if (n <? 2 ^ 53)%Z then (n + 1)%Z else n.

(** [endpoint.replace(/\/$/, '')] *)
Definition strip_slash (s : jsstring) : jsstring :=
  if endsWith s [47] then take (length s - 1) s else s.

(** The first element of [l] that satisfies [p], changed by [f]. *)
Fixpoint update_first {A} (p : A -> bool) (f : A -> A) (l : list A) : list A :=
  match l with
  | [] => []
  | x :: rest => if p x then f x :: rest else x :: update_first p f rest
  end.

Definition same_string (o : option jsstring) (s : jsstring) : bool :=
  match o with Some v => jsstring_eqb v s | None => false end.

Definition selector_map (f : RowSelector -> RowSelector) (e : Element)
  : Element :=
  {| cells := cells e; row_selector := f <$> row_selector e |}.

Definition set_options (s : RowSelector) (os : list EnumOption) : RowSelector :=
  {| selector_input := selector_input s;
     selector_dropdown := selector_dropdown s; selector_options := os |}.

(** [dynamic_table_add_row] up to [await fetch]: the state with the counter
    advanced, the index taken, and the request sent. *)
Definition dynamic_table_add_row_begin (state : StateTable) (code : jsstring)
  : StateTable * Z * Effect :=
  let index := row_counter state in
  let state := set_row_counter state (js_succ (row_counter state)) in
  let url := strip_slash (endpoint state) ++ [47] ++ code ++ [47]
             ++ int_to_string index in
  (state, index, FetchGet url).

(** [dynamic_table_add_row] from the moment [fetch] settles. *)
Definition dynamic_table_add_row_end (state : StateTable) (code : jsstring)
  (response : RowResponse) : StateTable * list Effect * bool :=
  match response with
  | RowMarkup html =>
      let e := set_cells (element state) (cells (element state) ++ html) in
      let e :=
        if is_unique state then
          selector_map
            (fun s => set_options s
               (update_first
                  (fun o => same_string (data_value o) code)
                  (fun o => set_option_classList o
                              (option_classList o ∪ {["hidden"%string]}))
                  (selector_options s))) e
        else e in
      let e := zebra_striping_apply e in
      let e :=
        selector_map
          (fun s =>
             {| selector_input := (fun _ => []) <$> selector_input s;
                selector_dropdown :=
                  (fun cls => cls ∪ {["hidden"%string]}) <$> selector_dropdown s;
                selector_options := selector_options s |}) e in
      (set_element state e, [], true)
  | RowStatus status =>
      (state,
       [Toast (MSG_ADD_FAILED (lit "Error: " ++ int_to_string status)) "error"],
       false)
  | RowRejected err => (state, [Toast (MSG_ADD_FAILED err) "error"], false)
  end.

(** [dynamic_table_delete_row] *)
Definition dynamic_table_delete_row (state : StateTable) (cell : Cell)
  : StateTable :=
  match row_index cell, present (row_code cell) with
  | Some rowIndex, Some rowCode =>
      let e := set_cells (element state)
                 (List.filter (fun c => negb (in_row rowIndex c))
                              (cells (element state))) in
      let e :=
        if is_unique state then
          selector_map
            (fun s => set_options s
               (update_first
                  (fun o => same_string (data_rowCode o) rowCode)
                  (fun o => set_option_classList o
                              (option_classList o ∖ {["hidden"%string]}))
                  (selector_options s))) e
        else e in
      set_element state (zebra_striping_apply e)
  | _, _ => state
  end.

(** [`${el.dataset.value} - ${el.dataset.label}`] *)
Definition option_text (o : EnumOption) : jsstring :=
  default (lit "undefined") (data_value o) ++ lit " - "
  ++ default (lit "undefined") (data_label o).

Section Selector.

(** [String.prototype.toLowerCase], the Unicode case mapping of the host. *)
Variable toLowerCase : jsstring -> jsstring.

(** [dynamic_table_handle_selector_input]; [text] is [target.value]. *)
Definition dynamic_table_handle_selector_input (state : StateTable)
  (text : jsstring) : StateTable :=
  let query := toLowerCase text in
  let e :=
    selector_map
      (fun s =>
         {| selector_input := Some text;
            selector_dropdown :=
              (fun cls => cls ∖ {["hidden"%string]}) <$> selector_dropdown s;
            selector_options :=
              map (fun el =>
                     if is_unique state && is_hidden el then el
                     else
                       let text := toLowerCase (option_text el) in
                       set_option_classList el
                         (toggle (option_classList el) "hidden"
                                 (negb (includes text query))
                          ∖ {["bg-blue-100"%string]}))
                  (selector_options s) |})
      (element state) in
  set_selected_index (set_element state e) (Some (-1)%Z).

End Selector.

(** The dynamic branch of [table_handle_click] for a click that lands on
    the [i]-th option of the row selector.  An option that carries the class
    [hidden] is not displayed and receives no click. *)
Definition table_handle_click_option (state : StateTable) (i : nat)
  : option (StateTable * Z * Effect * jsstring) :=
  if is_dynamic state then
    s ← row_selector (element state);
    o ← selector_options s !! i;
    if is_hidden o then None
    else
      code ← present (data_rowCode o);
      Some (dynamic_table_add_row_begin state code, code)
  else None.

(** *** Interleavings

    A grid with its suspended [dynamic_table_add_row] calls.  Each call is
    remembered by the code it was started for; [allocated] lists the row
    indices handed out so far, oldest first. *)
Record World := {
  state : StateTable;
  inflight : list jsstring;
  allocated : list Z;
  effects : list Effect
}.

Inductive Event :=
| AddRow (code : jsstring)            (* dynamic_table_add_row is called *)
| ClickOption (i : nat)               (* click on a catalogue option *)
| Settle (n : nat) (r : RowResponse)  (* the n-th suspended fetch settles *)
| DeleteRow (k : nat).                (* delete button of the k-th cell *)

Definition step (w : World) (ev : Event) : World :=
  match ev with
  | AddRow code =>
      let '(st, index, fx) := dynamic_table_add_row_begin (state w) code in
      {| state := st; inflight := inflight w ++ [code];
         allocated := allocated w ++ [index]; effects := effects w ++ [fx] |}
  | ClickOption i =>
      match table_handle_click_option (state w) i with
      | Some (st, index, fx, code) =>
          {| state := st; inflight := inflight w ++ [code];
             allocated := allocated w ++ [index];
             effects := effects w ++ [fx] |}
      | None => w
      end
  | Settle n r =>
      match inflight w !! n with
      | Some code =>
          let '(st, fx, _) := dynamic_table_add_row_end (state w) code r in
          {| state := st; inflight := delete n (inflight w);
             allocated := allocated w; effects := effects w ++ fx |}
      | None => w
      end
  | DeleteRow k =>
      match cells (element (state w)) !! k with
      | Some cell =>
          {| state := dynamic_table_delete_row (state w) cell;
             inflight := inflight w; allocated := allocated w;
             effects := effects w |}
      | None => w
      end
  end.

Definition run (w : World) (evs : list Event) : World := foldl step w evs.

Definition start (st : StateTable) : World :=
  {| state := st; inflight := []; allocated := []; effects := [] |}.

(** ** Server side: the cell model *)

Local Open Scope string_scope.

Record TableEnum := { Enum_Value : string; Enum_Label : string }.

Record TableColumn := {
  Column_Enum : list TableEnum;
  Column_Title : string;
  Column_Name : string;
  Column_Label : string;
  Column_Tooltip : string;
  Column_DataTypeLabel : string;
  Column_DataType : string;
  Column_Format : string;
  Column_Required : Z;
  Column_Visiable : Z;
  Column_Width : Z;
  Column_Formula : string;
  Column_Regex : string;
  Column_Min : option Z;
  Column_Max : option Z;
  Column_Lp : Z;
  Column_IsPK : bool
}.

(** [Column] points into the slice of columns; it is kept as the position
    it points at, [None] for a nil pointer. *)
Record TableCell := {
  Value : string;
  Name : string;
  Column : option nat;
  Required : Z;
  Editable : Z;
  Blocked : bool
}.

Record TableRow := {
  Cells : list TableCell;
  Title : string;
  Code : string;
  Index : Z
}.

Definition set_Value (cell : TableCell) (v : string) : TableCell :=
  {| Value := v; Name := Name cell; Column := Column cell;
     Required := Required cell; Editable := Editable cell;
     Blocked := Blocked cell |}.

Definition set_Editable (cell : TableCell) (e : Z) : TableCell :=
  {| Value := Value cell; Name := Name cell; Column := Column cell;
     Required := Required cell; Editable := e; Blocked := Blocked cell |}.

Definition set_Blocked (cell : TableCell) (b : bool) : TableCell :=
  {| Value := Value cell; Name := Name cell; Column := Column cell;
     Required := Required cell; Editable := Editable cell; Blocked := b |}.

Definition set_Cells (row : TableRow) (cs : list TableCell) : TableRow :=
  {| Cells := cs; Title := Title row; Code := Code row; Index := Index row |}.

Record BBlokady := { Block_Column : string; Block_Code : string }.
Record BKodyPodtabele := { Kod_Code : string; Kod_Title : string }.

Definition HORIZONTAL_DYNAMIC_DUPLICABLE := "HORIZONTAL_DYNAMIC_DUPLICABLE".
Definition HORIZONTAL_DYNAMIC_UNIQUE := "HORIZONTAL_DYNAMIC_UNIQUE".
Definition HORIZONTAL_STATIC_UNIQUE := "HORIZONTAL_STATIC_UNIQUE".
Definition VERTICAL_STATIC_UNIQUE := "VERTICAL_STATIC_UNIQUE".

(** *** Go strings *)

Fixpoint HasPrefix (s prefix : string) : bool :=
  match prefix, s with
  | EmptyString, _ => true
  | String a p, String b s' => Ascii.eqb a b && HasPrefix s' p
  | String _ _, EmptyString => false
  end.

(** [s[n:]] *)
Fixpoint slice_from (n : nat) (s : string) : string :=
  match n, s with
  | O, _ => s
  | S n', String _ s' => slice_from n' s'
  | S _, EmptyString => EmptyString
  end.

(** [strings.HasSuffix]:
    [len(s) >= len(suffix) && s[len(s)-len(suffix):] == suffix] *)
Definition HasSuffix (s suffix : string) : bool :=
  (String.length suffix <=? String.length s)%nat
  && String.eqb
       (slice_from (String.length s - String.length suffix) s) suffix.

(** [strings.Contains] *)
Fixpoint Contains (s substr : string) : bool :=
  HasPrefix s substr ||
  match s with
  | String _ s' => Contains s' substr
  | EmptyString => false
  end.

(** *** Decoded JSON *)

(** A JSON text after parsing; objects keep their members in the order of
    the text. *)
#[warnings="-register-all"]
Inductive json :=
| JNull
| JBool (b : bool)
| JNumber (f : number)
| JString (s : string)
| JArray (items : list json)
| JObject (members : list (string * json)).

Inductive error :=
| SyntaxError
| UnmarshalTypeError.

(** A JSON object stored into a [map[string]any]: a repeated key keeps its
    last value. *)
Definition decode_object (members : list (string * json)) : gmap string json :=
  foldl (fun m kv => <[kv.1 := kv.2]> m) ∅ members.

Definition decode_item (j : json) : option (gmap string json) :=
  match j with
  | JObject members => Some (decode_object members)
  | JNull => Some ∅
  | _ => None
  end.

(** Decoding into [[]map[string]any] and into [map[string]any]. *)
Definition decode_array (j : json) : error + list (gmap string json) :=
  match j with
  | JArray items =>
      match mapM decode_item items with
      | Some l => inr l
      | None => inl UnmarshalTypeError
      end
  | JNull => inr []
  | _ => inl UnmarshalTypeError
  end.

Definition decode_map (j : json) : error + gmap string json :=
  match decode_item j with
  | Some m => inr m
  | None => inl UnmarshalTypeError
  end.

Definition to_string (s : jsstring) : string :=
  string_of_list_ascii (map ascii_of_N s).

(** [strconv.FormatInt(i, 10)] *)
Definition FormatInt (i : Z) : string := to_string (int_to_string i).

(** [strconv.FormatFloat(f, 'f', -1, 64)]: the shortest digits that read
    back as [f], laid out without an exponent. *)
Definition FormatFloat_f (f : number) : string :=
  match f with
  | S754_nan => "NaN"
  | S754_infinity s => if s then "-Inf" else "+Inf"
  | S754_zero s => if s then "-0" else "0"
  | S754_finite s m e =>
      let ax := S754_finite false m e in
      let n := decimal_order m e in
      let '(d, k, n) :=
        if SFeqb (of_decimal false 1 n) ax then (1, 1, n + 1)%Z
        else let '(d, k) := shortest 17 ax m e n 1 in (d, k, n) in
      let ds := digits_of_Z d in
      to_string
        ((if s then [c_minus] else [])
         ++ (if (k <=? n)%Z then ds ++ zeros (n - k)
             else if (0 <? n)%Z then
               take (Z.to_nat n) ds ++ [c_dot] ++ drop (Z.to_nat n) ds
             else [48%N; c_dot] ++ zeros (- n) ++ ds))
  end.

Section Server.

(** The syntax check and parser of [encoding/json]. *)
Variable json_parse : string -> option json.

(** The order in which [range] visits the map that was decoded from the
    [i]-th array element; Go leaves it unspecified. *)
Variable range_order : nat -> gmap string json -> list (string * json).

(** [int64(f)] when [f] is outside the range of [int64]: Go leaves the
    result to the implementation. *)
Variable int64_overflow : number -> Z.

(** [fmt.Sprintf("%v", v)] for arrays and objects. *)
Variable Sprint : json -> string.

(** [int64(f)]: truncation toward zero. *)
Definition int64 (f : number) : Z :=
  match f with
  | S754_zero _ => 0%Z
  | S754_finite s m e =>
      let t := (numerator m e / denominator e)%Z in
      let t := if s then (- t)%Z else t in
      if ((- 2 ^ 63 <=? t) && (t <? 2 ^ 63))%Z then t else int64_overflow f
  | _ => int64_overflow f
  end.

Definition formatValue (v : json) : string :=
  match v with
  | JString val => val
  | JNumber val =>
      if SFeqb val (of_Z (int64 val)) then FormatInt (int64 val)
      else FormatFloat_f val
  | JNull => ""
  | JBool b => if b then "true" else "false"
  | _ => Sprint v
  end.

Definition json_Unmarshal_array (jsonData : string)
  : error + list (gmap string json) :=
  match json_parse jsonData with
  | Some j => decode_array j
  | None => inl SyntaxError
  end.

Definition json_Unmarshal_map (jsonData : string)
  : error + gmap string json :=
  match json_parse jsonData with
  | Some j => decode_map j
  | None => inl SyntaxError
  end.

(** The first loop of [PopulateCellsFromArray]: code -> row data. *)
Fixpoint build_lookup (i : nat) (dataArray : list (gmap string json))
  (lookup : gmap string (gmap string json)) : gmap string (gmap string json) :=
  match dataArray with
  | [] => lookup
  | item :: rest =>
      build_lookup (S i) rest
        match List.find (fun kv => HasSuffix kv.1 "_Kod") (range_order i item) with
        | Some (_, JString code) => <[code := item]> lookup
        | _ => lookup
        end
  end.

Definition populate_cell (data : gmap string json) (cell : TableCell)
  : TableCell :=
  match data !! Name cell with
  | Some val => set_Value cell (formatValue val)
  | None => cell
  end.

Definition populate_rows (lookup : gmap string (gmap string json))
  (rows : list TableRow) : list TableRow :=
  map (fun row =>
         match lookup !! Code row with
         | Some data => set_Cells row (map (populate_cell data) (Cells row))
         | None => row
         end) rows.

(** [PopulateCellsFromArray]: the rows as it leaves them and its error. *)
Definition PopulateCellsFromArray (rows : list TableRow) (jsonData : string)
  : list TableRow * option error :=
  if String.eqb jsonData "" then (rows, None)
  else
    match json_Unmarshal_array jsonData with
    | inl err => (rows, Some err)
    | inr dataArray =>
        (populate_rows (build_lookup 0 dataArray ∅) rows, None)
    end.

(** [PopulateCellsFromObject] *)
Definition PopulateCellsFromObject (rows : list TableRow) (jsonData : string)
  : list TableRow * option error :=
  if String.eqb jsonData "" then (rows, None)
  else
    match json_Unmarshal_map jsonData with
    | inl err => (rows, Some err)
    | inr data =>
        (map (fun row => set_Cells row (map (populate_cell data) (Cells row)))
             rows, None)
    end.

End Server.

(** ** Server side: handlers

    The handlers run queries and then build rows.  A handler is modelled as
    a function of what its queries return. *)

Inductive result (A : Type) :=
| Ok (a : A)
| Failed (err : string).
Arguments Ok {A} a.
Arguments Failed {A} err.

Inductive LogEntry :=
| LogError (msg : string)
| LogWarn (msg : string) (err : string).

Definition is_warning (l : LogEntry) : bool :=
  match l with LogWarn _ _ => true | LogError _ => false end.

Definition error_text (e : error) : string :=
  match e with
  | SyntaxError => "invalid JSON"
  | UnmarshalTypeError => "json: cannot unmarshal"
  end.

(** A new cell of a horizontal row, before blocks and codes are applied. *)
Definition new_cell (i : nat) (column : TableColumn) : TableCell :=
  {| Value := ""; Name := Column_Name column; Column := Some i;
     Required := Column_Required column; Editable := 1; Blocked := false |}.

(** The body of the column loop of [AnkietSubtableGet] for the static
    horizontal layout. *)
Definition static_cell (blocks : list BBlokady) (code : string) (i : nat)
  (column : TableColumn) : TableCell :=
  let cell := new_cell i column in
  let cell :=
    if existsb (fun block =>
                  String.eqb (Block_Column block) (Column_Name column)
                  && String.eqb (Block_Code block) code) blocks
    then set_Blocked cell true else cell in
  if Contains (Name cell) "_Kod"
  then set_Value (set_Editable cell 0) code
  else cell.

Definition static_rows (columns : list TableColumn) (blocks : list BBlokady)
  (kody : list BKodyPodtabele) : list TableRow :=
  map (fun row =>
         {| Cells := imap (static_cell blocks (Kod_Code row)) columns;
            Title := Kod_Title row; Code := Kod_Code row; Index := 0 |})
      kody.

(** The rows of the dynamic layouts: the code catalogue, without cells. *)
Definition catalogue_rows (kody : list BKodyPodtabele) : list TableRow :=
  map (fun row => {| Cells := []; Title := Kod_Title row;
                     Code := Kod_Code row; Index := 0 |}) kody.

Definition vertical_rows (columns : list TableColumn) : list TableRow :=
  imap (fun i column =>
          {| Cells := [ {| Value := ""; Name := Column_Name column;
                           Column := Some i; Required := 0; Editable := 1;
                           Blocked := false |} ];
             Title := Column_Label column ++ " " ++ Column_Title column;
             Code := ""; Index := 0 |})
       columns.

(** The body of the column loop of [AnkietRowGet]; [wyszczegolnienie] is
    what the title query scans for the row's code. *)
Definition dynamic_cell (blocks : list BBlokady) (code wyszczegolnienie : string)
  (i : nat) (column : TableColumn) : TableCell :=
  let cell := new_cell i column in
  let cell :=
    if existsb (fun block =>
                  String.eqb (Block_Column block) (Column_Name column)) blocks
    then set_Blocked cell true else cell in
  let cell :=
    if Contains (Name cell) "_Kod"
    then set_Value (set_Editable cell 0) code
    else cell in
  if Contains (Name cell) "_Wyszczegolnienie"
  then set_Value cell wyszczegolnienie
  else cell.

Inductive Response :=
| ServerError                            (* app.ServerError *)
| Forbidden                              (* app.Forbidden *)
| Grid (type : string) (columns : list TableColumn) (rows : list TableRow)
       (data : string)                   (* app.Render is called on TMPL_GRID *)
| Fragment (row : TableRow)              (* TMPL_DYNAMIC_ROW.Execute *)
| Nothing.                               (* the handler returns without writing *)

Record SubtableQueries := {
  q_base : result unit;                  (* TmplBaseDataUserDate *)
  q_year : result unit;                  (* PathValueYearParse *)
  q_tabs : result unit;                  (* TabRowsTableBuild *)
  q_subtabs : result unit;               (* TabRowsSubtableBuild *)
  q_podtabela : result string;           (* the subtable's TableSchema *)
  q_kolumny : result (list TableColumn); (* KolumnySelectBySubtable and
                                            ColumnsBuildFromKolumny *)
  q_kody : result (list BKodyPodtabele); (* the code query and its scan *)
  q_dane : result string;                (* DaneSelectByIdGRAndSubtable *)
  q_blokady : result (list BBlokady)     (* BlokadySelectBySubtable *)
}.

Record RowQueries := {
  r_index : result Z;                    (* strconv.Atoi of the path value *)
  r_year : result unit;                  (* PathValueYearParse *)
  r_kolumny : result (list TableColumn); (* KolumnySelectBySubtable and
                                            ColumnsBuildFromKolumny *)
  r_blokady : result (list BBlokady);    (* BlokadySelectBySubtableAndCode *)
  r_wyszczegolnienie : string            (* b_kody_tytul_where_kod, scanned *)
}.

(** [app.Forbidden] after the error is logged, and [app.ServerError]. *)
Definition forbidden (err : string) : Response * list LogEntry :=
  (Forbidden, [LogError err; LogWarn "forbidden access" ""]).
Definition server_error (err : string) (log : list LogEntry)
  : Response * list LogEntry :=
  (ServerError, (log ++ [LogError "internal error"])%list).

Section Handlers.

Variable json_parse : string -> option json.
Variable range_order : nat -> gmap string json -> list (string * json).
Variable int64_overflow : number -> Z.
Variable Sprint : json -> string.

(** [AnkietSubtableGet]: the response and the log lines, oldest first. *)
Definition AnkietSubtableGet (q : SubtableQueries)
  : Response * list LogEntry :=
  match q_base q with
  | Failed err => server_error err []
  | Ok _ =>
  match q_year q with
  | Failed err => forbidden err
  | Ok _ =>
  match q_tabs q with
  | Failed err => forbidden err
  | Ok _ =>
  match q_subtabs q with
  | Failed err => forbidden err
  | Ok _ =>
  match q_podtabela q with
  | Failed err => forbidden err
  | Ok type =>
  match q_kolumny q with
  | Failed err => forbidden err
  | Ok columns =>
  match q_kody q with
  | Failed err => forbidden err
  | Ok kodyPodtabele =>
      let '(jsonData, log) :=
        match q_dane q with
        | Ok jsonData => (jsonData, [])
        | Failed err => ("", [LogWarn "no existing data" err])
        end in
      if String.eqb type HORIZONTAL_DYNAMIC_DUPLICABLE
         || String.eqb type HORIZONTAL_DYNAMIC_UNIQUE then
        (Grid type columns (catalogue_rows kodyPodtabele) jsonData, log)
      else if String.eqb type HORIZONTAL_STATIC_UNIQUE then
        match q_blokady q with
        | Failed err => server_error err log
        | Ok blocks =>
            let '(rows, err) :=
              PopulateCellsFromArray json_parse range_order int64_overflow
                Sprint (static_rows columns blocks kodyPodtabele) jsonData in
            (Grid type columns rows "",
             (log ++ match err with
                     | Some e =>
                         [LogWarn "failed to populate horizontal static data"
                                  (error_text e)]
                     | None => []
                     end)%list)
        end
      else if String.eqb type VERTICAL_STATIC_UNIQUE then
        let '(rows, err) :=
          PopulateCellsFromObject json_parse int64_overflow Sprint
            (vertical_rows columns) jsonData in
        (Grid type columns rows "",
         (log ++ match err with
                 | Some e =>
                     [LogWarn "failed to populate vertical static data"
                              (error_text e)]
                 | None => []
                 end)%list)
      else (Nothing, (log ++ [LogError "not implemented table schema type"])%list)
  end end end end end end end.

(** [AnkietRowGet] for the path value [code]. *)
Definition AnkietRowGet (code : string) (q : RowQueries)
  : Response * list LogEntry :=
  match r_index q with
  | Failed err => forbidden err
  | Ok index =>
  match r_year q with
  | Failed err => forbidden err
  | Ok _ =>
  match r_kolumny q with
  | Failed err => forbidden err
  | Ok tableColumns =>
  match r_blokady q with
  | Failed err => server_error err []
  | Ok blocks =>
      (Fragment
         {| Cells := imap (dynamic_cell blocks code (r_wyszczegolnienie q))
                          tableColumns;
            Title := ""; Code := code; Index := index |}, [])
  end end end end.

End Handlers.

(** ** Sample data *)

Definition sample_column (name : string) (required : Z) : TableColumn :=
  {| Column_Enum := []; Column_Title := ""; Column_Name := name;
     Column_Label := ""; Column_Tooltip := ""; Column_DataTypeLabel := "";
     Column_DataType := ""; Column_Format := ""; Column_Required := required;
     Column_Visiable := 1; Column_Width := 0; Column_Formula := "";
     Column_Regex := ""; Column_Min := None; Column_Max := None;
     Column_Lp := 0; Column_IsPK := false |}.

(** What the row construction does to one cell, read off the column name. *)
Definition kod_cell_Editable (name : string) : Z :=
  if Contains name "_Kod" then 0 else 1.
Definition static_cell_Value (name code : string) : string :=
  if Contains name "_Kod" then code else "".
Definition dynamic_cell_Value (name code wyszczegolnienie : string) : string :=
  if Contains name "_Wyszczegolnienie" then wyszczegolnienie
  else if Contains name "_Kod" then code else "".

(** Queries that all succeed. *)
Definition ok_queries (type : string) (columns : list TableColumn)
  (kody : list BKodyPodtabele) (blocks : list BBlokady) (jsonData : string)
  : SubtableQueries :=
  {| q_base := Ok tt; q_year := Ok tt; q_tabs := Ok tt; q_subtabs := Ok tt;
     q_podtabela := Ok type; q_kolumny := Ok columns; q_kody := Ok kody;
     q_dane := Ok jsonData; q_blokady := Ok blocks |}.

(** Stand-ins for the parts of the Go runtime that the handlers take as
    given, used where a statement is evaluated on sample data. *)
Definition no_parse : string -> option json := fun _ => None.
Definition map_order : nat -> gmap string json -> list (string * json) :=
  fun _ m => map_to_list m.
Definition amd64_overflow : number -> Z := fun _ => (- 2 ^ 63)%Z.
Definition no_Sprint : json -> string := fun _ => "".

Definition sample_columns : list TableColumn :=
  [sample_column "Wartosc_Kod" 0; sample_column "Wartosc_Liczba" 1].
Definition sample_kody : list BKodyPodtabele :=
  [ {| Kod_Code := "01"; Kod_Title := "Pszenica" |} ].








(** Scenario A of the specification, after parsing. *)
Definition scenario_A_parse : string -> option json :=
  fun _ => Some (JArray [JObject [("Wartosc_Kod", JString "01");
                                  ("Wartosc_Liczba",
                                   JNumber (parseFloat (lit "12.5")))]]).

(** ** Client-side sample data *)

Definition sample_input (name value : string) (ro : bool)
  (required : option string) : Input :=
  {| input_name := lit name; input_value := lit value; readonly := ro;
     data_required := lit <$> required; data_format := None;
     data_min := None; data_max := None; data_errorMessage := None;
     data_errorType := None; classList := ∅ |}.

Definition sample_cell (index : Z) (code : string) (fs : list Field) : Cell :=
  {| row_index := Some index; row_code := Some (lit code); fields := fs;
     popups := 0; cell_classList := ∅ |}.

Definition sample_state (cs : list Cell) (last : Z) : StateTable :=
  {| element := {| cells := cs; row_selector := None |};
     table_type := lit "HORIZONTAL_STATIC_UNIQUE";
     endpoint := lit "/app/2025/bdgr/1/uprawy/A1";
     enum_selected_index := None; pending_save := false;
     last_save_time := of_Z last; is_dynamic := false; is_unique := false;
     row_counter := 0 |}.

(** One row: the read-only code cell and a numeric cell holding "5". *)
Definition one_row : list Cell :=
  [sample_cell 0 "01" [StringInput (sample_input "Wartosc_Kod" "01" true None)];
   sample_cell 0 "01"
     [NumberInput (sample_input "Wartosc_Liczba" "5" false (Some "true"))]].

(** ** Validation policy, stated declaratively *)







(** An input that carries no error marker. *)
Definition error_free (i : Input) : Prop :=
  data_errorMessage i = None /\ data_errorType i = None
  /\ classList i ## error_classes.





(** ** Serialization, stated declaratively *)




(** ** Dynamic rows: sample data *)

Definition sample_option (code label : string) : EnumOption :=
  {| data_value := Some (lit code); data_label := Some (lit label);
     data_rowCode := Some (lit code); option_classList := ∅ |}.

(** A grid in the unique dynamic layout with one code in its catalogue. *)
Definition unique_state : StateTable :=
  {| element :=
       {| cells := [];
          row_selector :=
            Some {| selector_input := Some [];
                    selector_dropdown := Some ∅;
                    selector_options := [sample_option "01" "Pszenica"] |} |};
     table_type := lit "HORIZONTAL_DYNAMIC_UNIQUE";
     endpoint := lit "/app/2025/bdgr/1/uprawy/A2/";
     enum_selected_index := None; pending_save := false;
     last_save_time := of_Z 0; is_dynamic := true; is_unique := true;
     row_counter := 0 |}.

(** The fragment the server renders for code "01" and a row index. *)
Definition sample_fragment (index : Z) : list Cell :=
  [sample_cell index "01"
     [StringInput (sample_input "Uprawa_Kod" "01" true None)];
   sample_cell index "01"
     [NumberInput (sample_input "Uprawa_Powierzchnia" "" false (Some "true"))]].

(** The row indices present in the grid for a code. *)
Definition rows_with_code (code : jsstring) (st : StateTable) : list Z :=
  remove_dups
    (omap (fun c => if same_string (row_code c) code then row_index c else None)
          (cells (element st))).

(** The invariant of the interleavings: the indices handed out grow
    strictly and lie between the initial and the current counter. *)
Definition indices_ok (lo : Z) (w : World) : Prop :=
  StronglySorted Z.lt (allocated w)
  /\ Forall (fun i => (lo <= i < row_counter (state w))%Z) (allocated w)
  /\ (lo <= row_counter (state w))%Z.

(** A numeric field with two decimals that admits values from -1 to 1 and
    shows a small negative value. *)
Definition small_negative_input : Input :=
  {| input_name := lit "Saldo"; input_value := lit "-0,001";
     readonly := false; data_required := Some (lit "true");
     data_format := Some (lit "0,00"); data_min := Some (lit "-1");
     data_max := Some (lit "1"); data_errorMessage := None;
     data_errorType := None; classList := ∅ |}.

(** Rendering, reading back and rendering again. *)
Definition render_again (rendered : jsstring) (fmt : Number_Format)
  : option jsstring :=
  v ← number_value_parse rendered; number_format_value v fmt.



(** ** Typing into a field *)

Section InputHandlers.
Local Open Scope N_scope.
Local Open Scope list_scope.

(** [(value.match(/,/g) || []).length] *)
Definition count_char (c : jschar) (s : jsstring) : nat :=
  length (List.filter (fun x => x =? c) s).

(** [value.indexOf(c)] for a character that occurs in [value]. *)
Fixpoint indexOf (c : jschar) (s : jsstring) : nat :=
  match s with
  | [] => O
  | x :: rest => if x =? c then O else S (indexOf c rest)
  end.

(** The text [table_handle_input_number] writes back into the field. *)
Definition number_input_text (fmt : Number_Format) (value : jsstring)
  : jsstring :=
  let value := replace_first c_dot c_comma value in
  let value :=
    if (0 <? decimals fmt)%Z
    then remove_all (fun c => negb (is_digit c || (c =? c_comma)
                                    || (c =? c_minus))) value
    else remove_all (fun c => negb (is_digit c || (c =? c_minus))) value in
  let value :=
    if includes value [c_minus] then
      let first_char :=
        match value with
        | c :: _ => if c =? c_minus then [c_minus] else []
        | [] => []
        end in
      first_char ++ remove_all (fun c => c =? c_minus) value
    else value in
  let comma_count := count_char c_comma value in
  let value :=
    if (1 <? comma_count)%nat then
      let first_comma := indexOf c_comma value in
      take (first_comma + 1) value
       ++ remove_all (fun c => c =? c_comma) (drop (first_comma + 1) value)
    else value in
  if (0 <? decimals fmt)%Z && includes value [c_comma] then
    let parts := split c_comma value in
    let int_part := default [] (parts !! 0%nat) in
    let dec_part := default [] (parts !! 1%nat) in
    int_part ++ [c_comma] ++ take (Z.to_nat (decimals fmt)) dec_part
  else value.

(** [input_show_error_popup]: the popups of the enclosing cell. *)
Definition input_show_error_popup (input : Input) (popups : nat) : nat :=
  match present (data_errorMessage input) with
  | Some _ => S (cell_clear_popup popups)
  | None => popups
  end.

(** What the input handlers do once the error is known: the input and the
    popups of its cell. *)
Definition report (target : Input) (error : option jsstring) (popups : nat)
  : Input * nat :=
  match present error with
  | Some e =>
      let target :=
        input_show_error target e (severity (is_true (data_required target))) in
      (target, input_show_error_popup target (cell_clear_popup popups))
  | None => (input_clear_error target, cell_clear_popup popups)
  end.

(** [table_handle_input_number]; [None] when formatting a bound throws. *)
Definition table_handle_input_number (target : Input) (popups : nat)
  : option (Input * nat) :=
  let format_str := default (lit "###0") (data_format target) in
  let fmt := number_format_parse format_str in
  let target := set_value target (number_input_text fmt (input_value target)) in
  error ← validate_number_value target;
  Some (report target error popups).

(** [table_handle_input_string] *)
Definition table_handle_input_string (target : Input) (popups : nat)
  : Input * nat :=
  let format := default [c_dollar] (data_format target) in
  if jsstring_eqb format [c_dollar] then (target, popups)
  else
    let target :=
      if includes format [c_hash]
      then set_value target (string_format_pattern (input_value target))
      else target in
    report target (input_format_error_get target) popups.

(** Text as the numeric input handler leaves it: an optional leading minus,
    digits, and, for a mask with decimals, at most one comma followed by at
    most that many digits. *)
Definition numeric_text (decimals : Z) (s : jsstring) : Prop :=
  exists sign ip tail,
    s = sign ++ ip ++ tail
    /\ (sign = [] \/ sign = [c_minus])
    /\ Forall (fun c => is_digit c = true) ip
    /\ (tail = []
        \/ exists fp, tail = c_comma :: fp
             /\ (0 < decimals)%Z
             /\ Forall (fun c => is_digit c = true) fp
             /\ (Z.of_nat (length fp) <= decimals)%Z).

(** A text field with a digit mask in which "12a3" has been typed. *)
Definition masked_input : Input :=
  {| input_name := lit "PKD"; input_value := lit "12a3"; readonly := false;
     data_required := None; data_format := Some (lit "##-##-##-##");
     data_min := None; data_max := None; data_errorMessage := None;
     data_errorType := None; classList := ∅ |}.

End InputHandlers.

(** ** Multi-select fields with an exclusive option *)

Section MultiExclusiveInput.
Local Open Scope N_scope.
Local Open Scope list_scope.

Record Checkbox := {
  checkbox_value : jsstring;              (* cb.value *)
  checked : bool                          (* cb.checked *)
}.

(** A [data-multi-exclusive-container] as the three functions below read
    it: its [data-exclusive-option] check box, its [data-regular-option]
    check boxes in document order, and the value of its
    [data-multi-exclusive-value] input ([None] when it has none). *)
Record MultiExclusive := {
  exclusive : option Checkbox;
  regular : list Checkbox;
  multi_value : option jsstring
}.

Definition set_checked (cb : Checkbox) (b : bool) : Checkbox :=
  {| checkbox_value := checkbox_value cb; checked := b |}.

(** [selected.join(sep)] *)
Fixpoint join (sep : jschar) (l : list jsstring) : jsstring :=
  match l with
  | [] => []
  | [x] => x
  | x :: rest => x ++ sep :: join sep rest
  end.

(** [selectedValues.includes(v)] *)
Definition includes_value (l : list jsstring) (v : jsstring) : bool :=
  existsb (jsstring_eqb v) l.

(** [multi_exclusive_load_value] *)
Definition multi_exclusive_load_value (container : MultiExclusive)
  : MultiExclusive :=
  match present (multi_value container) with
  | None => container
  | Some value =>
      let selectedValues :=
        List.filter truthy (map trim (split c_comma value)) in
      let load_regular :=
        map (fun cb =>
               set_checked cb (includes_value selectedValues (checkbox_value cb)))
            (regular container) in
      match exclusive container with
      | Some ex =>
          if includes_value selectedValues (checkbox_value ex) then
            {| exclusive := Some (set_checked ex true);
               regular := map (fun cb => set_checked cb false)
                              (regular container);
               multi_value := multi_value container |}
          else
            {| exclusive := Some (set_checked ex false);
               regular := load_regular;
               multi_value := multi_value container |}
      | None =>
          {| exclusive := None; regular := load_regular;
             multi_value := multi_value container |}
      end
  end.

(** The values [multi_exclusive_update_value] collects. *)
Definition selected (container : MultiExclusive) : list jsstring :=
  let from_regular :=
    map checkbox_value (List.filter checked (regular container)) in
  match exclusive container with
  | Some ex => if checked ex then [checkbox_value ex] else from_regular
  | None => from_regular
  end.

(** [multi_exclusive_update_value] *)
Definition multi_exclusive_update_value (container : MultiExclusive)
  : MultiExclusive :=
  match multi_value container with
  | None => container
  | Some _ =>
      {| exclusive := exclusive container; regular := regular container;
         multi_value := Some (join c_comma (selected container)) |}
  end.

(** The check box a [change] event comes from. *)
Inductive ChangeTarget :=
| ExclusiveOption
| RegularOption (k : nat).

Definition target_checked (container : MultiExclusive) (target : ChangeTarget)
  : option bool :=
  match target with
  | ExclusiveOption => checked <$> exclusive container
  | RegularOption k => checked <$> regular container !! k
  end.

(** [multi_exclusive_handle_change], the container as it leaves it; the
    handler goes on to validate the row and to save, as [row_cells_validate]
    and [table_save_begin] describe.  [None]: the target is not a check box
    of the container. *)
Definition multi_exclusive_handle_change (container : MultiExclusive)
  (target : ChangeTarget) : option MultiExclusive :=
  match target_checked container target with
  | None => None
  | Some is_checked =>
  let container :=
    match target with
    | ExclusiveOption =>
        if is_checked then
          {| exclusive := exclusive container;
             regular := map (fun cb => set_checked cb false)
                            (regular container);
             multi_value := multi_value container |}
        else container
    | RegularOption _ =>
        if is_checked then
          {| exclusive := (fun ex => set_checked ex false) <$> exclusive container;
             regular := regular container;
             multi_value := multi_value container |}
        else container
    end in
  Some (multi_exclusive_update_value container)
  end.

(** What the browser does to the box that is clicked, before it dispatches
    the [change] event. *)
Definition checkbox_toggle (container : MultiExclusive) (target : ChangeTarget)
  : MultiExclusive :=
  let flip cb := set_checked cb (negb (checked cb)) in
  match target with
  | ExclusiveOption =>
      {| exclusive := flip <$> exclusive container;
         regular := regular container;
         multi_value := multi_value container |}
  | RegularOption k =>
      {| exclusive := exclusive container;
         regular := alter flip k (regular container);
         multi_value := multi_value container |}
  end.

Definition checkbox_click (container : MultiExclusive) (target : ChangeTarget)
  : option MultiExclusive :=
  multi_exclusive_handle_change (checkbox_toggle container target) target.

(** The exclusive option and a regular option are never checked together. *)
Definition exclusion (container : MultiExclusive) : Prop :=
  match exclusive container with
  | Some ex =>
      checked ex = true ->
      Forall (fun cb => checked cb = false) (regular container)
  | None => True
  end.

(** The values of the boxes that are checked, the exclusive one first. *)
Definition checked_values (container : MultiExclusive) : list jsstring :=
  map checkbox_value
      (List.filter checked (option_list (exclusive container)
                            ++ regular container)).

(** A value that survives [split(',')], [trim] and [filter(Boolean)]. *)
Definition plain_value (v : jsstring) : Prop :=
  v <> [] /\ (c_comma ∉ v) /\ trim v = v.

(** Scenario C: two regular options are checked, then "none" is clicked. *)
Definition scenario_C : MultiExclusive :=
  {| exclusive := Some {| checkbox_value := lit "none"; checked := false |};
     regular := [ {| checkbox_value := lit "A"; checked := true |};
                  {| checkbox_value := lit "B"; checked := true |} ];
     multi_value := Some (lit "A,B") |}.

End MultiExclusiveInput.

(** ** Keyboard navigation of the row selector *)

Section SelectorKeyboard.
Local Open Scope Z_scope.
Local Open Scope list_scope.

(** [e.key], as far as the handler tells keys apart. *)
Inductive Key := Escape | ArrowDown | ArrowUp | Enter | OtherKey.

Definition set_dropdown (s : RowSelector) (f : gset string -> gset string)
  : RowSelector :=
  {| selector_input := selector_input s;
     selector_dropdown := f <$> selector_dropdown s;
     selector_options := selector_options s |}.

(** [container.querySelectorAll('[data-enum-option]:not(.hidden)')] *)
Definition visible_options (s : RowSelector) : list EnumOption :=
  List.filter (fun o => negb (is_hidden o)) (selector_options s).

(** [options.forEach((opt, i) => opt.classList.toggle('bg-blue-100',
    i === index))] over the options that are not hidden; [i] is the position
    of the next such option. *)
Fixpoint highlight (index i : Z) (os : list EnumOption) : list EnumOption :=
  match os with
  | [] => []
  | o :: rest =>
      if is_hidden o then o :: highlight index i rest
      else
        set_option_classList o
          (toggle (option_classList o) "bg-blue-100" (i =? index))
        :: highlight index (i + 1) rest
  end.

(** [dynamic_table_handle_selector_keydown]: the state as the handler leaves
    it and, when it calls [dynamic_table_add_row], the index taken, the
    request sent and the code. *)
Definition dynamic_table_handle_selector_keydown (state : StateTable)
  (key : Key) : StateTable * option (Z * Effect * jsstring) :=
  match row_selector (element state) with
  | None => (state, None)
  | Some s =>
      let is_visible :=
        match selector_dropdown s with
        | Some cls => negb (bool_decide ("hidden"%string ∈ cls))
        | None => false
        end in
      let with_dropdown f :=
        set_element state (selector_map (fun s => set_dropdown s f)
                                        (element state)) in
      match key with
      | Escape => (with_dropdown (fun cls => cls ∪ {["hidden"%string]}), None)
      | _ =>
          if match key with ArrowDown => negb is_visible | _ => false end
          then (with_dropdown (fun cls => cls ∖ {["hidden"%string]}), None)
          else if negb is_visible then (state, None)
          else
            let options := visible_options s in
            let index := default (-1) (enum_selected_index state) in
            match key with
            | Enter =>
                let selected :=
                  if 0 <=? index then options !! Z.to_nat index else None in
                match selected ≫= (fun o => present (data_rowCode o)) with
                | Some code =>
                    let '(st, i, fx) := dynamic_table_add_row_begin state code in
                    (st, Some (i, fx, code))
                | None => (state, None)
                end
            | _ =>
                let index :=
                  match key with
                  | ArrowDown =>
                      Z.min (index + 1) (Z.of_nat (length options) - 1)
                  | ArrowUp => Z.max (index - 1) 0
                  | _ => index
                  end in
                (set_selected_index
                   (set_element state
                      (selector_map
                         (fun s => set_options s
                                     (highlight index 0 (selector_options s)))
                         (element state)))
                   (Some index), None)
            end
      end
  end.

(** The visible options of the row selector, if the grid has one. *)
Definition selector_visible (state : StateTable) : list EnumOption :=
  match row_selector (element state) with
  | Some s => visible_options s
  | None => []
  end.

Definition dropdown_open (state : StateTable) : bool :=
  match row_selector (element state) ≫= selector_dropdown with
  | Some cls => negb (bool_decide ("hidden"%string ∈ cls))
  | None => false
  end.


End SelectorKeyboard.

(** ** What a save leaves alone *)

Section SavedData.
Local Open Scope list_scope.

(** An input without its error message, error type and classes, and a cell
    without popups and classes: the part of the markup that carries the
    data and the declared constraints. *)
Definition unmarked (i : Input) : Input := set_error i None None ∅.

Definition unmarked_cell (c : Cell) : Cell :=
  {| row_index := row_index c; row_code := row_code c;
     fields := map (field_map_inputs unmarked) (fields c);
     popups := 0; cell_classList := ∅ |}.

(** Two lists of cells that differ in markers only. *)
Definition same_data (cs cs' : list Cell) : Prop :=
  map unmarked_cell cs = map unmarked_cell cs'.

(** The body [table_save] posts for a grid. *)
Definition save_payload (state : StateTable) : Payload :=
  if jsstring_eqb (table_type state) (lit "VERTICAL_STATIC_UNIQUE")
  then PObject (table_serialize_vertical state)
  else PArray (table_serialize state).

(** A row with a remark typed in and its required number left empty. *)
Definition incomplete_row : list Cell :=
  [sample_cell 1 "02" [StringInput (sample_input "Uwagi" "x" false None)];
   sample_cell 1 "02"
     [NumberInput (sample_input "Wartosc_Liczba" "" false (Some "true"))]].

End SavedData.

(** ** Server side: what population leaves alone *)

(** Two cells that differ in their value at most, and two rows that differ
    in the values of their cells at most. *)
Definition same_cell_frame (cell cell' : TableCell) : Prop :=
  Name cell' = Name cell /\ Column cell' = Column cell
  /\ Required cell' = Required cell /\ Editable cell' = Editable cell
  /\ Blocked cell' = Blocked cell.

Definition same_row_frame (row row' : TableRow) : Prop :=
  Title row' = Title row /\ Code row' = Code row /\ Index row' = Index row
  /\ Forall2 same_cell_frame (Cells row) (Cells row').



(** ** Server side: dictionaries of a column *)

Record ColumnSlownik := {
  Slownik_Code : list string;             (* json:"Kod" *)
  Slownik_Opis : list string              (* json:"Opis" *)
}.

(** [ColumnSlownik.ToSliceTableEnum]; [None] is the run-time panic of an
    index out of range. *)
Definition ToSliceTableEnum (c : ColumnSlownik) : option (list TableEnum) :=
  mapM (fun i =>
          code ← Slownik_Code c !! i;
          label ← Slownik_Opis c !! i;
          Some {| Enum_Value := code; Enum_Label := label |})
       (seq 0 (length (Slownik_Code c))).

(** ** Server side: middleware chains *)

Section Chains.

(** [http.HandlerFunc], and the handler that serves [http.DefaultServeMux]. *)
Context {HandlerFunc : Type} (DefaultServeMux : HandlerFunc).

Definition ConstructorFunc : Type := HandlerFunc -> HandlerFunc.

Record ChainFunc := { constructors : list ConstructorFunc }.

(** [ChainFuncNew] *)
Definition ChainFuncNew (constructors : list ConstructorFunc) : ChainFunc :=
  {| constructors := constructors |}.

(** [ChainFunc.Then]; [None] is a nil function.  The loop runs from the
    last constructor to the first. *)
Definition ChainFunc_Then (c : ChainFunc) (fn : option HandlerFunc)
  : HandlerFunc :=
  fold_left (fun fn constructor => constructor fn) (rev (constructors c))
            (default DefaultServeMux fn).

(** [ChainFunc.Append] and [ChainFunc.Extend] *)
Definition ChainFunc_Append (c : ChainFunc) (constructors' : list ConstructorFunc)
  : ChainFunc :=
  {| constructors := (constructors c ++ constructors')%list |}.

Definition ChainFunc_Extend (c chain : ChainFunc) : ChainFunc :=
  ChainFunc_Append c (constructors chain).

(** [Chain.ThenFuncChain]: the loop runs from the first middleware to the
    last. *)
Definition ThenFuncChain (middlewares : list ConstructorFunc)
  (final : HandlerFunc) : HandlerFunc :=
  fold_left (fun h fn => fn h) middlewares final.

End Chains.

(** ** Server side: the tab tree *)

(** [UserType]: a set of role bits in a [uint8]. *)
Definition UserType : Type := N.
Definition UserNormal : UserType := 1.
Definition UserManager : UserType := 2.
Definition UserMethodolgist : UserType := 4.
Definition UserAdmin : UserType := 8.

(** A [TabNode]; a nil map of children reads as the empty map. *)
#[warnings="-register-all"]
Inductive TabNode := {
  Tab_TableName : string;
  Tab_Key : string;
  Tab_Label : string;
  Tab_Children : gmap string TabNode;
  Tab_Lp : N;
  Tab_Access : UserType
}.

(** [TabNode.HasAccessToPath] *)
Fixpoint HasAccessToPath (current : TabNode) (segments : list string)
  (userType : UserType) : bool :=
  match segments with
  | [] => true
  | segment :: rest =>
      match Tab_Children current !! segment with
      | None => false
      | Some next =>
          if (N.land (Tab_Access next) userType =? 0)%N then false
          else HasAccessToPath next rest userType
      end
  end.

(** The loop of [TabNode.TableNameGet]: the node it ends on, [None] inside
    for the nil pointer a missing child leaves in [current], and [None]
    outside for the panic of reading the children of nil. *)
Fixpoint TableNameGet_loop (current : option TabNode) (segments : list string)
  : option (option TabNode) :=
  match segments with
  | [] => Some current
  | segment :: rest =>
      match current with
      | None => None
      | Some node => TableNameGet_loop (Tab_Children node !! segment) rest
      end
  end.

(** [TabNode.TableNameGet]; [None] is the panic of a nil dereference. *)
Definition TableNameGet (root : TabNode) (segments : list string)
  : option string :=
  match TableNameGet_loop (Some root) segments with
  | Some (Some current) => Some (Tab_TableName current)
  | _ => None
  end.

(** A tree with one table under one group, open to administrators. *)
Definition sample_tabs : TabNode :=
  {| Tab_TableName := ""; Tab_Key := ""; Tab_Label := "";
     Tab_Children :=
       {[ "slowniki" :=
            {| Tab_TableName := ""; Tab_Key := "slowniki";
               Tab_Label := "Slowniki";
               Tab_Children :=
                 {[ "kody" :=
                      {| Tab_TableName := "kody"; Tab_Key := "kody";
                         Tab_Label := "Kody"; Tab_Children := ∅; Tab_Lp := 1;
                         Tab_Access := UserAdmin |} ]};
               Tab_Lp := 1; Tab_Access := UserAdmin |} ]};
     Tab_Lp := 0; Tab_Access := UserAdmin |}.

(** ** Enum fields *)

Section EnumFields.
Local Open Scope N_scope.
Local Open Scope list_scope.

(** A [data-enum-container] as [table_enum_select] and [enum_select_init]
    read it: its [data-enum-input], its [data-enum-value], the class list
    of its [data-enum-dropdown] (each [None] when the element is missing)
    and the [textContent] of its [data-enum-option] elements in document
    order. *)
Record EnumBox := {
  enum_input : option Input;
  enum_hidden : option Input;
  enum_dropdown : option (gset string);
  enum_texts : list jsstring
}.



(** The body of the loop of [enum_select_init] for one container that is
    not the row selector; [None] is a TypeError on a missing element. *)
Definition enum_select_init_container (box : EnumBox) : option EnumBox :=
  hidden ← enum_hidden box;
  _ ← enum_dropdown box;
  match List.find (fun text => includes text (input_value hidden))
                  (enum_texts box) with
  | Some text =>
      input ← enum_input box;
      Some {| enum_input := Some (set_value input (trim text));
              enum_hidden := enum_hidden box;
              enum_dropdown := enum_dropdown box;
              enum_texts := enum_texts box |}
  | None => Some box
  end.


(** A required enum field with nothing chosen, its list closed. *)
Definition sample_enum_box : EnumBox :=
  {| enum_input := Some (sample_input "Uprawa_widok" "" false (Some "true"));
     enum_hidden := Some (sample_input "Uprawa" "" false None);
     enum_dropdown := Some {["hidden"%string]};
     enum_texts := [lit " 01 - Pszenica "; lit " 02 - Owies "] |}.

End EnumFields.

(** * Verified properties *)

(** ** Dash-grouped digit masks *)

Lemma remove_non_digits (s : jsstring) :
  remove_all (fun c => negb (is_digit c)) s = List.filter is_digit s.
Proof.
  unfold remove_all. induction s as [|c s IH]; simpl; [reflexivity|].
  rewrite IH. destruct (is_digit c); reflexivity.
Qed.

(** The loop of [string_format_pattern] writes the first eight digits in
    dash-separated pairs. *)
Lemma string_format_pattern_loop_pairs (ds : jsstring) :
  string_format_pattern_loop 0 ds [] = dash_pairs (take 8 ds).
Proof.
  do 9 (destruct ds as [|? ds]; [reflexivity|]). reflexivity.
Qed.

Lemma dash_is_no_digit : is_digit c_minus = false.
Proof. reflexivity. Qed.

Lemma filter_dash_pairs_bounded (n : nat) (ds : jsstring) :
  (length ds <= n)%nat ->
  Forall (fun c => is_digit c = true) ds ->
  List.filter is_digit (dash_pairs ds) = ds.
Proof.
  revert ds. induction n as [n IH] using lt_wf_ind. intros ds Hlen Hds.
  destruct ds as [|a [|b [|c rest]]].
  - reflexivity.
  - simpl. inversion Hds as [|? ? Ha _]; subst. rewrite Ha. reflexivity.
  - simpl. inversion Hds as [|? ? Ha Hds']; subst.
    inversion Hds' as [|? ? Hb _]; subst. rewrite Ha, Hb. reflexivity.
  - inversion Hds as [|? ? Ha Hds']; subst.
    inversion Hds' as [|? ? Hb Hds'']; subst.
    change (dash_pairs (a :: b :: c :: rest))
      with (a :: b :: c_minus :: dash_pairs (c :: rest)).
    cbn [List.filter]. rewrite Ha, Hb, dash_is_no_digit.
    f_equal. f_equal.
    apply (IH (length (c :: rest))); [simpl in *; lia | lia | assumption].
Qed.

Lemma filter_dash_pairs (ds : jsstring) :
  Forall (fun c => is_digit c = true) ds ->
  List.filter is_digit (dash_pairs ds) = ds.
Proof. apply (filter_dash_pairs_bounded (length ds)). lia. Qed.

Lemma filter_all_digits (s : jsstring) :
  Forall (fun c => is_digit c = true) (List.filter is_digit s).
Proof.
  induction s as [|c s IH]; simpl; [constructor|].
  destruct (is_digit c) eqn:E; [constructor; assumption | assumption].
Qed.

Lemma string_format_pattern_pairs (s : jsstring) :
  string_format_pattern s = dash_pairs (take 8 (List.filter is_digit s)).
Proof.
  unfold string_format_pattern. rewrite remove_non_digits.
  apply string_format_pattern_loop_pairs.
Qed.

(** C10. For every string [s], [string_format_pattern s] is the first eight
    digits of [s] written in pairs separated by single dashes (the last
    group may hold one digit); it therefore holds at most eight digits, and
    formatting it again changes nothing. *)
Theorem string_format_pattern_shape (s : jsstring) :
  let ds := take 8 (List.filter is_digit s) in
  string_format_pattern s = dash_pairs ds
  /\ List.filter is_digit (string_format_pattern s) = ds
  /\ (length (List.filter is_digit (string_format_pattern s)) <= 8)%nat
  /\ string_format_pattern (string_format_pattern s) = string_format_pattern s.
Proof.
  intros ds.
  assert (Hds : Forall (fun c => is_digit c = true) ds).
  { apply Forall_take, filter_all_digits. }
  assert (Hf : List.filter is_digit (string_format_pattern s) = ds).
  { rewrite string_format_pattern_pairs. apply filter_dash_pairs, Hds. }
  split; [apply string_format_pattern_pairs|].
  split; [exact Hf|].
  split.
  - rewrite Hf. unfold ds. rewrite length_take. lia.
  - rewrite (string_format_pattern_pairs (string_format_pattern s)), Hf.
    unfold ds. rewrite take_take, Nat.min_id.
    symmetry. apply string_format_pattern_pairs.
Qed.

(** ** Row construction *)

Lemma HasPrefix_refl (s : string) : HasPrefix s s = true.
Proof.
  induction s as [|a s IH]; simpl; [reflexivity|].
  rewrite Ascii.eqb_refl. exact IH.
Qed.

Lemma Contains_slice_from (n : nat) (s : string) :
  Contains s (slice_from n s) = true.
Proof.
  revert s. induction n as [|n IH]; intros s.
  - destruct s; simpl; [reflexivity|].
    rewrite Ascii.eqb_refl, HasPrefix_refl. reflexivity.
  - destruct s as [|a s]; simpl; [reflexivity|].
    rewrite IH. apply orb_true_r.
Qed.

(** A name that ends in a suffix contains it. *)
Lemma HasSuffix_Contains (s suffix : string) :
  implb (HasSuffix s suffix) (Contains s suffix) = true.
Proof.
  unfold HasSuffix.
  destruct (_ <=? _)%nat; simpl; [|reflexivity].
  destruct (String.eqb_spec
              (slice_from (String.length s - String.length suffix) s) suffix)
    as [E|_]; simpl; [|reflexivity].
  rewrite <- E. apply Contains_slice_from.
Qed.

Lemma static_cell_fields blocks code i column :
  let cell := static_cell blocks code i column in
  Name cell = Column_Name column
  /\ Editable cell = kod_cell_Editable (Column_Name column)
  /\ Value cell = static_cell_Value (Column_Name column) code.
Proof.
  unfold static_cell, kod_cell_Editable, static_cell_Value.
  destruct (existsb _ blocks); simpl;
    destruct (Contains (Column_Name column) "_Kod"); simpl; auto.
Qed.

Lemma dynamic_cell_fields blocks code w i column :
  let cell := dynamic_cell blocks code w i column in
  Name cell = Column_Name column
  /\ Editable cell = kod_cell_Editable (Column_Name column)
  /\ Value cell = dynamic_cell_Value (Column_Name column) code w.
Proof.
  unfold dynamic_cell, kod_cell_Editable, dynamic_cell_Value.
  destruct (existsb _ blocks); simpl;
    destruct (Contains (Column_Name column) "_Kod"); simpl;
    destruct (Contains (Column_Name column) "_Wyszczegolnienie"); simpl; auto.
Qed.

Lemma Forall2_imap_cells (f : nat -> TableColumn -> TableCell)
  (P : TableColumn -> TableCell -> Prop) (columns : list TableColumn) :
  (forall i column, P column (f i column)) ->
  Forall2 P columns (imap f columns).
Proof.
  intros H. revert f H. induction columns as [|c cs IH]; intros f H; simpl.
  - constructor.
  - constructor; [apply H | apply IH; intros; apply H].
Qed.

(** C5, as stated, fails: a column whose name contains the reserved
    suffix without ending in it yields a non-editable cell that holds the
    row's code. *)
Lemma kod_suffix_counterexample :
  let cell := static_cell [] "01" 0 (sample_column "Uprawa_Kod_Opis" 0) in
  HasSuffix (Name cell) "_Kod" = false
  /\ Editable cell = 0%Z
  /\ Value cell = "01".
Proof. vm_compute. auto. Qed.

(** C5, amended.  In the rows [AnkietSubtableGet] builds for the static
    horizontal layout and in the row [AnkietRowGet] builds, the cells mirror
    the columns; a cell is non-editable (Editable = 0) exactly when its name
    contains "_Kod", and is editable (Editable = 1) otherwise.  In the
    static layout such a cell holds the row's code and every other cell is
    empty.  In [AnkietRowGet] a cell whose name contains "_Wyszczegolnienie"
    holds the title looked up for the code, any other cell whose name
    contains "_Kod" holds the code, and the rest are empty.  Names that end
    in "_Kod" contain it. *)
Theorem kod_cells_by_name :
  (forall columns blocks kody,
     Forall (fun row =>
       Forall2 (fun column cell =>
         Name cell = Column_Name column
         /\ Editable cell = kod_cell_Editable (Column_Name column)
         /\ Value cell = static_cell_Value (Column_Name column) (Code row))
         columns (Cells row))
       (static_rows columns blocks kody))
  /\ (forall code index columns blocks w,
        exists row,
          AnkietRowGet code
            {| r_index := Ok index; r_year := Ok tt; r_kolumny := Ok columns;
               r_blokady := Ok blocks; r_wyszczegolnienie := w |}
          = (Fragment row, [])
          /\ Code row = code
          /\ Forall2 (fun column cell =>
               Name cell = Column_Name column
               /\ Editable cell = kod_cell_Editable (Column_Name column)
               /\ Value cell = dynamic_cell_Value (Column_Name column) code w)
               columns (Cells row))
  /\ (forall name, implb (HasSuffix name "_Kod") (Contains name "_Kod") = true).
Proof.
  split; [|split].
  - intros columns blocks kody. unfold static_rows.
    apply Forall_map, Forall_forall. intros row _. simpl.
    apply Forall2_imap_cells. intros i column.
    apply static_cell_fields.
  - intros code index columns blocks w. eexists. split; [reflexivity|].
    simpl. split; [reflexivity|].
    apply Forall2_imap_cells. intros i column.
    apply dynamic_cell_fields.
  - intros name. apply HasSuffix_Contains.
Qed.

(** ** Cell populator: malformed and empty payloads *)

Section PopulatorErrors.

Context (json_parse : string -> option json)
        (range_order : nat -> gmap string json -> list (string * json))
        (int64_overflow : number -> Z) (Sprint : json -> string).

Lemma PopulateCellsFromArray_empty rows :
  PopulateCellsFromArray json_parse range_order int64_overflow Sprint rows ""
  = (rows, None).
Proof. reflexivity. Qed.

Lemma PopulateCellsFromObject_empty rows :
  PopulateCellsFromObject json_parse int64_overflow Sprint rows ""
  = (rows, None).
Proof. reflexivity. Qed.

Lemma PopulateCellsFromArray_malformed rows jsonData :
  jsonData <> "" -> json_parse jsonData = None ->
  PopulateCellsFromArray json_parse range_order int64_overflow Sprint
    rows jsonData = (rows, Some SyntaxError).
Proof.
  intros Hne Hparse. unfold PopulateCellsFromArray, json_Unmarshal_array.
  destruct (String.eqb_spec jsonData ""); [contradiction|].
  rewrite Hparse. reflexivity.
Qed.

Lemma PopulateCellsFromObject_malformed rows jsonData :
  jsonData <> "" -> json_parse jsonData = None ->
  PopulateCellsFromObject json_parse int64_overflow Sprint rows jsonData
  = (rows, Some SyntaxError).
Proof.
  intros Hne Hparse. unfold PopulateCellsFromObject, json_Unmarshal_map.
  destruct (String.eqb_spec jsonData ""); [contradiction|].
  rewrite Hparse. reflexivity.
Qed.

(** Whenever a populator reports an error, it has changed no cell. *)
Lemma Populate_error_keeps_rows rows jsonData :
  (forall e, snd (PopulateCellsFromArray json_parse range_order
                    int64_overflow Sprint rows jsonData) = Some e ->
             fst (PopulateCellsFromArray json_parse range_order
                    int64_overflow Sprint rows jsonData) = rows)
  /\ (forall e, snd (PopulateCellsFromObject json_parse int64_overflow
                       Sprint rows jsonData) = Some e ->
                fst (PopulateCellsFromObject json_parse int64_overflow
                       Sprint rows jsonData) = rows).
Proof.
  unfold PopulateCellsFromArray, PopulateCellsFromObject.
  destruct (String.eqb jsonData ""); simpl; [split; discriminate|].
  split; intros e.
  - destruct (json_Unmarshal_array json_parse jsonData); simpl;
      [reflexivity | discriminate].
  - destruct (json_Unmarshal_map json_parse jsonData); simpl;
      [reflexivity | discriminate].
Qed.

(** C6, amended.  For an empty payload both populators return without an
    error and leave every row as it was, and [AnkietSubtableGet] renders the
    unpopulated rows without logging anything.  For a non-empty payload that
    does not parse, both populators return a syntax error and leave every
    row as it was, and [AnkietSubtableGet] logs exactly one warning and
    still renders the unpopulated rows.  That is the static horizontal and
    the vertical layout; in the dynamic layouts the handler does not read
    the payload: it renders the code catalogue, hands the payload on as it
    is, and logs nothing. *)
Theorem malformed_or_empty_payload rows jsonData columns kody blocks :
  jsonData = "" \/ json_parse jsonData = None ->
  let warn msg :=
    if String.eqb jsonData "" then []
    else [LogWarn msg "invalid JSON"] in
  fst (PopulateCellsFromArray json_parse range_order int64_overflow Sprint
         rows jsonData) = rows
  /\ fst (PopulateCellsFromObject json_parse int64_overflow Sprint
            rows jsonData) = rows
  /\ AnkietSubtableGet json_parse range_order int64_overflow Sprint
       (ok_queries HORIZONTAL_STATIC_UNIQUE columns kody blocks jsonData)
     = (Grid HORIZONTAL_STATIC_UNIQUE columns
          (static_rows columns blocks kody) "",
        warn "failed to populate horizontal static data")
  /\ AnkietSubtableGet json_parse range_order int64_overflow Sprint
       (ok_queries VERTICAL_STATIC_UNIQUE columns kody blocks jsonData)
     = (Grid VERTICAL_STATIC_UNIQUE columns (vertical_rows columns) "",
        warn "failed to populate vertical static data")
  /\ AnkietSubtableGet json_parse range_order int64_overflow Sprint
       (ok_queries HORIZONTAL_DYNAMIC_UNIQUE columns kody blocks jsonData)
     = (Grid HORIZONTAL_DYNAMIC_UNIQUE columns (catalogue_rows kody) jsonData,
        [])
  /\ AnkietSubtableGet json_parse range_order int64_overflow Sprint
       (ok_queries HORIZONTAL_DYNAMIC_DUPLICABLE columns kody blocks jsonData)
     = (Grid HORIZONTAL_DYNAMIC_DUPLICABLE columns (catalogue_rows kody)
          jsonData, []).
Proof.
  intros H warn. unfold warn.
  destruct (String.eqb_spec jsonData "") as [->|Hne].
  - repeat split; reflexivity.
  - destruct H as [H|H]; [contradiction|].
    unfold AnkietSubtableGet. simpl.
    rewrite !PopulateCellsFromArray_malformed,
            !PopulateCellsFromObject_malformed by assumption.
    repeat split; reflexivity.
Qed.

End PopulatorErrors.

(** C6, as stated, fails for the empty payload: the page is rendered, but
    no warning is logged. *)
Lemma empty_payload_counterexample :
  let out :=
    AnkietSubtableGet no_parse map_order amd64_overflow no_Sprint
      (ok_queries HORIZONTAL_STATIC_UNIQUE sample_columns sample_kody [] "") in
  existsb is_warning (snd out) = false
  /\ fst out = Grid HORIZONTAL_STATIC_UNIQUE sample_columns
                 (static_rows sample_columns [] sample_kody) "".
Proof. split; reflexivity. Qed.

Lemma malformed_or_empty_payload_witness :
  ("{" = "" \/ no_parse "{" = None)
  /\ AnkietSubtableGet no_parse map_order amd64_overflow no_Sprint
       (ok_queries HORIZONTAL_STATIC_UNIQUE sample_columns sample_kody [] "{")
     = (Grid HORIZONTAL_STATIC_UNIQUE sample_columns
          (static_rows sample_columns [] sample_kody) "",
        [LogWarn "failed to populate horizontal static data" "invalid JSON"]).
Proof.
  split; [right; reflexivity|].
  apply (malformed_or_empty_payload no_parse map_order amd64_overflow
           no_Sprint [] "{" sample_columns sample_kody []).
  right; reflexivity.
Defined.

(** ** Cell populator: array form *)




Section PopulatorArray.

Context (json_parse : string -> option json)
        (range_order : nat -> gmap string json -> list (string * json))
        (int64_overflow : number -> Z) (Sprint : json -> string).

(** [range] visits every entry of the map once, in some order. *)
Hypothesis range_order_Permutation :
  forall i m, range_order i m ≡ₚ map_to_list m.


End PopulatorArray.

(** ** Whole numbers in binary64 *)

Section WholeNumbers.
Local Open Scope Z_scope.

Lemma iter_pos_iter {A} (f : A -> A) (k : positive) (x : A) :
  SpecFloat.iter_pos f k x = Pos.iter f x k.
Proof.
  revert x. induction k as [k IH|k IH|]; intros x; simpl.
  - rewrite !IH, <- !Pos.iter_swap. reflexivity.
  - rewrite !IH. reflexivity.
  - reflexivity.
Qed.














End WholeNumbers.







(** ** Save gate *)

(** C2, as stated, fails at the boundary: when exactly 3000 ms have passed
    since the last save, the elapsed time does not exceed the cooldown, yet
    the save goes through validation and serialization and posts the
    data. *)
Lemma cooldown_boundary_counterexample :
  let state := sample_state one_row 0 in
  let now := of_Z 3000 in
  gt (SFsub prec emax now (last_save_time state)) SAVE_COOLDOWN_MS = false
  /\ match table_save_begin now state with
     | SaveSuspended state' fx =>
         existsb is_network_call fx = true /\ pending_save state' = true
     | _ => False
     end.
Proof. split; [reflexivity|]. vm_compute. split; reflexivity. Qed.

(** C2, amended.  A call to [table_save] while a save is in flight returns
    false at once: no toast, no network call, the state record (grid,
    [last_save_time], [pending_save]) exactly as it was.  A call made when
    no save is in flight and less than 3000 ms have passed since the last
    successful save returns false with the state record exactly as it was
    and, as its only effect, a warning toast that states the remaining
    seconds, rounded up. *)
Theorem table_save_gate (now : number) (state : StateTable) :
  (pending_save state = true ->
   table_save_begin now state = SaveReturned state [] false)
  /\ (pending_save state = false ->
      lt (SFsub prec emax now (last_save_time state)) SAVE_COOLDOWN_MS = true ->
      let remaining :=
        Math_ceil
          (SFdiv prec emax
             (SFsub prec emax SAVE_COOLDOWN_MS
                (SFsub prec emax now (last_save_time state)))
             (of_Z 1000)) in
      table_save_begin now state
      = SaveReturned state [Toast (MSG_WAIT remaining) "warning"] false
      /\ existsb is_network_call [Toast (MSG_WAIT remaining) "warning"]
         = false).
Proof.
  split.
  - intros Hp. unfold table_save_begin. rewrite Hp. reflexivity.
  - intros Hp Hlt remaining. unfold table_save_begin.
    rewrite Hp, Hlt. split; reflexivity.
Qed.

Lemma table_save_gate_witness :
  let state := sample_state one_row 1000 in
  let now := of_Z 2500 in
  pending_save state = false
  /\ lt (SFsub prec emax now (last_save_time state)) SAVE_COOLDOWN_MS = true
  /\ table_save_begin now state
     = SaveReturned state
         [Toast (lit "Poczekaj 2s przed kolejnym zapisem") "warning"] false.
Proof.
  split; [reflexivity|]. split; [reflexivity|].
  apply (proj2 (table_save_gate (of_Z 2500) (sample_state one_row 1000))
               eq_refl eq_refl).
Defined.

(** ** Row validation *)

Lemma jsstring_eqb_eq (a b : jsstring) : jsstring_eqb a b = true <-> a = b.
Proof.
  revert b. induction a as [|x a IH]; intros [|y b]; simpl;
    try (split; [discriminate | congruence]); [tauto|].
  rewrite andb_true_iff, N.eqb_eq, IH. split.
  - intros [-> ->]. reflexivity.
  - intros E. inversion E. auto.
Qed.

Lemma jsstring_eqb_nil (a : jsstring) : jsstring_eqb a [] = negb (truthy a).
Proof. destruct a; reflexivity. Qed.








Lemma input_clear_error_free (i : Input) : error_free (input_clear_error i).
Proof.
  unfold error_free, input_clear_error. simpl.
  split; [reflexivity|]. split; [reflexivity|].
  intros x Hx Herr. apply elem_of_union in Hx as [Hx|Hx].
  - apply elem_of_difference in Hx as [_ Hx]. contradiction.
  - unfold neutral_classes, error_classes in *.
    rewrite elem_of_list_to_set in Hx, Herr.
    repeat (apply elem_of_cons in Hx as [->|Hx];
            [revert Herr; apply (bool_decide_unpack _); vm_compute;
             reflexivity|]).
    inversion Hx.
Qed.














(** ** Serialization *)





Lemma omap_cons_match {A B} (g : A -> option B) (x : A) (l : list A) :
  omap g (x :: l)
  = match g x with Some y => y :: omap g l | None => omap g l end.
Proof. reflexivity. Qed.









(** ** Dynamic rows: row indices *)

Local Open Scope Z_scope.

Lemma StronglySorted_snoc (l : list Z) (x : Z) :
  StronglySorted Z.lt l -> Forall (fun y => y < x) l ->
  StronglySorted Z.lt (l ++ [x])%list.
Proof.
  induction 1 as [|y l Hs IH Hy]; intros Hall; simpl.
  - repeat constructor.
  - inversion Hall as [|? ? Hyx Hl]; subst. constructor.
    + apply IH, Hl.
    + apply Forall_app. split; [exact Hy | repeat constructor; exact Hyx].
Qed.

Lemma StronglySorted_lt_NoDup (l : list Z) :
  StronglySorted Z.lt l -> NoDup l.
Proof.
  induction 1 as [|y l Hs IH Hy]; constructor; [|exact IH].
  intros Hin. rewrite Forall_forall in Hy. specialize (Hy _ Hin). lia.
Qed.

Lemma add_row_begin_counter (st : StateTable) (code : jsstring) :
  let '(st', index, _) := dynamic_table_add_row_begin st code in
  index = row_counter st /\ row_counter st' = js_succ (row_counter st)
  /\ element st' = element st.
Proof. simpl. auto. Qed.

Lemma add_row_end_counter (st : StateTable) (code : jsstring) (r : RowResponse) :
  row_counter (dynamic_table_add_row_end st code r).1.1 = row_counter st.
Proof. destruct r; reflexivity. Qed.

Lemma delete_row_counter (st : StateTable) (cell : Cell) :
  row_counter (dynamic_table_delete_row st cell) = row_counter st.
Proof.
  unfold dynamic_table_delete_row.
  destruct (row_index cell), (present (row_code cell)); reflexivity.
Qed.

Lemma indices_ok_allocate (lo : Z) (w : World) (st' : StateTable)
  (code : jsstring) (fx : Effect) :
  indices_ok lo w -> row_counter (state w) < 2 ^ 53 ->
  row_counter st' = js_succ (row_counter (state w)) ->
  indices_ok lo
    {| state := st'; inflight := (inflight w ++ [code])%list;
       allocated := (allocated w ++ [row_counter (state w)])%list;
       effects := (effects w ++ [fx])%list |}.
Proof.
  intros (Hs & Hall & Hlo) Hlt Hrc. unfold indices_ok. simpl.
  assert (Hsucc : js_succ (row_counter (state w)) = row_counter (state w) + 1).
  { unfold js_succ. destruct (Z.ltb_spec (row_counter (state w)) (2 ^ 53));
      [reflexivity | lia]. }
  rewrite Hrc, Hsucc. split; [|split; [|lia]].
  - apply StronglySorted_snoc; [exact Hs|].
    eapply Forall_impl; [exact Hall|]. simpl. intros; lia.
  - apply Forall_app. split.
    + eapply Forall_impl; [exact Hall|]. simpl. intros; lia.
    + repeat constructor; lia.
Qed.

(** One event keeps the invariant and moves the counter by at most one. *)
Lemma step_indices_ok (lo : Z) (w : World) (ev : Event) :
  indices_ok lo w -> row_counter (state w) < 2 ^ 53 ->
  indices_ok lo (step w ev)
  /\ row_counter (state (step w ev)) <= row_counter (state w) + 1.
Proof.
  intros Hok Hlt.
  assert (Hsucc : js_succ (row_counter (state w)) = row_counter (state w) + 1).
  { unfold js_succ. destruct (Z.ltb_spec (row_counter (state w)) (2 ^ 53));
      [reflexivity | lia]. }
  destruct ev as [code|i|n r|k]; simpl.
  - split; [apply indices_ok_allocate; auto|]. simpl. lia.
  - unfold table_handle_click_option.
    destruct (is_dynamic (state w)); [|split; [exact Hok | lia]].
    destruct (row_selector (element (state w))) as [s|]; simpl;
      [|split; [exact Hok | lia]].
    destruct (selector_options s !! i) as [o|]; simpl;
      [|split; [exact Hok | lia]].
    destruct (is_hidden o); [split; [exact Hok | lia]|].
    destruct (present (data_rowCode o)) as [code|]; simpl;
      [|split; [exact Hok | lia]].
    split; [apply indices_ok_allocate; auto|]. simpl. lia.
  - destruct (inflight w !! n) as [code|]; [|split; [exact Hok | lia]].
    pose proof (add_row_end_counter (state w) code r) as Hrc.
    destruct (dynamic_table_add_row_end (state w) code r) as [[st fx] b].
    simpl in *. unfold indices_ok in *. simpl. rewrite Hrc.
    split; [exact Hok | lia].
  - destruct (cells (element (state w)) !! k) as [cell|];
      [|split; [exact Hok | lia]].
    unfold indices_ok in *. simpl. rewrite delete_row_counter.
    split; [exact Hok | lia].
Qed.

Lemma run_indices_ok (lo : Z) (evs : list Event) : forall w,
  indices_ok lo w ->
  row_counter (state w) + Z.of_nat (length evs) <= 2 ^ 53 ->
  indices_ok lo (run w evs).
Proof.
  induction evs as [|ev evs IH]; intros w Hok Hlen; [exact Hok|].
  simpl in Hlen. cbn [run foldl].
  destruct (step_indices_ok lo w ev Hok) as [Hok' Hrc]; [lia|].
  apply IH; [exact Hok' | lia].
Qed.

(** C8.  Over every sequence of add-row calls, catalogue clicks, settled
    fetches and deleted rows (no longer than the counter has room for below
    2^53), the row indices handed out grow strictly, so none is used twice,
    and all lie between the initial and the final counter.  When the fetch
    of the fragment fails, the call returns false with the grid and the
    state record as they were after the index was taken: nothing is
    inserted, one error toast is shown, and the counter stays advanced. *)
Theorem row_indices_never_reused (st : StateTable) (evs : list Event) :
  row_counter st + Z.of_nat (length evs) <= 2 ^ 53 ->
  let w := run (start st) evs in
  StronglySorted Z.lt (allocated w)
  /\ NoDup (allocated w)
  /\ Forall (fun i => row_counter st <= i < row_counter (state w))
            (allocated w)
  /\ (forall state code response,
        (forall html, response <> RowMarkup html) ->
        let '(state', index, _) := dynamic_table_add_row_begin state code in
        index = row_counter state
        /\ row_counter state' = js_succ (row_counter state)
        /\ element state' = element state
        /\ exists message,
             dynamic_table_add_row_end state' code response
             = (state', [Toast message "error"], false)).
Proof.
  intros Hlen w.
  assert (Hok : indices_ok (row_counter st) w).
  { apply run_indices_ok; [|exact Hlen].
    unfold indices_ok. simpl. repeat split; [constructor | constructor | lia]. }
  destruct Hok as (Hs & Hall & _).
  split; [exact Hs|]. split; [apply StronglySorted_lt_NoDup, Hs|].
  split; [exact Hall|].
  intros state code response Hfail. simpl.
  split; [reflexivity|]. split; [reflexivity|]. split; [reflexivity|].
  destruct response as [err|status|html].
  - eexists. reflexivity.
  - eexists. reflexivity.
  - exfalso. apply (Hfail html). reflexivity.
Qed.

Lemma row_indices_never_reused_witness :
  let evs :=
    [AddRow (lit "01"); Settle 0 (RowStatus 500); AddRow (lit "01");
     Settle 0 (RowMarkup (sample_fragment 1)); DeleteRow 0;
     AddRow (lit "01")] in
  row_counter unique_state + Z.of_nat (length evs) <= 2 ^ 53
  /\ allocated (run (start unique_state) evs) = [0; 1; 2]
  /\ NoDup (allocated (run (start unique_state) evs)).
Proof.
  intros evs.
  assert (H : row_counter unique_state + Z.of_nat (length evs) <= 2 ^ 53)
    by (vm_compute; discriminate).
  split; [exact H|]. split; [vm_compute; reflexivity|].
  apply (row_indices_never_reused unique_state evs H).
Defined.

(** ** Dynamic rows: one row per code *)

Lemma update_first_lookup {A} (p : A -> bool) (f : A -> A) (l : list A)
  (i : nat) (x : A) :
  l !! i = Some x -> p x = true ->
  (forall j y, (j < i)%nat -> l !! j = Some y -> p y = false) ->
  update_first p f l !! i = Some (f x).
Proof.
  revert i. induction l as [|y l IH]; intros i Hi Hp Hfirst; [discriminate|].
  destruct i as [|i]; simpl in *.
  - injection Hi as ->. rewrite Hp. reflexivity.
  - rewrite (Hfirst O y) by (lia || reflexivity). simpl.
    apply IH; [exact Hi | exact Hp|].
    intros j z Hj Hz. apply (Hfirst (S j) z); [lia | exact Hz].
Qed.

(** In unique mode a successful add hides the catalogue's option for the
    code. *)
Lemma add_row_hides_option (st : StateTable) (s : RowSelector) (code : jsstring)
  (html : list Cell) (i : nat) (o : EnumOption) :
  is_unique st = true ->
  row_selector (element st) = Some s ->
  selector_options s !! i = Some o ->
  same_string (data_value o) code = true ->
  (forall j y, (j < i)%nat -> selector_options s !! j = Some y ->
               same_string (data_value y) code = false) ->
  exists s' o',
    row_selector (element (dynamic_table_add_row_end st code
                             (RowMarkup html)).1.1) = Some s'
    /\ selector_options s' !! i = Some o'
    /\ is_hidden o' = true.
Proof.
  intros Hu Hs Hi Hv Hfirst. simpl. rewrite Hu. simpl. rewrite Hs. simpl.
  eexists _, _. split; [reflexivity|]. simpl. split.
  - eapply update_first_lookup; eassumption.
  - unfold is_hidden. simpl. apply bool_decide_eq_true. set_solver.
Qed.

(** In unique mode a hidden option stays as it is, whatever is typed into
    the selector and however the host lower-cases text. *)
Lemma hidden_option_stays_hidden (toLowerCase : list N -> list N)
  (st : StateTable) (s : RowSelector) (text : jsstring) (i : nat)
  (o : EnumOption) :
  is_unique st = true ->
  row_selector (element st) = Some s ->
  selector_options s !! i = Some o ->
  is_hidden o = true ->
  exists s',
    row_selector (element (dynamic_table_handle_selector_input toLowerCase
                             st text)) = Some s'
    /\ selector_options s' !! i = Some o.
Proof.
  intros Hu Hs Hi Hh. unfold dynamic_table_handle_selector_input. simpl.
  rewrite Hs. simpl. eexists. split; [reflexivity|]. simpl.
  rewrite list_lookup_fmap, Hi. simpl. rewrite Hu, Hh. reflexivity.
Qed.

(** A click cannot land on a hidden option: no add is started. *)
Lemma hidden_option_not_clickable (w : World) (s : RowSelector) (i : nat)
  (o : EnumOption) :
  row_selector (element (state w)) = Some s ->
  selector_options s !! i = Some o ->
  is_hidden o = true ->
  step w (ClickOption i) = w.
Proof.
  intros Hs Hi Hh. simpl. unfold table_handle_click_option.
  destruct (is_dynamic (state w)); [|reflexivity].
  rewrite Hs. simpl. rewrite Hi. simpl. rewrite Hh. reflexivity.
Qed.

(** In unique mode deleting the row shows the option again. *)
Lemma delete_row_shows_option (st : StateTable) (s : RowSelector)
  (cell : Cell) (rowIndex : Z) (code : jsstring) (i : nat) (o : EnumOption) :
  is_unique st = true ->
  row_selector (element st) = Some s ->
  row_index cell = Some rowIndex ->
  present (row_code cell) = Some code ->
  selector_options s !! i = Some o ->
  same_string (data_rowCode o) code = true ->
  (forall j y, (j < i)%nat -> selector_options s !! j = Some y ->
               same_string (data_rowCode y) code = false) ->
  exists s' o',
    row_selector (element (dynamic_table_delete_row st cell)) = Some s'
    /\ selector_options s' !! i = Some o'
    /\ is_hidden o' = false.
Proof.
  intros Hu Hs Hri Hrc Hi Hv Hfirst. unfold dynamic_table_delete_row.
  rewrite Hri, Hrc, Hu. simpl. rewrite Hs. simpl.
  eexists _, _. split; [reflexivity|]. simpl. split.
  - eapply update_first_lookup; eassumption.
  - unfold is_hidden. simpl. apply bool_decide_eq_false. set_solver.
Qed.

(** C9, the failing run.  Two clicks on the visible option for code "01"
    before the first fetch settles start two adds; both fetches succeed and
    the grid ends with two rows, indices 0 and 1, for the same code.  The
    option is hidden only once the first fetch has settled. *)
Theorem overlapping_adds_duplicate_code :
  let clicked := run (start unique_state) [ClickOption 0; ClickOption 0] in
  let w := run clicked [Settle 0 (RowMarkup (sample_fragment 0));
                        Settle 0 (RowMarkup (sample_fragment 1))] in
  inflight clicked = [lit "01"; lit "01"]
  /\ allocated w = [0; 1]
  /\ rows_with_code (lit "01") (state w) = [0; 1]
  /\ (is_hidden <$> (row_selector (element (state w))
                       ≫= fun s => selector_options s !! 0%nat))
     = Some true.
Proof. repeat split; vm_compute; reflexivity. Qed.

(** ** Numeric display masks: rendering twice *)

(** C1, the failing input.  The value -0.001 lies within the bounds -1 and
    1 of a field with two decimals.  It is rendered as "-0,00"; that text
    reads back as negative zero, which is rendered as "0,00".  With a mask
    without decimals the same value is rendered as "0" both times. *)
Theorem negative_zero_rendered_twice :
  let v := parseFloat (lit "-0.001") in
  let fmt := number_format_parse (lit "0,00") in
  let fmt0 := number_format_parse (lit "###0") in
  validate_number_value small_negative_input = Some None
  /\ number_value_parse (input_value small_negative_input) = Some v
  /\ number_format_value v fmt = Some (lit "-0,00")
  /\ render_again (lit "-0,00") fmt = Some (lit "0,00")
  /\ number_format_value v fmt0 = Some (lit "0")
  /\ render_again (lit "0") fmt0 = Some (lit "0").
Proof. repeat split; vm_compute; reflexivity. Qed.

(** ** Further properties of the runtime and the handlers *)

(** ** Typing into a numeric field *)

Section NumericText.
Local Open Scope N_scope.
Local Open Scope list_scope.

Lemma includes_single (s : jsstring) (c : jschar) :
  includes s [c] = existsb (fun x => x =? c) s.
Proof.
  induction s as [|x s IH]; [reflexivity|].
  cbn [includes startsWith existsb]. rewrite IH.
  destruct s; rewrite andb_true_r; reflexivity.
Qed.

Lemma existsb_eqb_false (s : jsstring) (c : jschar) :
  existsb (fun x => x =? c) s = false <-> c ∉ s.
Proof.
  induction s as [|x s IH]; cbn [existsb].
  - split; [intros _; apply not_elem_of_nil | reflexivity].
  - rewrite orb_false_iff, IH, not_elem_of_cons, N.eqb_neq. intuition congruence.
Qed.

Lemma remove_all_absent (s : jsstring) (c : jschar) :
  c ∉ s -> remove_all (fun x => x =? c) s = s.
Proof.
  unfold remove_all. induction s as [|x s IH]; [reflexivity|].
  rewrite not_elem_of_cons. intros [Hx Hs]. cbn [List.filter].
  destruct (N.eqb_spec x c) as [->|_]; [congruence|].
  cbn. rewrite IH by assumption. reflexivity.
Qed.

Lemma remove_all_removed (s : jsstring) (c : jschar) :
  c ∉ remove_all (fun x => x =? c) s.
Proof.
  unfold remove_all. intros H. apply list_elem_of_In, filter_In in H.
  destruct H as [_ H]. rewrite N.eqb_refl in H. discriminate.
Qed.

Lemma remove_all_Forall (P : jschar -> Prop) (cls : jschar -> bool)
  (s : jsstring) :
  Forall P s -> Forall P (remove_all cls s).
Proof.
  unfold remove_all. induction 1; cbn [List.filter]; [constructor|].
  destruct (negb (cls x)); [constructor|]; assumption.
Qed.

Lemma remove_all_keeps (cls : jschar -> bool) (s : jsstring) :
  Forall (fun c => cls c = false) (remove_all cls s).
Proof.
  unfold remove_all. induction s as [|x s IH]; cbn [List.filter]; [constructor|].
  destruct (cls x) eqn:E; cbn [negb]; [assumption | constructor; assumption].
Qed.

Lemma remove_all_id (cls : jschar -> bool) (s : jsstring) :
  Forall (fun c => cls c = false) s -> remove_all cls s = s.
Proof.
  unfold remove_all. induction 1 as [|x s Hx _ IH]; cbn [List.filter];
    [reflexivity|].
  rewrite Hx. cbn [negb]. rewrite IH. reflexivity.
Qed.

Lemma replace_first_absent (c d : jschar) (s : jsstring) :
  c ∉ s -> replace_first c d s = s.
Proof.
  induction s as [|x s IH]; [reflexivity|].
  rewrite not_elem_of_cons. intros [Hx Hs]. cbn [replace_first].
  destruct (N.eqb_spec x c) as [->|_]; [congruence|]. rewrite IH; auto.
Qed.

Lemma indexOf_app (c : jschar) (a b : jsstring) :
  c ∉ a -> indexOf c (a ++ c :: b) = length a.
Proof.
  induction a as [|x a IH]; cbn [indexOf app length].
  - rewrite N.eqb_refl. reflexivity.
  - rewrite not_elem_of_cons. intros [Hx Ha].
    destruct (N.eqb_spec x c) as [->|_]; [congruence|]. rewrite IH; auto.
Qed.

Lemma count_char_app (c : jschar) (a b : jsstring) :
  count_char c (a ++ b) = (count_char c a + count_char c b)%nat.
Proof. unfold count_char. rewrite List.filter_app, List.length_app. reflexivity. Qed.

Lemma count_char_absent (c : jschar) (s : jsstring) :
  count_char c s = O <-> c ∉ s.
Proof.
  unfold count_char. induction s as [|x s IH]; cbn [List.filter].
  - split; [intros _; apply not_elem_of_nil | reflexivity].
  - rewrite not_elem_of_cons. destruct (N.eqb_spec x c) as [->|Hx]; cbn [length].
    + split; [discriminate | intros [? _]; congruence].
    + rewrite IH. intuition congruence.
Qed.


Lemma keep_first_absent (c : jschar) (s : jsstring) :
  c ∉ s ->
  (if (1 <? count_char c s)%nat
   then take (indexOf c s + 1) s
        ++ remove_all (fun x => x =? c) (drop (indexOf c s + 1) s)
   else s) = s.
Proof. intros H. apply count_char_absent in H. rewrite H. reflexivity. Qed.

Lemma keep_first_split (c : jschar) (a b : jsstring) :
  c ∉ a ->
  (if (1 <? count_char c (a ++ c :: b))%nat
   then take (indexOf c (a ++ c :: b) + 1) (a ++ c :: b)
        ++ remove_all (fun x => x =? c)
             (drop (indexOf c (a ++ c :: b) + 1) (a ++ c :: b))
   else a ++ c :: b)
  = a ++ c :: remove_all (fun x => x =? c) b.
Proof.
  intros Ha. rewrite indexOf_app by assumption.
  replace (a ++ c :: b) with ((a ++ [c]) ++ b) by (rewrite <- app_assoc; reflexivity).
  rewrite take_app_length', drop_app_length' by (rewrite length_app; reflexivity).
  rewrite <- !app_assoc. cbn [app].
  destruct (1 <? count_char c (a ++ c :: b))%nat eqn:E; [reflexivity|].
  apply Nat.ltb_ge in E. rewrite count_char_app in E.
  assert (Hb : count_char c b = O).
  { unfold count_char in *. cbn [List.filter] in E. rewrite N.eqb_refl in E.
    cbn [length] in E. lia. }
  apply count_char_absent in Hb. rewrite remove_all_absent by assumption.
  reflexivity.
Qed.

Lemma split_absent (c : jschar) (s : jsstring) : c ∉ s -> split c s = [s].
Proof.
  induction s as [|x s IH]; [reflexivity|].
  rewrite not_elem_of_cons. intros [Hx Hs]. cbn [split]. rewrite IH by assumption.
  destruct (N.eqb_spec x c) as [->|_]; [congruence | reflexivity].
Qed.

Lemma split_first (c : jschar) (a b : jsstring) :
  c ∉ a -> c ∉ b -> split c (a ++ c :: b) = [a; b].
Proof.
  intros Ha Hb. induction a as [|x a IH]; cbn [app split].
  - rewrite split_absent by assumption. rewrite N.eqb_refl. reflexivity.
  - apply not_elem_of_cons in Ha as [Hx Ha]. rewrite IH by assumption.
    destruct (N.eqb_spec x c) as [->|_]; [congruence | reflexivity].
Qed.

(** The minus step keeps a minus only in front. *)
Lemma minus_step (v : jsstring) :
  (if includes v [c_minus] then
     match v with
     | c :: _ => if c =? c_minus then [c_minus] else []
     | [] => []
     end ++ remove_all (fun c => c =? c_minus) v
   else v)
  = match v with
    | c :: _ => if c =? c_minus then [c_minus] else []
    | [] => []
    end ++ remove_all (fun c => c =? c_minus) v.
Proof.
  rewrite includes_single.
  destruct (existsb (fun x => x =? c_minus) v) eqn:E; [reflexivity|].
  pose proof E as E'. apply existsb_eqb_false in E'.
  rewrite remove_all_absent by assumption.
  destruct v as [|c v]; [reflexivity|]. cbn [existsb] in E.
  apply orb_false_iff in E as [-> _]. reflexivity.
Qed.

Lemma digit_not_char (c x : jschar) :
  is_digit c = false -> Forall (fun y => is_digit y = true) [x] -> x <> c.
Proof. intros Hc Hx ->. inversion Hx; congruence. Qed.

Lemma digits_absent (c : jschar) (s : jsstring) :
  is_digit c = false -> Forall (fun y => is_digit y = true) s -> c ∉ s.
Proof.
  intros Hc Hs Hin. rewrite Forall_forall in Hs.
  apply Hs in Hin. congruence.
Qed.

(** What the numeric input handler leaves in the field is well-formed. *)
Lemma number_input_text_numeric (fmt : Number_Format) (value : jsstring) :
  numeric_text (decimals fmt) (number_input_text fmt value).
Proof.
  unfold number_input_text. cbv zeta.
  set (v1 := replace_first c_dot c_comma value).
  set (v2 := if (0 <? decimals fmt)%Z then _ else _).
  assert (H2 : Forall (fun c => is_digit c = true \/ c = c_minus
                                \/ (c = c_comma /\ (0 < decimals fmt)%Z)) v2).
  { subst v2. destruct (Z.ltb_spec 0 (decimals fmt)) as [Hd|Hd].
    - eapply Forall_impl; [apply remove_all_keeps|]. cbn beta. intros c Hc.
      apply negb_false_iff in Hc. rewrite !orb_true_iff, !N.eqb_eq in Hc.
      intuition.
    - eapply Forall_impl; [apply remove_all_keeps|]. cbn beta. intros c Hc.
      apply negb_false_iff in Hc. rewrite !orb_true_iff, !N.eqb_eq in Hc.
      intuition. }
  rewrite !minus_step.
  set (sg := match v2 with
             | c :: _ => if c =? c_minus then [c_minus] else []
             | [] => []
             end).
  assert (Hsg : sg = [] \/ sg = [c_minus]).
  { subst sg. destruct v2 as [|c ?]; [left; reflexivity|].
    destruct (c =? c_minus); [right | left]; reflexivity. }
  set (w := remove_all (fun c => c =? c_minus) v2).
  assert (Hw : Forall (fun c => is_digit c = true
                                \/ (c = c_comma /\ (0 < decimals fmt)%Z)) w).
  { subst w. pose proof (remove_all_keeps (fun c => c =? c_minus) v2) as Hk.
    pose proof (remove_all_Forall _ (fun c => c =? c_minus) v2 H2) as Ha.
    rewrite Forall_forall in *. intros c Hc.
    specialize (Hk c Hc). specialize (Ha c Hc). cbn beta in Hk.
    apply N.eqb_neq in Hk. intuition. }
  assert (Hsgc : c_comma ∉ sg).
  { destruct Hsg as [-> | ->]; [apply not_elem_of_nil|].
    rewrite not_elem_of_cons. split; [discriminate | apply not_elem_of_nil]. }
  clearbody sg w. clear H2 v1 v2.
  destruct (decide (c_comma ∈ w)) as [Hin|Hout].
  - apply list_elem_of_split_l in Hin as (a & b & -> & Ha).
    apply Forall_app in Hw as [Hwa Hwb]. apply Forall_cons in Hwb as [Hc Hwb].
    assert (Hd : (0 < decimals fmt)%Z).
    { destruct Hc as [Hc | [_ Hc]]; [discriminate Hc | assumption]. }
    assert (Hsa : c_comma ∉ sg ++ a).
    { rewrite not_elem_of_app. split; assumption. }
    rewrite (app_assoc sg a), keep_first_split by assumption.
    set (b' := remove_all (fun x => x =? c_comma) b).
    assert (Hb' : c_comma ∉ b') by apply remove_all_removed.
    apply Z.ltb_lt in Hd as Hd'. rewrite Hd'. cbn [andb].
    rewrite includes_single, existsb_app. cbn [existsb].
    rewrite N.eqb_refl, orb_true_r.
    rewrite split_first by assumption. cbn [lookup list_lookup default from_option id].
    exists sg, a, (c_comma :: take (Z.to_nat (decimals fmt)) b').
    rewrite <- app_assoc. split; [reflexivity|]. split; [assumption|].
    assert (Hdig : forall l, Forall (fun c => is_digit c = true
                      \/ (c = c_comma /\ (0 < decimals fmt)%Z)) l ->
                    c_comma ∉ l -> Forall (fun c => is_digit c = true) l).
    { intros l Hl Hn. rewrite Forall_forall in *. intros c Hcl.
      destruct (Hl c Hcl) as [?|[-> _]]; [assumption|].
      contradiction. }
    split; [apply Hdig; assumption|].
    right. exists (take (Z.to_nat (decimals fmt)) b').
    split; [reflexivity|]. split; [assumption|]. split.
    + apply Forall_take, Hdig; [|assumption].
      subst b'. apply remove_all_Forall. assumption.
    + rewrite length_take. lia.
  - assert (Hsw : c_comma ∉ sg ++ w).
    { rewrite not_elem_of_app. split; assumption. }
    rewrite keep_first_absent by assumption.
    rewrite includes_single.
    apply existsb_eqb_false in Hsw as Hsw'. rewrite Hsw', andb_false_r.
    exists sg, w, []. rewrite app_nil_r. split; [reflexivity|].
    split; [assumption|]. split; [|left; reflexivity].
    rewrite Forall_forall in *. intros c Hcl.
    destruct (Hw c Hcl) as [?|[-> _]]; [assumption|].
    contradiction.
Qed.

Lemma digits_no_minus_comma (l : jsstring) :
  Forall (fun c => is_digit c = true) l ->
  (c_minus ∉ l) /\ (c_comma ∉ l) /\ (c_dot ∉ l).
Proof. intros H. repeat split; apply digits_absent; auto. Qed.

(** Well-formed text passes through the handler unchanged. *)
Lemma number_input_text_fixed (fmt : Number_Format) (s : jsstring) :
  numeric_text (decimals fmt) s -> number_input_text fmt s = s.
Proof.
  intros (sg & ip & tail & -> & Hsg & Hip & Htail).
  destruct (digits_no_minus_comma ip Hip) as (Hm & Hc & Hd).
  assert (Hsgm : (c_comma ∉ sg) /\ (c_dot ∉ sg)).
  { destruct Hsg as [-> | ->]; split;
      rewrite ?not_elem_of_cons; repeat split;
      try discriminate; try apply not_elem_of_nil. }
  destruct Hsgm as [Hsgc Hsgd].
  assert (Hall : Forall (fun c => is_digit c = true \/ c = c_minus) (sg ++ ip)).
  { apply Forall_app. split.
    - destruct Hsg as [-> | ->];
        [constructor | constructor; [right; reflexivity | constructor]].
    - eapply Forall_impl; [exact Hip|]. cbn beta. auto. }
  assert (Hfirst : match sg ++ ip ++ tail with
                   | c :: _ => if c =? c_minus then [c_minus] else []
                   | [] => []
                   end = sg
                   /\ remove_all (fun c => c =? c_minus) (sg ++ ip ++ tail)
                      = ip ++ tail).
  { assert (Hrest : remove_all (fun c => c =? c_minus) (ip ++ tail) = ip ++ tail).
    { apply remove_all_absent. rewrite not_elem_of_app. split; [assumption|].
      destruct Htail as [-> | (fp & -> & _ & Hfp & _)]; [apply not_elem_of_nil|].
      rewrite not_elem_of_cons. split; [discriminate|].
      apply digits_absent; auto. }
    destruct Hsg as [-> | ->]; cbn [app].
    - split; [|exact Hrest].
      destruct ip as [|c ip'].
      + destruct Htail as [-> | (fp & -> & _)]; reflexivity.
      + apply Forall_cons in Hip as [Hc0 _]. cbn [app].
        destruct (N.eqb_spec c c_minus) as [->|_]; [discriminate Hc0 | reflexivity].
    - split; [reflexivity|].
      unfold remove_all in *. cbn [List.filter]. rewrite N.eqb_refl. cbn [negb].
      exact Hrest. }
  destruct Hfirst as [Hf Hr].
  unfold number_input_text. cbv zeta.
  rewrite !minus_step.
  destruct Htail as [-> | (fp & -> & Hdpos & Hfp & Hlen)].
  - rewrite !app_nil_r in *.
    assert (Hdot : c_dot ∉ sg ++ ip) by (rewrite not_elem_of_app; auto).
    rewrite replace_first_absent by assumption.
    assert (Hv2 : (if (0 <? decimals fmt)%Z
                   then remove_all (fun c => negb (is_digit c || (c =? c_comma)
                                                   || (c =? c_minus))) (sg ++ ip)
                   else remove_all (fun c => negb (is_digit c || (c =? c_minus)))
                          (sg ++ ip)) = sg ++ ip).
    { destruct (0 <? decimals fmt)%Z; apply remove_all_id;
        (eapply Forall_impl; [exact Hall|]); cbn beta; intros c [Hc0 | ->];
        rewrite ?Hc0; reflexivity. }
    rewrite Hv2, Hf, Hr.
    assert (Hcomma : c_comma ∉ sg ++ ip) by (rewrite not_elem_of_app; auto).
    rewrite keep_first_absent by assumption.
    rewrite includes_single.
    apply existsb_eqb_false in Hcomma. rewrite Hcomma, andb_false_r.
    reflexivity.
  - destruct (digits_no_minus_comma fp Hfp) as (Hfm & Hfc & Hfd).
    assert (Hdot : c_dot ∉ sg ++ ip ++ c_comma :: fp).
    { rewrite !not_elem_of_app, not_elem_of_cons. repeat split; auto;
        discriminate. }
    rewrite replace_first_absent by assumption.
    apply Z.ltb_lt in Hdpos as Hd'. rewrite Hd'. cbn [andb].
    rewrite remove_all_id.
    2:{ rewrite app_assoc. apply Forall_app. split.
        - eapply Forall_impl; [exact Hall|]. cbn beta. intros c [Hc0 | ->];
            rewrite ?Hc0; reflexivity.
        - constructor; [reflexivity|].
          eapply Forall_impl; [exact Hfp|]. cbn beta. intros c Hc0.
          rewrite Hc0. reflexivity. }
    rewrite Hf, Hr.
    assert (Hsa : c_comma ∉ sg ++ ip) by (rewrite not_elem_of_app; auto).
    rewrite (app_assoc sg ip), keep_first_split by assumption.
    rewrite remove_all_absent by assumption.
    rewrite includes_single, existsb_app. cbn [existsb].
    rewrite N.eqb_refl, orb_true_r.
    rewrite split_first by assumption.
    cbn [lookup list_lookup default from_option id].
    rewrite take_ge by lia. reflexivity.
Qed.

End NumericText.

Section DecimalLiterals.
Local Open Scope Z_scope.
Local Open Scope list_scope.

Lemma shr_1_nonneg (mrs : shr_record) : 0 <= shr_m mrs -> 0 <= shr_m (shr_1 mrs).
Proof.
  destruct mrs as [m r s]. cbn [shr_m]. intros Hm.
  destruct m as [|p|p]; [| |lia]; cbn; [lia|].
  destruct p; cbn; lia.
Qed.

Lemma shr_nonneg (mrs : shr_record) (e n : Z) :
  0 <= shr_m mrs -> 0 <= shr_m (fst (shr mrs e n)).
Proof.
  intros Hm. destruct n as [|p|p]; cbn [shr fst]; try assumption.
  rewrite iter_pos_iter. apply Pos.iter_invariant; [|assumption].
  intros x. apply shr_1_nonneg.
Qed.

Lemma shr_fexp_nonneg (m e : Z) (l : location) :
  0 <= m -> 0 <= shr_m (fst (shr_fexp prec emax m e l)).
Proof.
  intros Hm. unfold shr_fexp. apply shr_nonneg.
  destruct l as [|[| |]]; exact Hm.
Qed.

Lemma round_nearest_even_nonneg (m : Z) (l : location) :
  0 <= m -> 0 <= round_nearest_even m l.
Proof.
  intros Hm. destruct l as [|[| |]]; cbn [round_nearest_even]; try lia.
  destruct (Z.even m); lia.
Qed.

Lemma binary_round_aux_not_nan (sx : bool) (mx ex : Z) (lx : location) :
  0 <= mx -> isNaN (binary_round_aux prec emax sx mx ex lx) = false.
Proof.
  intros Hm. unfold binary_round_aux.
  pose proof (shr_fexp_nonneg mx ex lx Hm) as H1.
  destruct (shr_fexp prec emax mx ex lx) as [mrs' e']. cbn [fst] in H1.
  pose proof (shr_fexp_nonneg _ e' loc_Exact
                (round_nearest_even_nonneg _ (loc_of_shr_record mrs') H1)) as H2.
  destruct (shr_fexp prec emax _ e' loc_Exact) as [mrs'' e'']. cbn [fst] in H2.
  destruct (shr_m mrs'') as [|p|p]; [reflexivity | | lia].
  destruct (e'' <=? emax - prec); reflexivity.
Qed.

Lemma binary_normalize_not_nan (m e : Z) (szero : bool) :
  isNaN (binary_normalize prec emax m e szero) = false.
Proof.
  destruct m as [|p|p]; cbn [binary_normalize]; [reflexivity | |];
    unfold binary_round;
    destruct (shl_align _ _ _) as [mz ez];
    apply binary_round_aux_not_nan; lia.
Qed.

Lemma SFdiv_finite_not_nan (sx sy : bool) (mx my : positive) (ex ey : Z) :
  isNaN (SFdiv prec emax (S754_finite sx mx ex) (S754_finite sy my ey)) = false.
Proof.
  cbn [SFdiv]. unfold SFdiv_core_binary. cbv zeta.
  set (m' := match _ with Z0 => Zpos mx | Zpos _ => _ | Zneg _ => 0 end).
  assert (Hm : 0 <= m').
  { subst m'. destruct (_ - _ - _) as [|p|p]; try lia.
    apply Z.shiftl_nonneg. lia. }
  pose proof (Z.div_pos m' (Zpos my) Hm ltac:(lia)) as Hq.
  unfold Z.div in Hq. destruct (Z.div_eucl m' (Zpos my)) as [q r].
  apply binary_round_aux_not_nan. exact Hq.
Qed.

(** The value of a decimal literal is never NaN. *)
Lemma of_decimal_not_nan (neg : bool) (m e10 : Z) :
  isNaN (of_decimal neg m e10) = false.
Proof.
  unfold of_decimal. destruct m as [|p|p]; try reflexivity.
  destruct (400 <? e10); [reflexivity|].
  destruct (_ <? -400); [reflexivity|].
  destruct (0 <=? e10).
  - apply binary_normalize_not_nan.
  - apply SFdiv_finite_not_nan.
Qed.

End DecimalLiterals.

Section ParseFloatOnNumericText.
Local Open Scope N_scope.
Local Open Scope list_scope.

Lemma digit_range (c : jschar) : is_digit c = true -> 48 <= c <= 57.
Proof.
  unfold is_digit. rewrite andb_true_iff, !N.leb_le. tauto.
Qed.

Lemma digit_head (c : jschar) :
  is_digit c = true ->
  is_space c = false /\ (c =? c_minus) = false /\ (c =? c_plus) = false
  /\ (c =? 73) = false /\ (c =? c_dot) = false /\ (c =? c_comma) = false.
Proof.
  intros H. apply digit_range in H.
  unfold is_space, c_minus, c_plus, c_dot, c_comma.
  repeat match goal with
         | |- context [(?a <=? ?b)] =>
             destruct (N.leb_spec a b); try lia
         | |- context [(?a =? ?b)] =>
             destruct (N.eqb_spec a b); try lia
         end; repeat split; reflexivity.
Qed.

Lemma span_digits_app (ip rest : jsstring) :
  Forall (fun c => is_digit c = true) ip ->
  match rest with [] => True | c :: _ => is_digit c = false end ->
  span_digits (ip ++ rest) = (ip, rest).
Proof.
  intros Hip Hrest. induction Hip as [|c ip Hc _ IH]; cbn [app span_digits].
  - destruct rest as [|c rest]; [reflexivity|]. cbn [span_digits].
    rewrite Hrest. reflexivity.
  - rewrite Hc, IH. reflexivity.
Qed.

Lemma drop_space_id (s : jsstring) :
  match s with [] => True | c :: _ => is_space c = false end ->
  drop_space s = s.
Proof. destruct s as [|c s]; [reflexivity|]. cbn. intros ->. reflexivity. Qed.

Lemma trim_id (s : jsstring) :
  Forall (fun c => is_space c = false) s -> trim s = s.
Proof.
  intros H. unfold trim.
  rewrite (drop_space_id s) by (destruct H; auto).
  rewrite drop_space_id, rev_involutive; [reflexivity|].
  apply Forall_rev in H. destruct H; auto.
Qed.

Lemma replace_first_app_absent (c d : jschar) (a b : jsstring) :
  c ∉ a -> replace_first c d (a ++ b) = a ++ replace_first c d b.
Proof.
  induction a as [|x a IH]; [reflexivity|].
  rewrite not_elem_of_cons. intros [Hx Ha]. cbn [app replace_first].
  destruct (N.eqb_spec x c) as [->|_]; [congruence|]. rewrite IH; auto.
Qed.

Lemma parseFloat_head (x : jschar) (rest : jsstring) :
  is_space x = false -> (x =? c_minus) = false -> (x =? c_plus) = false ->
  (x =? 73) = false ->
  parseFloat (x :: rest)
  = let '(ip, s1) := span_digits (x :: rest) in
    let '(fp, s2) :=
      match s1 with
      | c :: r => if c =? c_dot then span_digits r else ([], s1)
      | [] => ([], s1)
      end in
    match ip, fp with
    | [], [] => NaN
    | _, _ => of_decimal false (Z_of_digits (ip ++ fp))
                (exponent_part s2 - Z.of_nat (length fp))%Z
    end.
Proof.
  intros Hs Hm Hp Hi. unfold parseFloat. cbn [drop_space]. rewrite Hs, Hm, Hp.
  change (lit "Infinity") with (73 :: lit "nfinity").
  cbn [startsWith]. rewrite Hi. reflexivity.
Qed.

Lemma parseFloat_minus (x : jschar) (rest : jsstring) :
  (x =? 73) = false ->
  parseFloat (c_minus :: x :: rest)
  = let '(ip, s1) := span_digits (x :: rest) in
    let '(fp, s2) :=
      match s1 with
      | c :: r => if c =? c_dot then span_digits r else ([], s1)
      | [] => ([], s1)
      end in
    match ip, fp with
    | [], [] => NaN
    | _, _ => of_decimal true (Z_of_digits (ip ++ fp))
                (exponent_part s2 - Z.of_nat (length fp))%Z
    end.
Proof.
  intros Hi. unfold parseFloat. cbn [drop_space].
  change (is_space c_minus) with false. cbv iota.
  change (c_minus =? c_minus) with true. cbv iota.
  change (lit "Infinity") with (73 :: lit "nfinity").
  cbn [startsWith]. rewrite Hi. reflexivity.
Qed.

(** [parseFloat] on a sign, digits, and possibly a dot followed by digits. *)
Lemma parseFloat_numeric (neg : bool) (ip fp tail : jsstring) :
  Forall (fun c => is_digit c = true) ip ->
  Forall (fun c => is_digit c = true) fp ->
  ip ++ fp <> [] ->
  tail = c_dot :: fp \/ (tail = [] /\ fp = []) ->
  parseFloat ((if neg then [c_minus] else []) ++ ip ++ tail)
  = of_decimal neg (Z_of_digits (ip ++ fp)) (0 - Z.of_nat (length fp)).
Proof.
  intros Hip Hfp Hne Ht.
  assert (Hhead : exists x rest, ip ++ tail = x :: rest
            /\ is_space x = false /\ (x =? c_minus) = false
            /\ (x =? c_plus) = false /\ (x =? 73) = false).
  { destruct ip as [|c ip'].
    - destruct Ht as [-> | [-> ->]]; [|contradiction Hne; reflexivity].
      exists c_dot, fp. repeat split; reflexivity.
    - apply Forall_cons in Hip as [Hc _].
      destruct (digit_head c Hc) as (Hs & Hm & Hp & Hi & _).
      exists c, (ip' ++ tail). repeat split; assumption. }
  destruct Hhead as (x & rest & E & Hs & Hm & Hp & Hi).
  assert (Hspan : span_digits (ip ++ tail) = (ip, tail)).
  { apply span_digits_app; [assumption|].
    destruct Ht as [-> | [-> _]]; [reflexivity | exact I]. }
  assert (Hfpspan : span_digits fp = (fp, [])).
  { rewrite <- (app_nil_r fp) at 1. apply span_digits_app; [assumption | exact I]. }
  assert (Hmatch : forall (A : Type) (a b : A),
            match ip, fp with [], [] => a | _, _ => b end = b).
  { intros A a b. destruct ip, fp; try reflexivity.
    contradiction Hne; reflexivity. }
  assert (Hrest :
    (let '(ip0, s1) := span_digits (ip ++ tail) in
     let '(fp0, s2) :=
       match s1 with
       | c :: r => if c =? c_dot then span_digits r else ([], s1)
       | [] => ([], s1)
       end in
     match ip0, fp0 with
     | [], [] => NaN
     | _, _ => of_decimal neg (Z_of_digits (ip0 ++ fp0))
                 (exponent_part s2 - Z.of_nat (length fp0))%Z
     end)
    = of_decimal neg (Z_of_digits (ip ++ fp)) (0 - Z.of_nat (length fp))).
  { rewrite Hspan. destruct Ht as [-> | [-> ->]].
    - change (c_dot =? c_dot) with true. cbv iota. rewrite Hfpspan.
      rewrite Hmatch. reflexivity.
    - rewrite Hmatch. reflexivity. }
  destruct neg; cbn [app]; rewrite E.
  - rewrite parseFloat_minus by assumption. rewrite <- E. exact Hrest.
  - rewrite parseFloat_head by assumption. rewrite <- E. exact Hrest.
Qed.

End ParseFloatOnNumericText.

Section NumericTextReads.
Local Open Scope N_scope.
Local Open Scope list_scope.

Lemma has_digit_not_marker (raw : jsstring) (c : jschar) :
  c ∈ raw -> is_digit c = true ->
  jsstring_eqb raw [] || jsstring_eqb raw [c_minus] || jsstring_eqb raw [c_dot]
  = false.
Proof.
  intros Hin Hc.
  assert (H : forall X, Forall (fun x => is_digit x = false) X ->
                        jsstring_eqb raw X = false).
  { intros X HX. destruct (jsstring_eqb raw X) eqn:E; [|reflexivity].
    apply jsstring_eqb_eq in E. subst X. rewrite Forall_forall in HX.
    apply HX in Hin. congruence. }
  rewrite !H; [reflexivity | | |]; repeat constructor.
Qed.

(** Well-formed numeric text is blank or reads as a number. *)
Lemma numeric_text_reads (d : Z) (s : jsstring) :
  numeric_text d s ->
  trim s = s
  /\ (string_is_blank s = true \/ exists n, number_value_parse s = Some n).
Proof.
  intros (sg & ip & tail & -> & Hsg & Hip & Htail).
  assert (Hneg : exists neg : bool, sg = if neg then [c_minus] else []).
  { destruct Hsg as [-> | ->]; [exists false | exists true]; reflexivity. }
  destruct Hneg as [neg ->]. clear Hsg.
  set (fp := match tail with _ :: fp => fp | [] => [] end).
  assert (Hfp : Forall (fun c => is_digit c = true) fp).
  { subst fp. destruct Htail as [-> | (fp & -> & _ & H & _)];
      [constructor | exact H]. }
  assert (Htl : tail = c_comma :: fp \/ (tail = [] /\ fp = [])).
  { subst fp. destruct Htail as [-> | (fp & -> & _)]; [right | left]; auto. }
  clearbody fp. clear Htail.
  assert (Hdsp : forall l, Forall (fun c => is_digit c = true) l ->
                           Forall (fun c => is_space c = false) l).
  { intros l Hl. eapply Forall_impl; [exact Hl|]. cbn beta.
    intros c Hc. apply (digit_head c Hc). }
  assert (Hsp : Forall (fun c => is_space c = false)
                   ((if neg then [c_minus] else []) ++ ip ++ tail)).
  { rewrite !Forall_app. repeat split.
    - destruct neg; repeat constructor.
    - apply Hdsp, Hip.
    - destruct Htl as [-> | [-> _]]; [|constructor].
      constructor; [reflexivity | apply Hdsp, Hfp]. }
  split; [apply trim_id, Hsp|].
  destruct (ip ++ fp) as [|c rest] eqn:Enum.
  - left. apply app_eq_nil in Enum as [-> ->].
    destruct neg, Htl as [-> | [-> _]]; reflexivity.
  - right.
    assert (Hne : ip ++ fp <> []) by (rewrite Enum; discriminate).
    assert (Hc : c ∈ ip ++ fp /\ is_digit c = true).
    { assert (Hall : Forall (fun c => is_digit c = true) (ip ++ fp))
        by (apply Forall_app; split; assumption).
      rewrite Enum in *. apply Forall_cons in Hall as [Hc0 _].
      split; [left | exact Hc0]. }
    destruct Hc as [Hcin Hcd]. clear Enum rest.
    destruct (digits_no_minus_comma ip Hip) as (_ & Hipc & _).
    assert (Hsgc : c_comma ∉ (if neg then [c_minus] else []) ++ ip).
    { rewrite not_elem_of_app. split; [|assumption].
      destruct neg; [|apply not_elem_of_nil].
      rewrite not_elem_of_cons. split; [discriminate | apply not_elem_of_nil]. }
    set (tail' := replace_first c_comma c_dot tail).
    assert (Htl' : tail' = c_dot :: fp \/ (tail' = [] /\ fp = [])).
    { subst tail'. destruct Htl as [-> | [-> ->]]; [left | right]; auto. }
    assert (Hraw : replace_first c_comma c_dot
                     (remove_all is_space
                        ((if neg then [c_minus] else []) ++ ip ++ tail))
                   = (if neg then [c_minus] else []) ++ ip ++ tail').
    { rewrite remove_all_id by exact Hsp.
      rewrite app_assoc, replace_first_app_absent by assumption.
      rewrite <- app_assoc. reflexivity. }
    exists (of_decimal neg (Z_of_digits (ip ++ fp)) (0 - Z.of_nat (length fp))).
    unfold number_value_parse. cbv zeta. rewrite Hraw.
    rewrite (has_digit_not_marker _ c).
    + rewrite (parseFloat_numeric _ ip fp tail') by assumption.
      rewrite of_decimal_not_nan. reflexivity.
    + apply elem_of_app in Hcin as [Hcin | Hcin].
      * rewrite !elem_of_app. auto.
      * destruct Htl' as [-> | [_ ->]].
        -- rewrite !elem_of_app. right. right. right. exact Hcin.
        -- apply elem_of_nil in Hcin. contradiction.
    + exact Hcd.
Qed.

End NumericTextReads.

Section NumberInputHandler.
Local Open Scope N_scope.
Local Open Scope list_scope.

Lemma validate_number_value_numeric (i : Input) (d : Z) (e : option jsstring) :
  numeric_text d (input_value i) ->
  validate_number_value i = Some e ->
  (e = None \/ (exists s, e = Some (MSG_MIN ++ s))
   \/ (exists s, e = Some (MSG_MAX ++ s)))
  /\ (data_min i = None -> data_max i = None -> e = None).
Proof.
  intros Hnum. destruct (numeric_text_reads d _ Hnum) as [Htrim Hread].
  unfold validate_number_value. cbv zeta. rewrite Htrim.
  destruct (string_is_blank (input_value i)) eqn:Hb.
  { intros [= <-]. split; auto. }
  destruct Hread as [Hread | [n Hn]]; [congruence|]. rewrite Hn.
  destruct (parse_bound (data_min i)) as [lo|] eqn:Hlo,
           (parse_bound (data_max i)) as [hi|] eqn:Hhi.
  all: repeat match goal with
         | |- context [if ?b then _ else _] => destruct b
         | |- context [number_format_value ?v ?f] =>
             destruct (number_format_value v f); cbn [mbind option_bind]
         end.
  all: intros [= <-] || discriminate.
  all: split;
    [ first [ left; reflexivity
            | right; left; eexists; reflexivity
            | right; right; eexists; reflexivity ]
    | intros Hmin Hmax; rewrite ?Hmin, ?Hmax in *; try discriminate;
      reflexivity ].
Qed.

(** X1: [number_input_text] (the text [table_handle_input_number] writes
    back): whatever is typed, the field is left holding an optional leading
    minus, digits, and (only for a mask with decimals) one comma followed by
    at most as many digits as the mask has decimals; handling that text
    again changes nothing. *)
Theorem number_input_text_normal_form (fmt : Number_Format) (value : jsstring) :
  numeric_text (decimals fmt) (number_input_text fmt value)
  /\ number_input_text fmt (number_input_text fmt value)
     = number_input_text fmt value.
Proof.
  pose proof (number_input_text_numeric fmt value) as Hshape.
  split; [exact Hshape|].
  apply number_input_text_fixed. exact Hshape.
Qed.

(** X2: [table_handle_input_number]: after the handler has run, the field
    never carries the "malformed number" error: its text is blank or reads
    as a number, so the only errors left are the bound errors, and a field
    without bounds is left free of error markers. *)
Theorem table_handle_input_number_reads (target target' : Input)
  (popups popups' : nat) :
  table_handle_input_number target popups = Some (target', popups') ->
  let fmt := number_format_parse (default (lit "###0") (data_format target)) in
  input_value target' = number_input_text fmt (input_value target)
  /\ (string_is_blank (input_value target') = true
      \/ exists n, number_value_parse (input_value target') = Some n)
  /\ data_errorMessage target' <> Some MSG_NUMBER
  /\ (data_min target = None -> data_max target = None -> error_free target').
Proof.
  intros H fmt. unfold table_handle_input_number in H. cbv zeta in H.
  fold fmt in H.
  set (text := number_input_text fmt (input_value target)) in *.
  assert (Hnum : numeric_text (decimals fmt) text)
    by apply number_input_text_numeric.
  destruct (validate_number_value (set_value target text)) as [e|] eqn:Hv;
    [|discriminate H].
  cbn [mbind option_bind] in H. injection H as H.
  apply (f_equal fst) in H. cbn [fst] in H.
  destruct (validate_number_value_numeric (set_value target text) _ e Hnum Hv)
    as [Hcases Hfree].
  assert (Hval : input_value target' = text).
  { subst target'. unfold report.
    destruct (present e); reflexivity. }
  split; [exact Hval|]. split.
  { rewrite Hval. apply (numeric_text_reads _ _ Hnum). }
  split.
  - subst target'. unfold report.
    destruct Hcases as [-> | [[s ->] | [s ->]]]; cbn; discriminate.
  - intros Hmin Hmax. rewrite (Hfree Hmin Hmax) in H. subst target'.
    apply input_clear_error_free.
Qed.

Lemma table_handle_input_number_reads_witness :
  let target := sample_input "Ilosc" "-12a3" false None in
  let target' := input_clear_error (set_value target (lit "-123")) in
  table_handle_input_number target 2 = Some (target', 1%nat)
  /\ data_errorMessage target' <> Some MSG_NUMBER
  /\ error_free target'.
Proof.
  cbv zeta.
  assert (H : table_handle_input_number
                (sample_input "Ilosc" "-12a3" false None) 2
              = Some (input_clear_error
                        (set_value (sample_input "Ilosc" "-12a3" false None)
                                   (lit "-123")), 1%nat))
    by (vm_compute; reflexivity).
  split; [exact H|].
  destruct (table_handle_input_number_reads _ _ _ _ H) as (_ & _ & Hm & Hf).
  split; [exact Hm | apply Hf; reflexivity].
Defined.

End NumberInputHandler.

Section StringInputHandler.
Local Open Scope N_scope.
Local Open Scope list_scope.

Ltac digits_true :=
  repeat match goal with
         | H : is_digit ?a = true |- context [is_digit ?a] => rewrite H
         end.

(** The verdict of [input_format_error_get] on dash-grouped digits. *)
Lemma dash_pairs_verdict (ds format : jsstring) :
  Forall (fun c => is_digit c = true) ds -> (length ds <= 8)%nat ->
  jsstring_eqb format [c_dollar] = false ->
  truthy (dash_pairs ds) && negb (validate_string_pattern (dash_pairs ds) format)
  = (length ds =? 3)%nat || (length ds =? 5)%nat || (length ds =? 7)%nat.
Proof.
  intros Hds Hlen Hfmt. unfold validate_string_pattern. rewrite Hfmt.
  do 9 (destruct ds as [|? ds];
        [ repeat match goal with
                 | H : Forall _ (_ :: _) |- _ =>
                     apply Forall_cons in H as [? H]
                 end;
          cbn [dash_pairs truthy jsstring_eqb matches_pairs length Nat.eqb
               orb andb negb];
          digits_true;
          reflexivity |]).
  cbn [length] in Hlen. lia.
Qed.

(** X3: [table_handle_input_string] on a field with a digit mask: the text
    becomes the dash-grouped digits, and the field is left with the pattern
    error exactly when 3, 5 or 7 digits have been typed; with any other
    number of digits it is left without an error. *)
Theorem table_handle_input_string_odd_digits (target : Input) (popups : nat)
  (format : jsstring) :
  data_format target = Some format ->
  jsstring_eqb format [c_dollar] = false ->
  includes format [c_hash] = true ->
  let n := length (List.filter is_digit (input_value target)) in
  let target' := fst (table_handle_input_string target popups) in
  input_value target' = string_format_pattern (input_value target)
  /\ data_errorMessage target'
     = if (n =? 3)%nat || (n =? 5)%nat || (n =? 7)%nat
       then Some MSG_PATTERN else None.
Proof.
  intros Hf Hd Hh n target'. subst target'.
  unfold table_handle_input_string. rewrite Hf. cbn [default from_option id].
  rewrite Hd, Hh.
  set (t := set_value target (string_format_pattern (input_value target))).
  assert (Hp : present (data_format t) = Some format).
  { subst t. cbn [data_format set_value]. rewrite Hf.
    destruct format; [discriminate Hh | reflexivity]. }
  assert (He : input_format_error_get t
               = if (n =? 3)%nat || (n =? 5)%nat || (n =? 7)%nat
                 then Some MSG_PATTERN else None).
  { unfold input_format_error_get. rewrite Hp, Hd, Hh. cbn [andb].
    subst t. cbn [input_value set_value].
    rewrite string_format_pattern_pairs.
    pose proof (filter_all_digits (input_value target)) as Hall.
    fold n. set (ds := List.filter is_digit (input_value target)) in *.
    rewrite dash_pairs_verdict;
      [ | apply Forall_take; exact Hall | rewrite length_take; lia | exact Hd ].
    rewrite length_take. subst n.
    destruct (Nat.le_gt_cases (length ds) 8) as [Hle | Hgt].
    - rewrite Nat.min_r by lia. reflexivity.
    - rewrite Nat.min_l by lia.
      destruct (length ds) as [|[|[|[|[|[|[|[|k]]]]]]]]; try lia. reflexivity. }
  rewrite He. unfold report.
  destruct ((n =? 3)%nat || (n =? 5)%nat || (n =? 7)%nat); split; reflexivity.
Qed.

Lemma table_handle_input_string_odd_digits_witness :
  data_format masked_input = Some (lit "##-##-##-##")
  /\ jsstring_eqb (lit "##-##-##-##") [c_dollar] = false
  /\ includes (lit "##-##-##-##") [c_hash] = true
  /\ input_value (fst (table_handle_input_string masked_input 0)) = lit "12-3"
  /\ data_errorMessage (fst (table_handle_input_string masked_input 0))
     = Some MSG_PATTERN.
Proof.
  pose proof (table_handle_input_string_odd_digits masked_input 0%nat
                (lit "##-##-##-##") eq_refl eq_refl eq_refl) as H.
  cbv zeta in H. destruct H as [H1 H2].
  do 3 (split; [reflexivity|]).
  split; [exact (eq_trans H1 eq_refl) | exact (eq_trans H2 eq_refl)].
Defined.

End StringInputHandler.

Section BlankNumber.
Local Open Scope N_scope.
Local Open Scope list_scope.

Lemma remove_all_nil (cls : jschar -> bool) (s : jsstring) :
  remove_all cls s = [] <-> Forall (fun c => cls c = true) s.
Proof.
  unfold remove_all. induction s as [|x s IH]; cbn [List.filter].
  - split; [constructor | reflexivity].
  - rewrite Forall_cons. destruct (cls x); cbn [negb].
    + rewrite IH. tauto.
    + split; [discriminate | intros [? _]; discriminate].
Qed.

Lemma drop_space_Forall (P : jschar -> Prop) (s : jsstring) :
  Forall P s -> Forall P (drop_space s).
Proof.
  induction 1 as [|x s Hx Hs IH]; cbn [drop_space]; [constructor|].
  destruct (is_space x); [assumption | constructor; assumption].
Qed.

Lemma trim_Forall (P : jschar -> Prop) (s : jsstring) :
  Forall P s -> Forall P (trim s).
Proof.
  intros H. unfold trim.
  apply Forall_rev, drop_space_Forall, Forall_rev, drop_space_Forall, H.
Qed.

(** [parseFloat] finds no number in text made of separators. *)
Lemma parseFloat_separators (raw : jsstring) :
  Forall (fun c => c = c_comma \/ c = c_dot \/ c = c_minus) raw ->
  parseFloat raw = NaN.
Proof.
  intros H.
  do 3 (destruct raw as [|? raw]; [reflexivity|];
        apply Forall_cons in H as [[-> | [-> | ->]] H]);
    reflexivity.
Qed.

Lemma blank_not_a_number (value : jsstring) :
  string_is_blank value = true -> number_value_parse value = None.
Proof.
  unfold string_is_blank. rewrite jsstring_eqb_eq, remove_all_nil. intros H.
  unfold number_value_parse. cbv zeta.
  set (raw := replace_first c_comma c_dot (remove_all is_space value)).
  assert (Hraw : Forall (fun c => c = c_comma \/ c = c_dot \/ c = c_minus) raw).
  { subst raw.
    assert (H1 : Forall (fun c => c = c_comma \/ c = c_dot \/ c = c_minus)
                        (remove_all is_space value)).
    { pose proof (remove_all_keeps is_space value) as Hk.
      pose proof (remove_all_Forall _ is_space value H) as Ha.
      rewrite Forall_forall in *. intros c Hc.
      specialize (Hk c Hc). specialize (Ha c Hc). cbn beta in Ha, Hk.
      rewrite Hk in Ha. cbn [orb] in Ha.
      rewrite !orb_true_iff, !N.eqb_eq in Ha. tauto. }
    induction H1 as [|x l Hx Hl IH]; cbn [replace_first]; [constructor|].
    destruct (x =? c_comma); constructor; auto. }
  destruct (jsstring_eqb raw [] || jsstring_eqb raw [c_minus]
            || jsstring_eqb raw [c_dot]); [reflexivity|].
  rewrite parseFloat_separators by exact Hraw. reflexivity.
Qed.

(** X4: [string_is_blank], [validate_number_value], [number_value_parse]: a
    numeric field that holds nothing but spaces, commas, dots and dashes
    counts as empty: it raises no format error and nothing is written for
    it into the payload. *)
Theorem blank_number_field (i : Input) :
  string_is_blank (input_value i) = true ->
  validate_number_value i = Some None
  /\ number_value_parse (input_value i) = None
  /\ forall data, serialize_number data (NumberInput i) = data.
Proof.
  intros H.
  assert (Hparse : number_value_parse (input_value i) = None)
    by (apply blank_not_a_number; exact H).
  split; [|split; [exact Hparse|]].
  - unfold validate_number_value. cbv zeta.
    assert (Ht : string_is_blank (trim (input_value i)) = true).
    { unfold string_is_blank in *. rewrite jsstring_eqb_eq, remove_all_nil in *.
      apply trim_Forall. exact H. }
    rewrite Ht. reflexivity.
  - intros data. cbn [serialize_number]. rewrite Hparse. reflexivity.
Qed.

Lemma blank_number_field_witness :
  let i := sample_input "Ilosc" " -, " false None in
  string_is_blank (input_value i) = true
  /\ validate_number_value i = Some None
  /\ serialize_number ∅ (NumberInput i) = ∅.
Proof.
  cbv zeta.
  assert (H : string_is_blank
                (input_value (sample_input "Ilosc" " -, " false None)) = true)
    by reflexivity.
  destruct (blank_number_field _ H) as (Hv & _ & Hs).
  split; [exact H|]. split; [exact Hv | exact (Hs ∅)].
Defined.

End BlankNumber.

Section MultiExclusiveProperties.
Local Open Scope N_scope.
Local Open Scope list_scope.

Lemma update_value_boxes (c : MultiExclusive) :
  exclusive (multi_exclusive_update_value c) = exclusive c
  /\ regular (multi_exclusive_update_value c) = regular c.
Proof.
  unfold multi_exclusive_update_value.
  destruct (multi_value c); split; reflexivity.
Qed.

Lemma exclusion_update_value (c : MultiExclusive) :
  exclusion c -> exclusion (multi_exclusive_update_value c).
Proof.
  unfold exclusion. destruct (update_value_boxes c) as [-> ->]. auto.
Qed.

Lemma selected_checked_values (c : MultiExclusive) :
  exclusion c -> selected c = checked_values c.
Proof.
  unfold exclusion, selected, checked_values.
  destruct (exclusive c) as [ex|]; [|reflexivity].
  change (option_list (Some ex) ++ regular c) with (ex :: regular c).
  cbn [List.filter]. destruct (checked ex) eqn:E; [|reflexivity].
  intros H. specialize (H eq_refl). cbn [map]. f_equal.
  induction H as [|cb l Hcb _ IH]; [reflexivity|].
  cbn [List.filter]. rewrite Hcb. exact IH.
Qed.

Lemma update_value_value (c : MultiExclusive) :
  multi_value (multi_exclusive_update_value c)
  = (fun _ => join c_comma (selected c)) <$> multi_value c.
Proof.
  unfold multi_exclusive_update_value.
  destruct (multi_value c) eqn:E; cbn [multi_value]; rewrite ?E; reflexivity.
Qed.

(** X5: [multi_exclusive_handle_change], [multi_exclusive_update_value]: a
    click on any check box of a multi-select field keeps the exclusive
    option and the regular options from being checked together, and leaves
    the hidden input holding the values of the checked boxes joined by
    commas. *)
Theorem multi_exclusive_click (c c' : MultiExclusive) (target : ChangeTarget) :
  exclusion c ->
  checkbox_click c target = Some c' ->
  exclusion c'
  /\ multi_value c' = (fun _ => join c_comma (checked_values c')) <$> multi_value c
  /\ map checkbox_value (regular c') = map checkbox_value (regular c)
  /\ (checkbox_value <$> exclusive c') = (checkbox_value <$> exclusive c).
Proof.
  intros Hex Hclick. unfold checkbox_click, multi_exclusive_handle_change in Hclick.
  destruct (target_checked (checkbox_toggle c target) target) as [b|] eqn:Ht;
    [|discriminate Hclick].
  injection Hclick as <-.
  set (c1 := match target with ExclusiveOption => _ | RegularOption _ => _ end).
  assert (H1 : exclusion c1
               /\ multi_value c1 = multi_value c
               /\ map checkbox_value (regular c1) = map checkbox_value (regular c)
               /\ (checkbox_value <$> exclusive c1)
                  = (checkbox_value <$> exclusive c)).
  { subst c1. unfold exclusion in *. destruct target as [|k];
      cbn [target_checked checkbox_toggle exclusive regular multi_value] in *.
    - destruct (exclusive c) as [ex|]; cbn in Ht. 2: discriminate Ht.
      injection Ht as Ht. cbn [fmap option_map option_fmap].
      destruct b; cbn [exclusive regular multi_value checkbox_value set_checked
                       checked option_map].
      + repeat split.
        * intros _. apply Forall_forall. intros cb Hcb.
          apply list_elem_of_fmap in Hcb as (cb0 & -> & _). reflexivity.
        * rewrite map_map. reflexivity.
      + repeat split. congruence.
    - rewrite list_lookup_alter_eq in Ht.
      destruct (regular c !! k) as [cb|] eqn:Ek; cbn in Ht. 2: discriminate Ht.
      injection Ht as Ht.
      assert (Hvals : map checkbox_value
                        (alter (fun cb => set_checked cb (negb (checked cb))) k
                               (regular c))
                      = map checkbox_value (regular c)).
      { clear -c. revert k. induction (regular c) as [|x l IH]; intros [|k];
          cbn; try reflexivity. f_equal. apply IH. }
      destruct b; cbn [exclusive regular multi_value].
      + repeat split; [|exact Hvals|].
        * destruct (exclusive c) as [ex|]; cbn; [discriminate | exact I].
        * destruct (exclusive c); reflexivity.
      + repeat split; [|exact Hvals].
        destruct (exclusive c) as [ex|]; [|exact I]. intros Hc.
        specialize (Hex Hc). rewrite Forall_forall in Hex.
        assert (Hcb : checked cb = false)
          by (apply Hex; eapply list_elem_of_lookup_2; exact Ek).
        rewrite Hcb in Ht. discriminate Ht. }
  clearbody c1. destruct H1 as (He & Hv & Hr & Hx).
  destruct (update_value_boxes c1) as [Eex Ereg].
  split; [apply exclusion_update_value, He|].
  split; [|rewrite Eex, Ereg; split; assumption].
  rewrite update_value_value, Hv.
  rewrite (selected_checked_values c1 He).
  unfold checked_values. rewrite Eex, Ereg. reflexivity.
Qed.

Lemma multi_exclusive_click_witness :
  exclusion scenario_C
  /\ checkbox_click scenario_C ExclusiveOption
     = Some {| exclusive :=
                 Some {| checkbox_value := lit "none"; checked := true |};
               regular := [ {| checkbox_value := lit "A"; checked := false |};
                            {| checkbox_value := lit "B"; checked := false |} ];
               multi_value := Some (lit "none") |}
  /\ exclusion {| exclusive :=
                    Some {| checkbox_value := lit "none"; checked := true |};
                  regular := [ {| checkbox_value := lit "A"; checked := false |};
                               {| checkbox_value := lit "B"; checked := false |} ];
                  multi_value := Some (lit "none") |}.
Proof.
  assert (H : exclusion scenario_C) by (intros Hc; discriminate Hc).
  split; [exact H|].
  assert (E : checkbox_click scenario_C ExclusiveOption
              = Some {| exclusive :=
                          Some {| checkbox_value := lit "none"; checked := true |};
                        regular :=
                          [ {| checkbox_value := lit "A"; checked := false |};
                            {| checkbox_value := lit "B"; checked := false |} ];
                        multi_value := Some (lit "none") |})
    by reflexivity.
  split; [exact E|].
  exact (proj1 (multi_exclusive_click _ _ _ H E)).
Defined.

Lemma split_cons_sep (c : jschar) (a b : jsstring) :
  c ∉ a -> split c (a ++ c :: b) = a :: split c b.
Proof.
  intros Ha. assert (Hne : exists hd tl, split c b = hd :: tl).
  { clear. induction b as [|x b (hd & tl & IH)]; cbn [split].
    - eauto.
    - rewrite IH. destruct (x =? c); eauto. }
  destruct Hne as (hd & tl & Hb).
  induction a as [|x a IH]; cbn [app split].
  - rewrite Hb, N.eqb_refl. reflexivity.
  - apply not_elem_of_cons in Ha as [Hx Ha]. rewrite IH by assumption.
    destruct (N.eqb_spec x c) as [->|_]; [congruence | reflexivity].
Qed.

Lemma split_join (c : jschar) (l : list jsstring) :
  Forall (fun v => c ∉ v) l -> l <> [] -> split c (join c l) = l.
Proof.
  induction 1 as [|v l Hv Hl IH]; [congruence|]. intros _.
  destruct l as [|w l].
  - cbn [join]. apply split_absent, Hv.
  - change (join c (v :: w :: l)) with (v ++ c :: join c (w :: l)).
    rewrite split_cons_sep by assumption. rewrite IH by discriminate.
    reflexivity.
Qed.

Lemma join_nil (c : jschar) (l : list jsstring) :
  Forall (fun v => v <> []) l -> join c l = [] -> l = [].
Proof.
  destruct 1 as [|v l Hv Hl]; [reflexivity|]. destruct l; cbn [join].
  - congruence.
  - intros H. apply app_eq_nil in H as [_ H]. discriminate H.
Qed.

Lemma includes_value_elem_of (l : list jsstring) (v : jsstring) :
  includes_value l v = true <-> v ∈ l.
Proof.
  unfold includes_value. rewrite existsb_exists. split.
  - intros (x & Hin & Heq). apply jsstring_eqb_eq in Heq. subst x.
    apply list_elem_of_In. exact Hin.
  - intros Hin. exists v. split; [apply list_elem_of_In, Hin|].
    apply jsstring_eqb_eq. reflexivity.
Qed.

Lemma set_checked_same (cb : Checkbox) (b : bool) :
  checked cb = b -> set_checked cb b = cb.
Proof. destruct cb. cbn. intros ->. reflexivity. Qed.

Lemma checked_value_elem_of (reg : list Checkbox) (cb : Checkbox) :
  NoDup (map checkbox_value reg) -> cb ∈ reg ->
  includes_value (map checkbox_value (List.filter checked reg))
                 (checkbox_value cb) = checked cb.
Proof.
  intros Hnd Hcb. apply eq_true_iff_eq. rewrite includes_value_elem_of.
  rewrite list_elem_of_fmap. split.
  - intros (cb' & Hv & Hin). apply list_elem_of_In, filter_In in Hin.
    destruct Hin as [Hin Hc]. apply list_elem_of_In in Hin.
    assert (cb' = cb); [|congruence].
    clear Hc. induction reg as [|x reg IH]; [inversion Hcb|].
    cbn [map] in Hnd. apply NoDup_cons in Hnd as [Hx Hnd].
    apply elem_of_cons in Hcb as [-> | Hcb], Hin as [-> | Hin]; auto.
    + exfalso. apply Hx. rewrite Hv. apply list_elem_of_fmap. eauto.
    + exfalso. apply Hx. rewrite <- Hv. apply list_elem_of_fmap. eauto.
  - intros Hc. exists cb. split; [reflexivity|].
    apply list_elem_of_In, filter_In. split; [apply list_elem_of_In, Hcb | exact Hc].
Qed.

Lemma load_regular_same (reg : list Checkbox) :
  NoDup (map checkbox_value reg) ->
  map (fun cb =>
         set_checked cb
           (includes_value (map checkbox_value (List.filter checked reg))
                           (checkbox_value cb))) reg = reg.
Proof.
  intros Hnd. transitivity (map id reg); [|apply map_id]. apply map_ext_in.
  intros cb Hcb. unfold id. apply set_checked_same. symmetry.
  apply checked_value_elem_of; [exact Hnd | apply list_elem_of_In, Hcb].
Qed.

Lemma selected_values_read_back (sel : list jsstring) :
  Forall plain_value sel -> sel <> [] ->
  present (Some (join c_comma sel)) = Some (join c_comma sel)
  /\ List.filter truthy (map trim (split c_comma (join c_comma sel))) = sel.
Proof.
  intros Hp Hne. split.
  - cbn [present]. destruct (join c_comma sel) eqn:E; [|reflexivity].
    exfalso. apply Hne. eapply join_nil; [|exact E].
    eapply Forall_impl; [exact Hp|]. intros v (H & _). exact H.
  - rewrite split_join; [| |exact Hne].
    2:{ eapply Forall_impl; [exact Hp|]. intros v (_ & H & _). exact H. }
    clear Hne. induction Hp as [|v sel (Hv & _ & Ht) _ IH]; [reflexivity|].
    cbn [map List.filter]. rewrite Ht, IH.
    destruct v; [congruence | reflexivity].
Qed.

(** X6: [multi_exclusive_update_value], [multi_exclusive_load_value]: the
    hidden value written from the check boxes reads back to the same check
    boxes, provided the exclusive and the regular options are not checked
    together and the option values are distinct, non-empty, free of commas
    and of surrounding white space. *)
Theorem multi_exclusive_value_round_trip (c : MultiExclusive) :
  exclusion c ->
  Forall plain_value
    (map checkbox_value (option_list (exclusive c) ++ regular c)) ->
  NoDup (map checkbox_value (option_list (exclusive c) ++ regular c)) ->
  multi_exclusive_load_value (multi_exclusive_update_value c)
  = multi_exclusive_update_value c.
Proof.
  intros Hex Hplain Hnd.
  unfold multi_exclusive_update_value.
  destruct (multi_value c) as [v0|] eqn:Ev.
  2:{ unfold multi_exclusive_load_value. rewrite Ev. reflexivity. }
  unfold multi_exclusive_load_value. cbn [multi_value exclusive regular].
  destruct (decide (selected c = [])) as [Hs | Hs].
  { rewrite Hs. reflexivity. }
  assert (Hsel : Forall plain_value (selected c)).
  { unfold selected. rewrite Forall_forall in *. intros v Hv. apply Hplain.
    rewrite map_app, elem_of_app.
    destruct (exclusive c) as [ex|]; cbn [option_list map].
    - destruct (checked ex).
      + left. exact Hv.
      + right. apply list_elem_of_fmap in Hv as (cb & -> & Hin).
        apply list_elem_of_fmap. exists cb. split; [reflexivity|].
        apply list_elem_of_In, filter_In in Hin. apply list_elem_of_In, Hin.
    - right. apply list_elem_of_fmap in Hv as (cb & -> & Hin).
      apply list_elem_of_fmap. exists cb. split; [reflexivity|].
      apply list_elem_of_In, filter_In in Hin. apply list_elem_of_In, Hin. }
  destruct (selected_values_read_back _ Hsel Hs) as [-> ->].
  unfold selected, exclusion in *.
  destruct (exclusive c) as [ex|]; cbn [option_list app map] in *.
  - apply NoDup_cons in Hnd as [Hout Hnd].
    destruct (checked ex) eqn:Ec.
    + cbn [includes_value existsb].
      replace (jsstring_eqb (checkbox_value ex) (checkbox_value ex)) with true
        by (symmetry; apply jsstring_eqb_eq; reflexivity).
      cbn [orb]. rewrite (set_checked_same ex true Ec). f_equal.
      specialize (Hex eq_refl).
      transitivity (map id (regular c)); [|apply map_id].
      apply map_ext_in. intros cb Hcb. unfold id. apply set_checked_same.
      rewrite Forall_forall in Hex. apply Hex, list_elem_of_In, Hcb.
    + assert (Hno : includes_value
                      (map checkbox_value (List.filter checked (regular c)))
                      (checkbox_value ex) = false).
      { apply not_true_is_false. rewrite includes_value_elem_of.
        intros Hin. apply Hout.
        apply list_elem_of_fmap in Hin as (cb & -> & Hin).
        apply list_elem_of_fmap. exists cb. split; [reflexivity|].
        apply list_elem_of_In, filter_In in Hin. apply list_elem_of_In, Hin. }
      rewrite Hno, (set_checked_same ex false Ec), load_regular_same
        by assumption.
      reflexivity.
  - rewrite load_regular_same by assumption. reflexivity.
Qed.

Lemma multi_exclusive_value_round_trip_witness :
  exclusion scenario_C
  /\ multi_exclusive_load_value (multi_exclusive_update_value scenario_C)
     = scenario_C.
Proof.
  assert (H : exclusion scenario_C) by (intros Hc; discriminate Hc).
  split; [exact H|].
  refine (eq_trans (multi_exclusive_value_round_trip scenario_C H _ _) eq_refl).
  - repeat constructor; try discriminate; intros Hin;
      repeat (apply elem_of_cons in Hin as [Hin | Hin]; [discriminate Hin|]);
      inversion Hin.
  - repeat constructor; intros Hin;
      repeat (apply elem_of_cons in Hin as [Hin | Hin]; [discriminate Hin|]);
      inversion Hin.
Defined.

End MultiExclusiveProperties.

Section SelectorKeyboardProperties.
Local Open Scope Z_scope.
Local Open Scope list_scope.






(** X8: [dynamic_table_handle_selector_keydown], adding by keyboard: the
    handler starts a row only for the key Enter, with the list open, and
    only for the code of an option that is shown (not hidden); the index it
    takes is the row counter, and no key changes the rows of the grid. *)
Theorem selector_keydown_adds (state : StateTable) (key : Key) :
  cells (element (fst (dynamic_table_handle_selector_keydown state key)))
  = cells (element state)
  /\ forall index fx code,
       snd (dynamic_table_handle_selector_keydown state key)
       = Some (index, fx, code) ->
       key = Enter
       /\ dropdown_open state = true
       /\ code <> []
       /\ (exists o, o ∈ selector_visible state /\ is_hidden o = false
                     /\ data_rowCode o = Some code)
       /\ index = row_counter state
       /\ row_counter (fst (dynamic_table_handle_selector_keydown state key))
          = js_succ (row_counter state)
       /\ is_network_call fx = true.
Proof.
  unfold dynamic_table_handle_selector_keydown, dropdown_open, selector_visible.
  destruct (row_selector (element state)) as [s|] eqn:Es.
  2:{ split; [reflexivity | intros ? ? ? H; discriminate H]. }
  cbn [mbind option_bind].
  set (vis := match selector_dropdown s with
              | Some cls => negb (bool_decide ("hidden"%string ∈ cls))
              | None => false
              end).
  destruct key; cbn [fst snd].
  1: split; [reflexivity | intros ? ? ? H; discriminate H].
  1-2,4: destruct vis; cbn [negb fst snd];
    (split; [reflexivity | intros ? ? ? H; discriminate H]).
  destruct vis; cbn [negb]; [|split; [reflexivity | intros ? ? ? H; discriminate H]].
  set (sel := if 0 <=? default (-1) (enum_selected_index state)
              then visible_options s !!
                     Z.to_nat (default (-1) (enum_selected_index state))
              else None).
  destruct sel as [o|] eqn:Esel; cbn [mbind option_bind];
    [|split; [reflexivity | intros ? ? ? H; discriminate H]].
  destruct (present (data_rowCode o)) as [code|] eqn:Ec;
    [|split; [reflexivity | intros ? ? ? H; discriminate H]].
  cbn [dynamic_table_add_row_begin fst snd]. split; [reflexivity|].
  intros index fx code' H. injection H as <- <- <-.
  assert (Ho : o ∈ visible_options s).
  { subst sel. destruct (0 <=? _); [|discriminate Esel].
    eapply list_elem_of_lookup_2. exact Esel. }
  assert (Hcode : data_rowCode o = Some code /\ code <> []).
  { unfold present in Ec. destruct (data_rowCode o) as [c|]; [|discriminate Ec].
    destruct c; [discriminate Ec|]. injection Ec as <-. split; [reflexivity|].
    discriminate. }
  destruct Hcode as [Hrc Hne].
  repeat split; try reflexivity; try assumption.
  exists o. split; [exact Ho|]. split; [|exact Hrc].
  apply list_elem_of_In, filter_In in Ho. destruct Ho as [_ Ho].
  apply negb_true_iff in Ho. exact Ho.
Qed.

Lemma selector_keydown_adds_witness :
  let st := set_selected_index unique_state (Some 0) in
  snd (dynamic_table_handle_selector_keydown st Enter)
  = Some (0, FetchGet (lit "/app/2025/bdgr/1/uprawy/A2/01/0"), lit "01")
  /\ dropdown_open st = true
  /\ row_counter (fst (dynamic_table_handle_selector_keydown st Enter)) = 1.
Proof.
  cbv zeta.
  assert (H : snd (dynamic_table_handle_selector_keydown
                     (set_selected_index unique_state (Some 0)) Enter)
              = Some (0, FetchGet (lit "/app/2025/bdgr/1/uprawy/A2/01/0"),
                      lit "01")) by reflexivity.
  destruct (proj2 (selector_keydown_adds _ _) _ _ _ H)
    as (_ & Hopen & _ & _ & _ & Hcount & _).
  split; [exact H|]. split; [exact Hopen | exact Hcount].
Defined.

End SelectorKeyboardProperties.

Section SavedDataProperties.
Local Open Scope list_scope.

Lemma cons_eq_parts {A} (x y : A) (l l' : list A) :
  x :: l = y :: l' -> x = y /\ l = l'.
Proof. intros H. split; congruence. Qed.

Lemma unmarked_mark (i : Input) (e : option jsstring) :
  unmarked (mark i e) = unmarked i.
Proof. destruct e; reflexivity. Qed.

Lemma field_validate_unmarked (f f' : Field) (ok : bool) (n : nat) :
  field_validate f = Some (f', ok, n) ->
  field_map_inputs unmarked f' = field_map_inputs unmarked f.
Proof.
  destruct f as [i | i | v h | h opts]; cbn [field_validate].
  - destruct (readonly i); [intros [= <- _ _]; reflexivity|].
    destruct (validate_number_required i); cbn [mbind option_bind];
      [|discriminate].
    intros [= <- _ _]. cbn [field_map_inputs]. rewrite unmarked_mark. reflexivity.
  - destruct (readonly i); intros [= <- _ _]; [reflexivity|].
    cbn [field_map_inputs]. rewrite unmarked_mark. reflexivity.
  - destruct (is_readonly v); [intros [= <- _ _]; reflexivity|].
    destruct v as [i|]; intros [= <- _ _]; [|reflexivity].
    cbn [field_map_inputs fmap option_fmap option_map].
    rewrite unmarked_mark. reflexivity.
  - destruct h as [i|]; intros [= <- _ _]; [|reflexivity].
    cbn [field_map_inputs fmap option_fmap option_map].
    rewrite unmarked_mark. reflexivity.
Qed.

Lemma fields_validate_unmarked (fs : list Field) : forall fs' ok n,
  fields_validate fs = Some (fs', ok, n) ->
  map (field_map_inputs unmarked) fs' = map (field_map_inputs unmarked) fs.
Proof.
  induction fs as [|f fs IH]; intros fs' ok n; cbn [fields_validate].
  - intros [= <- _ _]. reflexivity.
  - destruct (field_validate f) as [[[f1 ok1] n1]|] eqn:Ef;
      cbn [mbind option_bind]; [|discriminate].
    destruct (fields_validate fs) as [[[fs1 ok2] n2]|] eqn:Efs;
      cbn [mbind option_bind]; [|discriminate].
    intros [= <- _ _]. cbn [map].
    rewrite (field_validate_unmarked _ _ _ _ Ef), (IH _ _ _ eq_refl).
    reflexivity.
Qed.

Lemma cells_validate_same (cs : list Cell) : forall cs' ok,
  cells_validate cs = Some (cs', ok) -> same_data cs' cs.
Proof.
  unfold same_data.
  induction cs as [|c cs IH]; intros cs' ok; cbn [cells_validate].
  - intros [= <- _]. reflexivity.
  - unfold cell_validate.
    destruct (fields_validate (fields c)) as [[[fs1 ok1] n1]|] eqn:Ef;
      cbn [mbind option_bind]; [|discriminate].
    destruct (cells_validate cs) as [[cs1 ok2]|] eqn:Ecs;
      cbn [mbind option_bind]; [|discriminate].
    intros [= <- _]. cbn [map]. rewrite (IH _ _ eq_refl). f_equal.
    unfold unmarked_cell. cbn [row_index row_code fields set_fields].
    rewrite (fields_validate_unmarked _ _ _ _ Ef). reflexivity.
Qed.

Lemma clear_errors_same (cs : list Cell) :
  same_data (row_cells_clear_errors cs) cs.
Proof.
  unfold same_data, row_cells_clear_errors. rewrite map_map.
  apply map_ext. intros c. unfold unmarked_cell, cell_clear_errors.
  cbn [row_index row_code fields set_fields]. rewrite map_map. f_equal.
  apply map_ext. intros [i | i | [v|] [h|] | [h|] opts]; cbn; try reflexivity;
    rewrite ?map_map; reflexivity.
Qed.

Lemma row_cells_validate_same (cs cs' : list Cell) (ok : bool) :
  row_cells_validate cs = Some (cs', ok) -> same_data cs' cs.
Proof.
  unfold row_cells_validate. destruct (negb (row_cells_has_data cs)).
  - intros [= <- _]. apply clear_errors_same.
  - apply cells_validate_same.
Qed.

Lemma row_cells_put_same (rowIndex : Z) (all : list Cell) : forall updated,
  same_data updated (List.filter (in_row rowIndex) all) ->
  same_data (row_cells_put rowIndex all updated) all.
Proof.
  unfold same_data.
  induction all as [|c all IH]; intros updated H; [reflexivity|].
  cbn [row_cells_put List.filter] in *.
  destruct (in_row rowIndex c).
  - destruct updated as [|u us]; [discriminate H|].
    cbn [map] in *.
    apply cons_eq_parts in H as [Hu Hus]. rewrite Hu, (IH _ Hus). reflexivity.
  - cbn [map]. rewrite (IH _ H). reflexivity.
Qed.

Lemma filter_in_row_unmarked (rowIndex : Z) (cs : list Cell) :
  map unmarked_cell (List.filter (in_row rowIndex) cs)
  = List.filter (in_row rowIndex) (map unmarked_cell cs).
Proof.
  induction cs as [|c cs IH]; [reflexivity|]. cbn [map List.filter].
  change (in_row rowIndex (unmarked_cell c)) with (in_row rowIndex c).
  destruct (in_row rowIndex c); cbn [map]; rewrite IH; reflexivity.
Qed.

Lemma same_data_filter (rowIndex : Z) (cs cs' : list Cell) :
  same_data cs cs' ->
  same_data (List.filter (in_row rowIndex) cs) (List.filter (in_row rowIndex) cs').
Proof.
  unfold same_data. intros H. rewrite !filter_in_row_unmarked, H. reflexivity.
Qed.

Lemma validate_rows_same (indices : list Z) : forall all all' ok,
  validate_rows indices all = Some (all', ok) -> same_data all' all.
Proof.
  induction indices as [|i indices IH]; intros all all' ok; cbn [validate_rows].
  - intros [= <- _]. reflexivity.
  - destruct (row_cells_validate (List.filter (in_row i) all))
      as [[updated ok1]|] eqn:Er; cbn [mbind option_bind]; [|discriminate].
    destruct (validate_rows indices (row_cells_put i all updated))
      as [[all1 ok2]|] eqn:Ev; cbn [mbind option_bind]; [|discriminate].
    intros [= <- _]. unfold same_data.
    rewrite (IH _ _ _ Ev). apply row_cells_put_same.
    apply (row_cells_validate_same _ _ _ Er).
Qed.

(** *** Serialization reads the data only *)

Lemma existsb_map {A B} (p : B -> bool) (g : A -> B) (l : list A) :
  existsb p (map g l) = existsb (fun x => p (g x)) l.
Proof. induction l as [|x l IH]; cbn; [|rewrite IH]; reflexivity. Qed.

Lemma existsb_ext_eq {A} (p q : A -> bool) (l : list A) :
  (forall x, p x = q x) -> existsb p l = existsb q l.
Proof.
  intros H. induction l as [|x l IH]; cbn; [|rewrite H, IH]; reflexivity.
Qed.

Lemma foldl_map {A B C} (f : C -> B -> C) (g : A -> B) (l : list A) : forall d,
  foldl f d (map g l) = foldl (fun d x => f d (g x)) d l.
Proof. induction l as [|x l IH]; intros d; cbn; [|rewrite IH]; reflexivity. Qed.

Lemma foldl_ext_eq {A C} (f g : C -> A -> C) (l : list A) :
  (forall d x, f d x = g d x) -> forall d, foldl f d l = foldl g d l.
Proof.
  intros H. induction l as [|x l IH]; intros d; cbn; [reflexivity|].
  rewrite H. apply IH.
Qed.

Lemma cell_has_data_unmarked (c : Cell) :
  cell_has_data (unmarked_cell c) = cell_has_data c.
Proof.
  unfold cell_has_data, unmarked_cell. cbn [fields].
  rewrite !existsb_map.
  f_equal; [f_equal; [f_equal|]|]; apply existsb_ext_eq;
    intros [i | i | [v|] [h|] | [h|] opts]; reflexivity.
Qed.

Lemma row_cells_has_data_unmarked (cs : list Cell) :
  row_cells_has_data (map unmarked_cell cs) = row_cells_has_data cs.
Proof.
  unfold row_cells_has_data. rewrite existsb_map.
  apply existsb_ext_eq. intros c. apply cell_has_data_unmarked.
Qed.

Lemma foldl_serialize_unmarked
  (f : gmap (list N) JSValue -> Field -> gmap (list N) JSValue)
  (fs : list Field) (d : gmap (list N) JSValue) :
  (forall d x, f d (field_map_inputs unmarked x) = f d x) ->
  foldl f d (map (field_map_inputs unmarked) fs) = foldl f d fs.
Proof. intros H. rewrite foldl_map. apply foldl_ext_eq. exact H. Qed.

Lemma serialize_unmarked (d : gmap (list N) JSValue) (x : Field) :
  serialize_number d (field_map_inputs unmarked x) = serialize_number d x
  /\ serialize_string d (field_map_inputs unmarked x) = serialize_string d x
  /\ serialize_enum d (field_map_inputs unmarked x) = serialize_enum d x
  /\ serialize_multi d (field_map_inputs unmarked x) = serialize_multi d x.
Proof.
  destruct x as [i | i | [v|] [h|] | [h|] opts]; repeat split; reflexivity.
Qed.

Lemma fields_serialize_unmarked (fs : list Field) (d : gmap (list N) JSValue) :
  foldl serialize_multi
    (foldl serialize_enum
       (foldl serialize_string
          (foldl serialize_number d (map (field_map_inputs unmarked) fs))
          (map (field_map_inputs unmarked) fs))
       (map (field_map_inputs unmarked) fs))
    (map (field_map_inputs unmarked) fs)
  = foldl serialize_multi
      (foldl serialize_enum
         (foldl serialize_string (foldl serialize_number d fs) fs) fs) fs.
Proof.
  rewrite !foldl_serialize_unmarked; [reflexivity | | | |];
    intros d' x; apply serialize_unmarked.
Qed.

Lemma cell_serialize_unmarked (c : Cell) (data : gmap (list N) JSValue) :
  cell_serialize data (unmarked_cell c) = cell_serialize data c.
Proof.
  unfold cell_serialize, unmarked_cell. cbn [fields]. cbv zeta.
  apply fields_serialize_unmarked.
Qed.

Lemma row_serialize_unmarked (cs : list Cell) :
  row_serialize (map unmarked_cell cs) = row_serialize cs.
Proof.
  unfold row_serialize. rewrite foldl_map.
  apply foldl_ext_eq. intros d c. apply cell_serialize_unmarked.
Qed.

Lemma omap_row_index_unmarked (cs : list Cell) :
  omap row_index (map unmarked_cell cs) = omap row_index cs.
Proof.
  induction cs as [|c cs IH]; [reflexivity|].
  cbn [map]. rewrite !omap_cons_match.
  change (row_index (unmarked_cell c)) with (row_index c). rewrite IH.
  reflexivity.
Qed.

Lemma same_data_has_data (cs cs' : list Cell) :
  same_data cs cs' -> row_cells_has_data cs = row_cells_has_data cs'.
Proof.
  intros H. rewrite <- (row_cells_has_data_unmarked cs), H.
  apply row_cells_has_data_unmarked.
Qed.

Lemma same_data_row_serialize (cs cs' : list Cell) :
  same_data cs cs' -> row_serialize cs = row_serialize cs'.
Proof.
  intros H. rewrite <- (row_serialize_unmarked cs), H.
  apply row_serialize_unmarked.
Qed.

Lemma same_data_indices (st st' : StateTable) :
  same_data (cells (element st)) (cells (element st')) ->
  all_row_indices_get st = all_row_indices_get st'.
Proof.
  intros H. unfold all_row_indices_get.
  rewrite <- (omap_row_index_unmarked (cells (element st))), H.
  rewrite omap_row_index_unmarked. reflexivity.
Qed.

Lemma same_data_table_serialize (st st' : StateTable) :
  same_data (cells (element st)) (cells (element st')) ->
  table_serialize st = table_serialize st'.
Proof.
  intros H. unfold table_serialize. rewrite (same_data_indices _ _ H).
  induction (all_row_indices_get st') as [|i l IH]; [reflexivity|].
  rewrite !omap_cons_match. unfold row_cells_get in *.
  pose proof (same_data_filter i _ _ H) as Hi.
  rewrite (same_data_has_data _ _ Hi), (same_data_row_serialize _ _ Hi), IH.
  reflexivity.
Qed.

Lemma same_data_table_serialize_vertical (st st' : StateTable) :
  same_data (cells (element st)) (cells (element st')) ->
  table_serialize_vertical st = table_serialize_vertical st'.
Proof.
  intros H. unfold table_serialize_vertical. cbv zeta.
  assert (Hf : map (field_map_inputs unmarked)
                   (concat (map fields (cells (element st))))
               = map (field_map_inputs unmarked)
                     (concat (map fields (cells (element st'))))).
  { unfold same_data in H. revert H.
    generalize (cells (element st')). induction (cells (element st)) as [|c cs IH];
      intros [|c' cs'] H; try discriminate H; [reflexivity|].
    cbn [map concat] in *.
    apply cons_eq_parts in H as [Hc Hcs].
    rewrite !map_app, (IH _ Hcs). f_equal.
    apply (f_equal fields) in Hc. exact Hc. }
  rewrite <- (fields_serialize_unmarked
                (concat (map fields (cells (element st))))), Hf.
  apply fields_serialize_unmarked.
Qed.

End SavedDataProperties.

Section SaveProperties.
Local Open Scope list_scope.

Lemma show_success_same (cs : list Cell) :
  same_data (row_cells_show_success cs) cs.
Proof.
  unfold same_data, row_cells_show_success. rewrite map_map.
  apply map_ext. intros c. unfold unmarked_cell.
  cbn [row_index row_code fields set_fields]. rewrite map_map. f_equal.
  apply map_ext. intros [i | i | [v|] h | h opts]; cbn [field_show_success];
    try reflexivity;
    match goal with |- context [if ?b then _ else _] => destruct b end;
    reflexivity.
Qed.

Lemma show_success_rows_same (indices : list Z) : forall all,
  same_data (show_success_rows indices all) all.
Proof.
  induction indices as [|i indices IH]; intros all; cbn [show_success_rows];
    [reflexivity|].
  unfold same_data in *. rewrite IH.
  destruct (row_cells_has_data (List.filter (in_row i) all)); [|reflexivity].
  apply row_cells_put_same, show_success_same.
Qed.






(** X10: [table_save], once the request has settled: the pending flag is
    cleared whatever the outcome; the time of the last save moves to the
    present only when the server accepted the save, so a failed save does
    not start a new cooldown; one toast is shown; and the data of the grid,
    hence what a later save would send, is unchanged. *)
Theorem table_save_end_outcome (now : number) (response : SaveResponse)
  (state : StateTable) :
  let '(state', fx, ok) := table_save_end now response state in
  pending_save state' = false
  /\ ok = match response with SaveOk => true | _ => false end
  /\ last_save_time state' = (if ok then now else last_save_time state)
  /\ (exists message, fx = [Toast message (if ok then "success" else "error")])
  /\ same_data (cells (element state')) (cells (element state))
  /\ save_payload state' = save_payload state
  /\ row_counter state' = row_counter state.
Proof.
  destruct response as [err | status |]; cbn [table_save_end].
  1-2: repeat split; try reflexivity; eexists; reflexivity.
  set (st1 := set_save state (pending_save state) now).
  set (all := show_success_rows (all_row_indices_get st1) (cells (element st1))).
  assert (Hsame : same_data all (cells (element state)))
    by apply show_success_rows_same.
  split; [reflexivity|]. split; [reflexivity|]. split; [reflexivity|].
  split; [eexists; reflexivity|]. split; [exact Hsame|].
  split; [|reflexivity].
  unfold save_payload. cbn [table_type set_save set_element].
  erewrite same_data_table_serialize, same_data_table_serialize_vertical;
    [reflexivity | exact Hsame | exact Hsame].
Qed.

End SaveProperties.

Section RowIndices.
Local Open Scope list_scope.

Lemma StronglySorted_le_NoDup_lt (l : list Z) :
  StronglySorted Z.le l -> NoDup l -> StronglySorted Z.lt l.
Proof.
  induction 1 as [|x l Hs IH Hx]; intros Hnd; constructor.
  - apply IH. apply NoDup_cons in Hnd. tauto.
  - apply NoDup_cons in Hnd as [Hx' _]. rewrite Forall_forall in *.
    intros y Hy. specialize (Hx y Hy).
    assert (x <> y) by (intros ->; contradiction). lia.
Qed.

Lemma elem_of_all_row_indices (state : StateTable) (i : Z) :
  i ∈ all_row_indices_get state
  <-> exists c, c ∈ cells (element state) /\ row_index c = Some i.
Proof.
  unfold all_row_indices_get.
  rewrite merge_sort_Permutation, elem_of_remove_dups, list_elem_of_omap.
  reflexivity.
Qed.

(** X11: [all_row_indices_get]: the row indices come out in strictly
    ascending order, each once, and they are exactly the indices carried by
    the cells of the grid. *)
Theorem all_row_indices_get_sorted (state : StateTable) :
  StronglySorted Z.lt (all_row_indices_get state)
  /\ NoDup (all_row_indices_get state)
  /\ forall i, i ∈ all_row_indices_get state
       <-> exists c, c ∈ cells (element state) /\ row_index c = Some i.
Proof.
  assert (Hnd : NoDup (all_row_indices_get state)).
  { unfold all_row_indices_get. rewrite merge_sort_Permutation.
    apply NoDup_remove_dups. }
  split; [|split; [exact Hnd | apply elem_of_all_row_indices]].
  apply StronglySorted_le_NoDup_lt; [|exact Hnd].
  unfold all_row_indices_get. apply StronglySorted_merge_sort; apply _.
Qed.

Lemma zebra_same (e : Element) :
  same_data (cells (zebra_striping_apply e)) (cells e).
Proof.
  unfold same_data, zebra_striping_apply. cbn [cells set_cells].
  rewrite map_map. apply map_ext. intros c.
  destruct (row_index c) eqn:E; reflexivity.
Qed.

Lemma cells_selector_map (f : RowSelector -> RowSelector) (e : Element) :
  cells (selector_map f e) = cells e.
Proof. reflexivity. Qed.

Lemma delete_row_cells (state : StateTable) (cell : Cell) (rowIndex : Z)
  (rowCode : jsstring) :
  row_index cell = Some rowIndex -> present (row_code cell) = Some rowCode ->
  same_data (cells (element (dynamic_table_delete_row state cell)))
            (List.filter (fun c => negb (in_row rowIndex c))
                         (cells (element state))).
Proof.
  intros Hi Hc. unfold dynamic_table_delete_row. rewrite Hi, Hc.
  cbn [element set_element]. unfold same_data. rewrite zebra_same.
  destruct (is_unique state); reflexivity.
Qed.

Lemma filter_filter_implied {A} (p q : A -> bool) (l : list A) :
  (forall x, p x = true -> q x = true) ->
  List.filter p (List.filter q l) = List.filter p l.
Proof.
  intros H. induction l as [|x l IH]; [reflexivity|]. cbn [List.filter].
  destruct (q x) eqn:Eq; cbn [List.filter].
  - rewrite IH. reflexivity.
  - destruct (p x) eqn:Ep; [|exact IH].
    apply H in Ep. congruence.
Qed.

Lemma filter_filter_other (i j : Z) (cs : list Cell) :
  j <> i ->
  List.filter (in_row j) (List.filter (fun c => negb (in_row i c)) cs)
  = List.filter (in_row j) cs.
Proof.
  intros Hne. apply filter_filter_implied. intros c. unfold in_row.
  destruct (row_index c) as [k|]; [|discriminate].
  intros Hk. apply Z.eqb_eq in Hk. subst k.
  apply negb_true_iff, Z.eqb_neq. exact Hne.
Qed.

(** X12: [dynamic_table_delete_row]: deleting a row removes every cell that
    carries its row index, so that index is no longer serialized; the cells
    of every other row keep their data, and the row counter is not wound
    back. *)
Theorem dynamic_table_delete_row_removes (state : StateTable) (cell : Cell)
  (rowIndex : Z) (rowCode : jsstring) :
  row_index cell = Some rowIndex ->
  present (row_code cell) = Some rowCode ->
  let state' := dynamic_table_delete_row state cell in
  row_cells_get (element state') rowIndex = []
  /\ (forall j, j ∈ all_row_indices_get state'
                <-> j ∈ all_row_indices_get state /\ j <> rowIndex)
  /\ (forall j, j <> rowIndex ->
        same_data (row_cells_get (element state') j)
                  (row_cells_get (element state) j))
  /\ row_counter state' = row_counter state.
Proof.
  intros Hi Hc state'.
  pose proof (delete_row_cells state cell rowIndex rowCode Hi Hc) as Hsame.
  fold state' in Hsame.
  assert (Hrow : forall j,
            same_data (row_cells_get (element state') j)
                      (List.filter (in_row j)
                         (List.filter (fun c => negb (in_row rowIndex c))
                                      (cells (element state))))).
  { intros j. apply same_data_filter. exact Hsame. }
  split; [|split; [|split]].
  - specialize (Hrow rowIndex). unfold same_data in Hrow.
    assert (Hnil : List.filter (in_row rowIndex)
                     (List.filter (fun c => negb (in_row rowIndex c))
                                  (cells (element state))) = []).
    { clear. induction (cells (element state)) as [|c cs IH]; [reflexivity|].
      cbn [List.filter]. destruct (in_row rowIndex c) eqn:E; cbn [negb];
        [exact IH|]. cbn [List.filter]. rewrite E. exact IH. }
    rewrite Hnil in Hrow. destruct (row_cells_get (element state') rowIndex);
      [reflexivity | discriminate Hrow].
  - intros j.
    assert (Hidx : all_row_indices_get state'
                   = all_row_indices_get
                       (set_element state
                          (set_cells (element state)
                             (List.filter (fun c => negb (in_row rowIndex c))
                                          (cells (element state)))))).
    { apply same_data_indices. exact Hsame. }
    rewrite Hidx, !elem_of_all_row_indices. cbn [element set_element cells set_cells].
    split.
    + intros (c & Hin & Hci). apply list_elem_of_In, filter_In in Hin.
      destruct Hin as [Hin Hno]. split; [exists c; split;
        [apply list_elem_of_In, Hin | exact Hci]|].
      intros ->. unfold in_row in Hno. rewrite Hci, Z.eqb_refl in Hno.
      discriminate Hno.
    + intros [(c & Hin & Hci) Hne]. exists c. split; [|exact Hci].
      apply list_elem_of_In, filter_In. split; [apply list_elem_of_In, Hin|].
      unfold in_row. rewrite Hci. apply negb_true_iff, Z.eqb_neq. exact Hne.
  - intros j Hne. specialize (Hrow j).
    rewrite filter_filter_other in Hrow by exact Hne. exact Hrow.
  - subst state'. unfold dynamic_table_delete_row. rewrite Hi, Hc. reflexivity.
Qed.

Lemma dynamic_table_delete_row_removes_witness :
  let state := sample_state (one_row ++ sample_fragment 1) 0 in
  let cell := sample_cell 0 "01" [] in
  row_index cell = Some 0
  /\ present (row_code cell) = Some (lit "01")
  /\ row_cells_get (element (dynamic_table_delete_row state cell)) 0 = []
  /\ row_counter (dynamic_table_delete_row state cell) = row_counter state.
Proof.
  cbv zeta.
  pose proof (dynamic_table_delete_row_removes
                (sample_state (one_row ++ sample_fragment 1) 0)
                (sample_cell 0 "01" []) 0 (lit "01") eq_refl eq_refl) as H.
  cbv zeta in H. destruct H as (Hnil & _ & _ & Hcount).
  split; [reflexivity|]. split; [reflexivity|].
  split; [exact Hnil | exact Hcount].
Defined.

End RowIndices.

Section PopulatorFrame.

Context (json_parse : string -> option json)
        (range_order : nat -> gmap string json -> list (string * json))
        (int64_overflow : number -> Z) (Sprint : json -> string).

Lemma populate_cell_frame (data : gmap string json) (cell : TableCell) :
  same_cell_frame cell (populate_cell int64_overflow Sprint data cell).
Proof.
  unfold populate_cell, same_cell_frame.
  destruct (data !! Name cell); repeat split; reflexivity.
Qed.

Lemma populate_cells_frame (data : gmap string json) (cells : list TableCell) :
  Forall2 same_cell_frame cells
          (map (populate_cell int64_overflow Sprint data) cells).
Proof.
  induction cells as [|c cells IH]; cbn [map]; constructor;
    [apply populate_cell_frame | exact IH].
Qed.

Lemma same_row_frame_refl (row : TableRow) : same_row_frame row row.
Proof.
  repeat split. induction (Cells row); constructor; [|assumption].
  repeat split.
Qed.

Lemma populate_rows_frame (lookup : gmap string (gmap string json))
  (rows : list TableRow) :
  Forall2 same_row_frame rows (populate_rows int64_overflow Sprint lookup rows).
Proof.
  unfold populate_rows. induction rows as [|row rows IH]; cbn [map];
    constructor; [|exact IH].
  destruct (lookup !! Code row); [|apply same_row_frame_refl].
  repeat split. apply populate_cells_frame.
Qed.

Lemma rows_frame_refl (rows : list TableRow) : Forall2 same_row_frame rows rows.
Proof. induction rows; constructor; [apply same_row_frame_refl | assumption]. Qed.

Lemma PopulateCellsFromArray_frame (rows : list TableRow) (jsonData : string) :
  Forall2 same_row_frame rows
    (fst (PopulateCellsFromArray json_parse range_order int64_overflow Sprint
            rows jsonData)).
Proof.
  unfold PopulateCellsFromArray.
  destruct (String.eqb jsonData ""); [apply rows_frame_refl|].
  destruct (json_Unmarshal_array json_parse jsonData);
    [apply rows_frame_refl | apply populate_rows_frame].
Qed.

Lemma PopulateCellsFromObject_frame (rows : list TableRow) (jsonData : string) :
  Forall2 same_row_frame rows
    (fst (PopulateCellsFromObject json_parse int64_overflow Sprint
            rows jsonData)).
Proof.
  unfold PopulateCellsFromObject.
  destruct (String.eqb jsonData ""); [apply rows_frame_refl|].
  destruct (json_Unmarshal_map json_parse jsonData) as [|data];
    [apply rows_frame_refl|].
  cbn [fst]. induction rows as [|row rows IH]; cbn [map]; constructor;
    [|exact IH].
  repeat split. apply populate_cells_frame.
Qed.

Lemma populate_cell_twice (data : gmap string json) (cell : TableCell) :
  populate_cell int64_overflow Sprint data
    (populate_cell int64_overflow Sprint data cell)
  = populate_cell int64_overflow Sprint data cell.
Proof.
  unfold populate_cell. destruct (data !! Name cell) as [val|] eqn:E.
  - cbn [Name set_Value]. rewrite E. reflexivity.
  - rewrite E. reflexivity.
Qed.

Lemma populate_cells_twice (data : gmap string json) (cells : list TableCell) :
  map (populate_cell int64_overflow Sprint data)
      (map (populate_cell int64_overflow Sprint data) cells)
  = map (populate_cell int64_overflow Sprint data) cells.
Proof.
  rewrite map_map. apply map_ext. intros c. apply populate_cell_twice.
Qed.

(** X13: [PopulateCellsFromArray], [PopulateCellsFromObject]: whatever the
    stored payload is (well-formed or not), population never adds, removes
    or reorders rows or cells and changes nothing but cell values: titles,
    codes, indices, cell names, column links and the required, editable and
    blocked marks stay as the row construction set them.  Populating by
    name a second time from the same payload changes nothing more. *)
Theorem populators_keep_frame (rows : list TableRow) (jsonData : string) :
  let by_code rows :=
    fst (PopulateCellsFromArray json_parse range_order int64_overflow Sprint
           rows jsonData) in
  let by_name rows :=
    fst (PopulateCellsFromObject json_parse int64_overflow Sprint
           rows jsonData) in
  Forall2 same_row_frame rows (by_code rows)
  /\ Forall2 same_row_frame rows (by_name rows)
  /\ by_name (by_name rows) = by_name rows.
Proof.
  cbv zeta. split; [apply PopulateCellsFromArray_frame|].
  split; [apply PopulateCellsFromObject_frame|].
  unfold PopulateCellsFromObject.
  destruct (String.eqb jsonData "") eqn:Ee; cbn [fst]; [reflexivity|].
  destruct (json_Unmarshal_map json_parse jsonData) as [|data]; cbn [fst];
    [reflexivity|].
  rewrite map_map. apply map_ext. intros row. cbn [Cells set_Cells].
  rewrite populate_cells_twice. reflexivity.
Qed.

End PopulatorFrame.

Section GridShape.

Context (json_parse : string -> option json)
        (range_order : nat -> gmap string json -> list (string * json))
        (int64_overflow : number -> Z) (Sprint : json -> string).

Lemma frame_codes (rows rows' : list TableRow) :
  Forall2 same_row_frame rows rows' ->
  map Code rows' = map Code rows
  /\ map Title rows' = map Title rows
  /\ map (fun row => map Name (Cells row)) rows'
     = map (fun row => map Name (Cells row)) rows.
Proof.
  induction 1 as [|row row' rows rows' (Ht & Hc & _ & Hcells) _ (IH1 & IH2 & IH3)];
    [repeat split|].
  cbn [map]. rewrite Ht, Hc, IH1, IH2, IH3. repeat split. f_equal.
  induction Hcells as [|c c' cs cs' (Hn & _) _ IHc]; [reflexivity|].
  cbn [map]. rewrite Hn, IHc. reflexivity.
Qed.

Lemma imap_names (f : nat -> TableColumn -> TableCell)
  (columns : list TableColumn) :
  (forall i column, Name (f i column) = Column_Name column) ->
  map Name (imap f columns) = map Column_Name columns.
Proof.
  revert f. induction columns as [|c columns IH]; intros f H; [reflexivity|].
  cbn [imap map]. rewrite H, IH; [reflexivity|]. intros i column. apply H.
Qed.

Lemma static_rows_shape (columns : list TableColumn) (blocks : list BBlokady)
  (kody : list BKodyPodtabele) :
  map Code (static_rows columns blocks kody) = map Kod_Code kody
  /\ map Title (static_rows columns blocks kody) = map Kod_Title kody
  /\ map (fun row => map Name (Cells row)) (static_rows columns blocks kody)
     = map (fun _ => map Column_Name columns) kody.
Proof.
  unfold static_rows. rewrite !map_map. cbn [Code Title Cells].
  repeat split. apply map_ext. intros row. apply imap_names.
  intros i column. apply static_cell_fields.
Qed.

Lemma vertical_rows_shape (columns : list TableColumn) : forall i,
  map (fun row => map Name (Cells row))
      (imap (fun j column =>
               {| Cells := [ {| Value := ""; Name := Column_Name column;
                                Column := Some (i + j)%nat; Required := 0;
                                Editable := 1; Blocked := false |} ];
                  Title := Column_Label column ++ " " ++ Column_Title column;
                  Code := ""; Index := 0 |}) columns)
  = map (fun column => [Column_Name column]) columns.
Proof.
  induction columns as [|c columns IH]; intros i; [reflexivity|].
  cbn [imap map Cells Name]. f_equal.
  rewrite <- (IH (S i)). f_equal. apply imap_ext. intros j column _.
  cbn. repeat f_equal. lia.
Qed.

(** X14: [AnkietSubtableGet], the grid it renders: whatever payload is
    stored, a static horizontal grid has one row per catalogue code, in
    catalogue order, each with one cell per column, in column order, and no
    payload is handed to the client; a vertical grid has one row per column
    holding the one cell of that column; a dynamic grid has the catalogue
    rows without cells and hands the stored payload to the client as is. *)
Theorem AnkietSubtableGet_grid (q : SubtableQueries) (type data : string)
  (columns : list TableColumn) (rows : list TableRow) (log : list LogEntry) :
  AnkietSubtableGet json_parse range_order int64_overflow Sprint q
  = (Grid type columns rows data, log) ->
  exists kody,
    q_podtabela q = Ok type /\ q_kolumny q = Ok columns /\ q_kody q = Ok kody
    /\ (type = HORIZONTAL_STATIC_UNIQUE ->
        data = ""
        /\ map Code rows = map Kod_Code kody
        /\ map Title rows = map Kod_Title kody
        /\ map (fun row => map Name (Cells row)) rows
           = map (fun _ => map Column_Name columns) kody)
    /\ (type = VERTICAL_STATIC_UNIQUE ->
        data = ""
        /\ map (fun row => map Name (Cells row)) rows
           = map (fun column => [Column_Name column]) columns)
    /\ (type = HORIZONTAL_DYNAMIC_UNIQUE \/ type = HORIZONTAL_DYNAMIC_DUPLICABLE ->
        rows = catalogue_rows kody
        /\ data = match q_dane q with Ok d => d | Failed _ => "" end).
Proof.
  unfold AnkietSubtableGet, server_error, forbidden.
  destruct (q_base q); [|discriminate].
  destruct (q_year q); [|discriminate].
  destruct (q_tabs q); [|discriminate].
  destruct (q_subtabs q); [|discriminate].
  destruct (q_podtabela q) as [type'|]; [|discriminate].
  destruct (q_kolumny q) as [columns'|]; [|discriminate].
  destruct (q_kody q) as [kody|]; [|discriminate].
  set (dl := match q_dane q with
             | Ok jsonData => (jsonData, [])
             | Failed err => ("", [LogWarn "no existing data" err])
             end).
  assert (Hd : fst dl = match q_dane q with Ok d => d | Failed _ => "" end)
    by (subst dl; destruct (q_dane q); reflexivity).
  destruct dl as [jsonData log0]. cbn [fst] in Hd.
  destruct (String.eqb type' HORIZONTAL_DYNAMIC_DUPLICABLE
            || String.eqb type' HORIZONTAL_DYNAMIC_UNIQUE) eqn:Edyn.
  { intros [= -> -> <- <- _]. exists kody.
    do 3 (split; [reflexivity|]).
    split; [intros ->; discriminate Edyn|].
    split; [intros ->; discriminate Edyn|].
    intros _. split; [reflexivity | exact Hd]. }
  destruct (String.eqb type' HORIZONTAL_STATIC_UNIQUE) eqn:Est.
  { destruct (q_blokady q) as [blocks|]; [|discriminate].
    pose proof (PopulateCellsFromArray_frame json_parse range_order
                  int64_overflow Sprint
                  (static_rows columns' blocks kody) jsonData) as Hframe.
    destruct (PopulateCellsFromArray _ _ _ _ _ _) as [rows' err].
    cbn [fst] in Hframe. intros [= -> -> <- <- _]. exists kody.
    destruct (frame_codes _ _ Hframe) as (Hc & Ht & Hn).
    destruct (static_rows_shape columns blocks kody) as (Sc & St & Sn).
    do 3 (split; [reflexivity|]).
    split; [intros _; repeat split; congruence|].
    split; [intros ->; discriminate Est|].
    intros [-> | ->]; discriminate Edyn. }
  destruct (String.eqb type' VERTICAL_STATIC_UNIQUE) eqn:Ev; [|discriminate].
  pose proof (PopulateCellsFromObject_frame json_parse int64_overflow Sprint
                (vertical_rows columns') jsonData) as Hframe.
  destruct (PopulateCellsFromObject _ _ _ _ _) as [rows' err].
  cbn [fst] in Hframe. intros [= -> -> <- <- _]. exists kody.
  destruct (frame_codes _ _ Hframe) as (_ & _ & Hn).
  do 3 (split; [reflexivity|]).
  split; [intros ->; discriminate Est|].
  split.
  - intros _. split; [reflexivity|].
    rewrite Hn. apply (vertical_rows_shape columns 0%nat).
  - intros [-> | ->]; discriminate Edyn.
Qed.

End GridShape.

Lemma AnkietSubtableGet_grid_witness :
  exists rows log,
    AnkietSubtableGet scenario_A_parse map_order amd64_overflow no_Sprint
      (ok_queries HORIZONTAL_STATIC_UNIQUE sample_columns sample_kody []
                  "[...]")
    = (Grid HORIZONTAL_STATIC_UNIQUE sample_columns rows "", log)
    /\ map Code rows = ["01"]
    /\ map (fun row => map Name (Cells row)) rows
       = [["Wartosc_Kod"; "Wartosc_Liczba"]].
Proof.
  eexists. eexists.
  assert (H : AnkietSubtableGet scenario_A_parse map_order amd64_overflow
                no_Sprint
                (ok_queries HORIZONTAL_STATIC_UNIQUE sample_columns sample_kody
                            [] "[...]")
              = (Grid HORIZONTAL_STATIC_UNIQUE sample_columns _ "", _))
    by (vm_compute; reflexivity).
  split; [exact H|].
  destruct (AnkietSubtableGet_grid _ _ _ _ _ _ _ _ _ _ H)
    as (kody & _ & _ & Hk & Hs & _).
  injection Hk as <-. destruct (Hs eq_refl) as (_ & Hc & _ & Hn).
  split; [exact Hc | exact Hn].
Defined.

Section DataQuery.

Context (json_parse : string -> option json)
        (range_order : nat -> gmap string json -> list (string * json))
        (int64_overflow : number -> Z) (Sprint : json -> string).


End DataQuery.


Section Dictionaries.
Local Open Scope nat_scope.

Lemma ToSliceTableEnum_lookup (c : ColumnSlownik) (l : list TableEnum) :
  ToSliceTableEnum c = Some l ->
  length l = length (Slownik_Code c)
  /\ forall i e, l !! i = Some e ->
       Slownik_Code c !! i = Some (Enum_Value e)
       /\ Slownik_Opis c !! i = Some (Enum_Label e).
Proof.
  unfold ToSliceTableEnum. intros H. apply mapM_Some in H.
  split.
  - apply Forall2_length in H. rewrite length_seq in H. congruence.
  - intros i e Hi.
    destruct (Forall2_lookup_r _ _ _ _ _ H Hi) as (j & Hj & Hf).
    apply lookup_seq in Hj as [-> _]. cbn [Nat.add] in Hf.
    destruct (Slownik_Code c !! i) as [code|]; cbn [mbind option_bind] in Hf;
      [|discriminate Hf].
    destruct (Slownik_Opis c !! i) as [label|]; cbn [mbind option_bind] in Hf;
      [|discriminate Hf].
    injection Hf as <-. split; reflexivity.
Qed.

(** X16: [ColumnSlownik.ToSliceTableEnum]: the options pair each code with the
    description at the same position, in order, one option per code; the
    call panics (index out of range) exactly when there are fewer
    descriptions than codes. *)
Theorem ToSliceTableEnum_pairs (c : ColumnSlownik) :
  (length (Slownik_Code c) <= length (Slownik_Opis c) ->
   exists l, ToSliceTableEnum c = Some l
     /\ map Enum_Value l = Slownik_Code c
     /\ map Enum_Label l = take (length (Slownik_Code c)) (Slownik_Opis c))
  /\ (length (Slownik_Opis c) < length (Slownik_Code c) ->
      ToSliceTableEnum c = None).
Proof.
  split.
  - intros Hlen.
    destruct (ToSliceTableEnum c) as [l|] eqn:E.
    + exists l. split; [reflexivity|].
      destruct (ToSliceTableEnum_lookup c l E) as [Hl Hlk].
      split; apply list_eq; intros i.
      * rewrite list_lookup_fmap.
        destruct (l !! i) as [e|] eqn:Ei; cbn.
        -- symmetry. apply (Hlk i e Ei).
        -- symmetry. apply lookup_ge_None. apply lookup_ge_None in Ei. lia.
      * rewrite list_lookup_fmap.
        destruct (l !! i) as [e|] eqn:Ei; cbn.
        -- apply lookup_lt_Some in Ei as Hi.
           rewrite lookup_take_lt by lia. symmetry. apply (Hlk i e Ei).
        -- apply lookup_ge_None in Ei. symmetry.
           apply lookup_ge_None. rewrite length_take. lia.
    + exfalso. unfold ToSliceTableEnum in E.
      assert (Hsome : is_Some (mapM (fun i =>
                 code ← Slownik_Code c !! i;
                 label ← Slownik_Opis c !! i;
                 Some {| Enum_Value := code; Enum_Label := label |})
                (seq 0 (length (Slownik_Code c))))).
      { apply mapM_is_Some. apply Forall_forall. intros i Hi.
        apply elem_of_seq in Hi. unfold compose.
        destruct (lookup_lt_is_Some_2 (Slownik_Code c) i ltac:(lia)) as [x Hx].
        destruct (lookup_lt_is_Some_2 (Slownik_Opis c) i ltac:(lia)) as [y Hy].
        rewrite Hx, Hy. cbn. eauto. }
      rewrite E in Hsome. destruct Hsome as [? Hsome]. discriminate Hsome.
  - intros Hlen. destruct (ToSliceTableEnum c) as [l|] eqn:E; [|reflexivity].
    exfalso. destruct (ToSliceTableEnum_lookup c l E) as [Hl Hlk].
    destruct (lookup_lt_is_Some_2 l (length (Slownik_Opis c)) ltac:(lia))
      as [e He].
    destruct (Hlk _ _ He) as [_ Ho].
    apply lookup_lt_Some in Ho. lia.
Qed.

Lemma ToSliceTableEnum_pairs_witness :
  let c := {| Slownik_Code := ["1"; "2"]; Slownik_Opis := ["tak"; "nie"; "?"] |} in
  length (Slownik_Code c) <= length (Slownik_Opis c)
  /\ (exists l, ToSliceTableEnum c = Some l
        /\ map Enum_Value l = ["1"; "2"]
        /\ map Enum_Label l = ["tak"; "nie"])
  /\ ToSliceTableEnum {| Slownik_Code := ["1"; "2"]; Slownik_Opis := ["tak"] |}
     = None.
Proof.
  cbv zeta. split; [cbn; lia|]. split.
  - refine (proj1 (ToSliceTableEnum_pairs
             {| Slownik_Code := ["1"; "2"]; Slownik_Opis := ["tak"; "nie"; "?"] |})
             _).
    cbn. lia.
  - apply (proj2 (ToSliceTableEnum_pairs
             {| Slownik_Code := ["1"; "2"]; Slownik_Opis := ["tak"] |})).
    cbn. lia.
Defined.

End Dictionaries.

Section ChainProperties.

Context {HandlerFunc : Type} (DefaultServeMux : HandlerFunc).

Lemma ChainFunc_Then_nested (cs : list (@ConstructorFunc HandlerFunc))
  (fn : option HandlerFunc) :
  ChainFunc_Then DefaultServeMux (ChainFuncNew cs) fn
  = foldr (fun constructor h => constructor h) (default DefaultServeMux fn) cs.
Proof.
  unfold ChainFunc_Then, ChainFuncNew. cbn [constructors].
  generalize (default DefaultServeMux fn). intros h.
  rewrite <- fold_left_rev_right, rev_involutive. reflexivity.
Qed.

(** X17: [ChainFunc.Then], [ChainFunc.Append], [ChainFunc.Extend],
    [Chain.ThenFuncChain]: [Then] nests the constructors with the first one
    outermost, so a request passes them in the order they were listed;
    appending to a chain puts the added constructors inside the earlier
    ones, whence the access check of the survey routes runs only behind the
    login check; [ThenFuncChain] nests in the opposite order. *)
Theorem ChainFunc_composition (c chain : @ChainFunc HandlerFunc)
  (added : list (@ConstructorFunc HandlerFunc)) (fn : option HandlerFunc) :
  ChainFunc_Then DefaultServeMux c fn
  = foldr (fun constructor h => constructor h) (default DefaultServeMux fn)
          (constructors c)
  /\ ChainFunc_Then DefaultServeMux (ChainFunc_Append c added) fn
     = ChainFunc_Then DefaultServeMux c
         (Some (ChainFunc_Then DefaultServeMux (ChainFuncNew added) fn))
  /\ ChainFunc_Then DefaultServeMux (ChainFunc_Extend c chain) fn
     = ChainFunc_Then DefaultServeMux c
         (Some (ChainFunc_Then DefaultServeMux chain fn))
  /\ (forall login access handler,
        ChainFunc_Then DefaultServeMux
          (ChainFunc_Append (ChainFuncNew [login]) [access]) (Some handler)
        = login (access handler))
  /\ (forall middlewares final,
        ThenFuncChain middlewares final
        = ChainFunc_Then DefaultServeMux (ChainFuncNew (rev middlewares))
            (Some final)).
Proof.
  assert (Hthen : forall (d : @ChainFunc HandlerFunc) f,
            ChainFunc_Then DefaultServeMux d f
            = foldr (fun constructor h => constructor h)
                    (default DefaultServeMux f) (constructors d)).
  { intros [cs] f. apply ChainFunc_Then_nested. }
  split; [apply Hthen|]. split; [|split; [|split]].
  - rewrite !Hthen. cbn [constructors ChainFunc_Append ChainFuncNew default
                         from_option id].
    apply foldr_app.
  - rewrite !Hthen. cbn [constructors ChainFunc_Extend ChainFunc_Append default
                         from_option id].
    apply foldr_app.
  - intros login access handler. rewrite Hthen. reflexivity.
  - intros middlewares final. rewrite Hthen.
    cbn [constructors ChainFuncNew default from_option id].
    unfold ThenFuncChain. rewrite <- fold_left_rev_right. reflexivity.
Qed.

End ChainProperties.

Section TabTree.
Local Open Scope N_scope.

Lemma land_subset_nonzero (a u b : N) :
  N.land u b = u -> N.land a u <> 0 -> N.land a b <> 0.
Proof.
  intros Hsub Hne Hz. apply Hne.
  rewrite <- Hsub, N.land_assoc, (N.land_comm a u), <- N.land_assoc, Hz.
  apply N.land_0_r.
Qed.

Lemma TableNameGet_loop_access (segments : list string) : forall root userType,
  HasAccessToPath root segments userType = true ->
  exists node, TableNameGet_loop (Some root) segments = Some (Some node).
Proof.
  induction segments as [|segment rest IH]; intros root userType H.
  - exists root. reflexivity.
  - cbn [HasAccessToPath] in H. cbn [TableNameGet_loop].
    destruct (Tab_Children root !! segment) as [next|]; [|discriminate H].
    destruct (N.land (Tab_Access next) userType =? 0); [discriminate H|].
    apply (IH next userType H).
Qed.

Lemma HasAccessToPath_take (segments : list string) : forall root userType n,
  HasAccessToPath root segments userType = true ->
  HasAccessToPath root (take n segments) userType = true.
Proof.
  induction segments as [|segment rest IH]; intros root userType n H.
  - rewrite take_nil. reflexivity.
  - destruct n as [|n]; [reflexivity|]. cbn [take HasAccessToPath] in *.
    destruct (Tab_Children root !! segment) as [next|]; [|discriminate H].
    destruct (N.land (Tab_Access next) userType =? 0); [discriminate H|].
    apply (IH next userType n H).
Qed.

Lemma HasAccessToPath_more_roles (segments : list string) :
  forall root userType more,
  N.land userType more = userType ->
  HasAccessToPath root segments userType = true ->
  HasAccessToPath root segments more = true.
Proof.
  induction segments as [|segment rest IH]; intros root userType more Hsub H;
    [reflexivity|].
  cbn [HasAccessToPath] in *.
  destruct (Tab_Children root !! segment) as [next|]; [|discriminate H].
  destruct (N.eqb_spec (N.land (Tab_Access next) userType) 0) as [|Hne];
    [discriminate H|].
  destruct (N.eqb_spec (N.land (Tab_Access next) more) 0) as [Hz|_].
  - exfalso. apply (land_subset_nonzero _ _ _ Hsub Hne Hz).
  - apply (IH next userType more Hsub H).
Qed.

(** X18: [TabNode.HasAccessToPath], [TabNode.TableNameGet]: a path that passes
    the access check exists in the tree, so reading its table name
    afterwards cannot dereference nil; every prefix of the path passes the
    check too; a user without any role bit passes only for the empty path;
    and a user who holds all the role bits of another passes wherever the
    other does. *)
Theorem HasAccessToPath_sound (root : TabNode) (segments : list string)
  (userType : UserType) :
  HasAccessToPath root segments userType = true ->
  (exists name, TableNameGet root segments = Some name)
  /\ (forall n, HasAccessToPath root (take n segments) userType = true)
  /\ (userType = 0 -> segments = [])
  /\ (forall more, N.land userType more = userType ->
                   HasAccessToPath root segments more = true).
Proof.
  intros H. split; [|split; [|split]].
  - destruct (TableNameGet_loop_access _ _ _ H) as [node Hnode].
    exists (Tab_TableName node). unfold TableNameGet. rewrite Hnode.
    reflexivity.
  - intros n. apply HasAccessToPath_take. exact H.
  - intros ->. destruct segments as [|segment rest]; [reflexivity|].
    cbn [HasAccessToPath] in H.
    destruct (Tab_Children root !! segment) as [next|]; [|discriminate H].
    rewrite N.land_0_r in H. discriminate H.
  - intros more Hsub. apply (HasAccessToPath_more_roles _ _ _ _ Hsub H).
Qed.

Lemma HasAccessToPath_sound_witness :
  HasAccessToPath sample_tabs ["slowniki"; "kody"] UserAdmin = true
  /\ TableNameGet sample_tabs ["slowniki"; "kody"] = Some "kody"
  /\ HasAccessToPath sample_tabs ["slowniki"; "kody"]
       (N.lor UserAdmin UserManager) = true
  /\ TableNameGet sample_tabs ["slowniki"; "brak"] = None.
Proof.
  assert (H : HasAccessToPath sample_tabs ["slowniki"; "kody"] UserAdmin = true)
    by (vm_compute; reflexivity).
  destruct (HasAccessToPath_sound _ _ _ H) as (_ & _ & _ & Hmore).
  split; [exact H|]. split; [vm_compute; reflexivity|].
  split; [apply Hmore; reflexivity | vm_compute; reflexivity].
Defined.

End TabTree.

Section RowwiseValidation.
Local Open Scope list_scope.

Lemma same_data_in_row (rowIndex : Z) (updated cs : list Cell) :
  same_data updated cs ->
  Forall (fun c => in_row rowIndex c = true) cs ->
  Forall (fun c => in_row rowIndex c = true) updated.
Proof.
  unfold same_data. revert cs.
  induction updated as [|u us IH]; intros [|c cs] H Hcs; try discriminate H;
    constructor.
  - cbn [map] in H. apply cons_eq_parts in H as [Hu _].
    apply Forall_cons in Hcs as [Hc _].
    change (in_row rowIndex u) with (in_row rowIndex (unmarked_cell u)).
    rewrite Hu. exact Hc.
  - cbn [map] in H. apply cons_eq_parts in H as [_ Hus].
    apply Forall_cons in Hcs as [_ Hcs]. apply (IH cs Hus Hcs).
Qed.

Lemma filter_in_row_all (rowIndex : Z) (cs : list Cell) :
  Forall (fun c => in_row rowIndex c = true) (List.filter (in_row rowIndex) cs).
Proof.
  apply Forall_forall. intros c Hc. apply list_elem_of_In, filter_In in Hc.
  apply Hc.
Qed.

Lemma row_cells_put_this (rowIndex : Z) (all : list Cell) : forall updated,
  same_data updated (List.filter (in_row rowIndex) all) ->
  List.filter (in_row rowIndex) (row_cells_put rowIndex all updated) = updated.
Proof.
  induction all as [|c all IH]; intros updated H.
  - destruct updated; [reflexivity | discriminate H].
  - cbn [row_cells_put List.filter] in *. destruct (in_row rowIndex c) eqn:Ec.
    + destruct updated as [|u us]; [discriminate H|].
      unfold same_data in H. cbn [map] in H.
      apply cons_eq_parts in H as [Hu Hus].
      cbn [List.filter].
      assert (Eu : in_row rowIndex u = true).
      { change (in_row rowIndex u) with (in_row rowIndex (unmarked_cell u)).
        rewrite Hu. exact Ec. }
      rewrite Eu, (IH us Hus). reflexivity.
    + cbn [List.filter]. rewrite Ec. apply IH. exact H.
Qed.

Lemma row_cells_put_other (i j : Z) (all : list Cell) : forall updated,
  j <> i ->
  same_data updated (List.filter (in_row i) all) ->
  List.filter (in_row j) (row_cells_put i all updated)
  = List.filter (in_row j) all.
Proof.
  intros updated Hne.
  assert (Hij : forall c, in_row i c = true -> in_row j c = false).
  { intros c. unfold in_row. destruct (row_index c) as [k|]; [|discriminate].
    intros Hk. apply Z.eqb_eq in Hk. subst k. apply Z.eqb_neq. congruence. }
  revert updated. induction all as [|c all IH]; intros updated H; [reflexivity|].
  cbn [row_cells_put List.filter] in *. destruct (in_row i c) eqn:Ec.
  - destruct updated as [|u us]; [discriminate H|].
    unfold same_data in H. cbn [map] in H. apply cons_eq_parts in H as [Hu Hus].
    assert (Eu : in_row i u = true).
    { change (in_row i u) with (in_row i (unmarked_cell u)).
      rewrite Hu. exact Ec. }
    cbn [List.filter]. rewrite (Hij u Eu), (Hij c Ec). apply (IH us Hus).
  - cbn [List.filter]. rewrite (IH updated H). reflexivity.
Qed.

Lemma validate_rows_untouched (indices : list Z) : forall all all' ok j,
  j ∉ indices ->
  validate_rows indices all = Some (all', ok) ->
  List.filter (in_row j) all' = List.filter (in_row j) all.
Proof.
  induction indices as [|i indices IH]; intros all all' ok j Hj;
    cbn [validate_rows].
  - intros [= <- _]. reflexivity.
  - apply not_elem_of_cons in Hj as [Hji Hj].
    destruct (row_cells_validate (List.filter (in_row i) all))
      as [[updated ok1]|] eqn:Er; cbn [mbind option_bind]; [|discriminate].
    destruct (validate_rows indices (row_cells_put i all updated))
      as [[all1 ok2]|] eqn:Ev; cbn [mbind option_bind]; [|discriminate].
    intros [= <- _]. rewrite (IH _ _ _ j Hj Ev).
    apply row_cells_put_other; [exact Hji|].
    apply (row_cells_validate_same _ _ _ Er).
Qed.

Lemma validate_rows_rowwise (indices : list Z) : forall all all' ok,
  NoDup indices ->
  validate_rows indices all = Some (all', ok) ->
  (forall i, i ∈ indices ->
     exists ok_i,
       row_cells_validate (List.filter (in_row i) all)
       = Some (List.filter (in_row i) all', ok_i)
       /\ (ok = true -> ok_i = true))
  /\ (ok = false ->
      exists i cells', i ∈ indices
        /\ row_cells_validate (List.filter (in_row i) all) = Some (cells', false)).
Proof.
  induction indices as [|i indices IH]; intros all all' ok Hnd;
    cbn [validate_rows].
  - intros [= <- <-]. split; [intros i Hi; inversion Hi | discriminate].
  - apply NoDup_cons in Hnd as [Hi Hnd].
    destruct (row_cells_validate (List.filter (in_row i) all))
      as [[updated ok1]|] eqn:Er; cbn [mbind option_bind]; [|discriminate].
    destruct (validate_rows indices (row_cells_put i all updated))
      as [[all1 ok2]|] eqn:Ev; cbn [mbind option_bind]; [|discriminate].
    intros [= <- <-].
    pose proof (row_cells_validate_same _ _ _ Er) as Hsame.
    destruct (IH _ _ _ Hnd Ev) as [IHrow IHfail].
    split.
    + intros j Hj. apply elem_of_cons in Hj as [-> | Hj].
      * exists ok1. split; [|intros H; apply andb_true_iff in H; apply H].
        rewrite (validate_rows_untouched _ _ _ _ i Hi Ev).
        rewrite (row_cells_put_this i all updated Hsame). exact Er.
      * assert (Hji : j <> i) by (intros ->; contradiction).
        destruct (IHrow j Hj) as (ok_j & Hrow & Hok).
        rewrite (row_cells_put_other i j all updated Hji Hsame) in Hrow.
        exists ok_j. split; [exact Hrow|].
        intros H. apply andb_true_iff in H. apply Hok, H.
    + intros Hfalse. apply andb_false_iff in Hfalse as [-> | ->].
      * exists i, updated. split; [left | exact Er].
      * destruct (IHfail eq_refl) as (j & cells' & Hj & Hrow).
        assert (Hji : j <> i) by (intros ->; contradiction).
        rewrite (row_cells_put_other i j all updated Hji Hsame) in Hrow.
        exists j, cells'. split; [right; exact Hj | exact Hrow].
Qed.

(** X19: [table_validate_all]: rows are validated one by one and none is
    skipped: each row of the grid ends up exactly as [row_cells_validate]
    leaves that row on its own, also when an earlier row has failed; the
    overall verdict is positive only if every row passes, and a negative
    verdict comes with a row that failed. *)
Theorem table_validate_all_rowwise (state state' : StateTable) (valid : bool) :
  table_validate_all state = Some (state', valid) ->
  all_row_indices_get state' = all_row_indices_get state
  /\ (forall rowIndex, rowIndex ∈ all_row_indices_get state ->
        exists ok,
          row_cells_validate (row_cells_get (element state) rowIndex)
          = Some (row_cells_get (element state') rowIndex, ok)
          /\ (valid = true -> ok = true))
  /\ (valid = false ->
      exists rowIndex cells',
        rowIndex ∈ all_row_indices_get state
        /\ row_cells_validate (row_cells_get (element state) rowIndex)
           = Some (cells', false)).
Proof.
  unfold table_validate_all. intros H.
  destruct (validate_rows (all_row_indices_get state) (cells (element state)))
    as [[all ok]|] eqn:Ev; cbn [mbind option_bind] in H; [|discriminate H].
  injection H as <- <-.
  assert (Hnd : NoDup (all_row_indices_get state)).
  { unfold all_row_indices_get. rewrite merge_sort_Permutation.
    apply NoDup_remove_dups. }
  destruct (validate_rows_rowwise _ _ _ _ Hnd Ev) as [Hrow Hfail].
  split; [|split; [exact Hrow | exact Hfail]].
  apply same_data_indices. apply (validate_rows_same _ _ _ _ Ev).
Qed.

Lemma table_validate_all_rowwise_witness :
  exists state',
    table_validate_all (sample_state (one_row ++ incomplete_row) 0)
    = Some (state', false)
    /\ exists rowIndex cells',
         rowIndex ∈ all_row_indices_get
                      (sample_state (one_row ++ incomplete_row) 0)
         /\ row_cells_validate
              (row_cells_get
                 (element (sample_state (one_row ++ incomplete_row) 0))
                 rowIndex)
            = Some (cells', false).
Proof.
  eexists.
  assert (H : table_validate_all (sample_state (one_row ++ incomplete_row) 0)
              = Some (_, false)) by (vm_compute; reflexivity).
  split; [exact H|].
  exact (proj2 (proj2 (table_validate_all_rowwise _ _ _ H)) eq_refl).
Defined.

End RowwiseValidation.

Section EnumFieldProperties.
Local Open Scope N_scope.
Local Open Scope list_scope.



Lemma includes_nil (s : jsstring) : includes s [] = true.
Proof. destruct s; reflexivity. Qed.

(** X21: [enum_select_init]: on start-up the visible input of an enum field
    takes the text of the first option whose text contains the stored
    value, trimmed, and is left alone when no option does; the stored value
    itself is never changed.  A field with nothing stored therefore shows
    its first option. *)
Theorem enum_select_init_first_match (box : EnumBox) (input hidden : Input)
  (cls : gset string) :
  enum_input box = Some input ->
  enum_hidden box = Some hidden ->
  enum_dropdown box = Some cls ->
  exists box',
    enum_select_init_container box = Some box'
    /\ enum_hidden box' = Some hidden
    /\ (input_value <$> enum_input box')
       = Some (match List.find (fun text => includes text (input_value hidden))
                               (enum_texts box) with
               | Some text => trim text
               | None => input_value input
               end)
    /\ (input_value hidden = [] ->
        forall first rest, enum_texts box = first :: rest ->
        (input_value <$> enum_input box') = Some (trim first)).
Proof.
  intros Hi Hh Hd. unfold enum_select_init_container.
  rewrite Hh, Hd. cbn [mbind option_bind].
  destruct (List.find (fun text => includes text (input_value hidden))
                      (enum_texts box)) as [text|] eqn:Ef.
  - rewrite Hi. cbn [mbind option_bind]. eexists. split; [reflexivity|].
    cbn [enum_hidden enum_input fmap option_fmap option_map input_value
         set_value].
    split; [first [exact Hh | reflexivity]|]. split; [reflexivity|].
    intros Hempty first rest Ht. rewrite Ht, Hempty in Ef.
    cbn [List.find] in Ef. rewrite includes_nil in Ef.
    injection Ef as <-. reflexivity.
  - exists box. split; [reflexivity|]. split; [exact Hh|].
    rewrite Hi. cbn [fmap option_fmap option_map].
    split; [reflexivity|].
    intros Hempty first rest Ht. rewrite Ht, Hempty in Ef.
    cbn [List.find] in Ef. rewrite includes_nil in Ef. discriminate Ef.
Qed.

Lemma enum_select_init_first_match_witness :
  enum_input sample_enum_box
  = Some (sample_input "Uprawa_widok" "" false (Some "true"))
  /\ value_of (enum_hidden sample_enum_box) = []
  /\ exists box',
       enum_select_init_container sample_enum_box = Some box'
       /\ (input_value <$> enum_input box') = Some (lit "01 - Pszenica").
Proof.
  split; [reflexivity|]. split; [reflexivity|].
  destruct (enum_select_init_first_match sample_enum_box _ _ _
              eq_refl eq_refl eq_refl) as (box' & Hinit & _ & _ & Hfirst).
  exists box'. split; [exact Hinit|].
  exact (eq_trans (Hfirst eq_refl _ _ eq_refl) eq_refl).
Defined.

End EnumFieldProperties.

Section VerticalSerialization.
Local Open Scope list_scope.


End VerticalSerialization.
